(** * Black-oil primary variables and TPFA local residual

    A shallow embedding of
    - [Opm::BlackOilPrimaryVariables] (the variable-meaning state machine:
      [adaptPrimaryVariables], [chopAndNormalizeSaturations]; the assignment
      from a fluid state, [assignNaive]; [setPvtRegionIndex]),
    - [Opm::BlackOilLocalResidualTPFA] ([computeStorage], [computeFlux],
      [computeBoundaryFlux] and their helpers), and
    - [Dumux::WeightedResidReductionCriterion] (the convergence criterion of
      the linear solver).

    Conventions of the embedding.
    - [Scalar] (C++ [double]) is modelled by the exact rationals [Q]; the
      comparisons of the source are the boolean comparisons on [Q].  Statements
      about computed numbers are therefore statements of exact arithmetic and
      are written with [==] ([Qeq]); values that the source assigns literally
      are compared with [=].
    - [Evaluation] (the dual numbers of the automatic differentiation) is a
      value together with a family of partial derivatives.
    - A [Dune::FieldVector] is a list; an access outside of the vector is
      undefined in the source: here a read yields [0] and a write is dropped,
      and the theorems that depend on a slot assume the index to be valid.
    - Compile-time properties of the [TypeTag] and the static members of the
      fluid system are record fields; external collaborators (PVT tables,
      material law, problem, extensive quantities) are functions carried in
      records or section variables.
    - [throw std::logic_error] is the left injection of a sum type.
    - The function-local [static] of [adaptPrimaryVariables] is threaded
      through the calls as an [option Scalar].
    - [assert] and [checkDefined] have no effect on the values computed (the
      former is compiled out with [NDEBUG], the latter only marks memory for
      Valgrind) and are not modelled.
    - [1e-20] is the rational [1 / 10^20]. *)

From Stdlib Require Import QArith Qminmax Qabs Lqa Lia ZArith Bool List Setoid Morphisms.
From stdpp Require Import base list.
Import ListNotations.

Local Open Scope Q_scope.

(* ===================================================================== *)
(** * Part I: the model                                                   *)
(* ===================================================================== *)

(** ** Scalars *)

Abbreviation Scalar := Q (only parsing).

#[global] Instance Scalar_inhabited : Inhabited Q := populate 0.

(** The comparisons of [double], as booleans. *)
Definition Qltb (x y : Q) : bool := negb (Qle_bool y x).
Definition Qgtb (x y : Q) : bool := Qltb y x.
Definition Qgeb (x y : Q) : bool := Qle_bool y x.

(** [std::max(a, b)] is [(a < b) ? b : a]; [std::min(a, b)] is
    [(b < a) ? b : a]. *)
Definition std_max (a b : Q) : Q := if Qltb a b then b else a.
Definition std_min (a b : Q) : Q := if Qltb b a then b else a.

(** ** Phases and components of the black-oil fluid system *)

Inductive Phase : Type := waterPhaseIdx | oilPhaseIdx | gasPhaseIdx.
Inductive Component : Type := oilCompIdx | waterCompIdx | gasCompIdx.

Definition Phase_eqb (a b : Phase) : bool :=
  match a, b with
  | waterPhaseIdx, waterPhaseIdx | oilPhaseIdx, oilPhaseIdx
  | gasPhaseIdx, gasPhaseIdx => true
  | _, _ => false
  end.

Definition Component_eqb (a b : Component) : bool :=
  match a, b with
  | oilCompIdx, oilCompIdx | waterCompIdx, waterCompIdx
  | gasCompIdx, gasCompIdx => true
  | _, _ => false
  end.

(** The phases in the order of [for (phaseIdx = 0; phaseIdx < numPhases; ++phaseIdx)]. *)
Definition allPhases : list Phase := [waterPhaseIdx; oilPhaseIdx; gasPhaseIdx].

(** [FluidSystem::solventComponentIndex]. *)
Definition solventComponentIndex (ph : Phase) : Component :=
  match ph with
  | waterPhaseIdx => waterCompIdx
  | oilPhaseIdx => oilCompIdx
  | gasPhaseIdx => gasCompIdx
  end.

(** ** Field vectors *)

Module FieldVector.

  (** [v[i]] for an [int] index. *)
Definition get (v : list Q) (i : Z) : Q :=
    if (0 <=? i)%Z then v !!! Z.to_nat i else 0.

  (** [v[i] = x]. *)
Definition set (v : list Q) (i : Z) (x : Q) : list Q :=
    if (0 <=? i)%Z then <[Z.to_nat i := x]> v else v.

Definition valid (v : list Q) (i : Z) : Prop :=
    (0 <= i < Z.of_nat (length v))%Z.

End FieldVector.

(** ** The meanings of the switching primary variables *)

Module WaterMeaning.
Inductive t : Type :=
  | Sw        (* water saturation *)
  | Rvw       (* vaporized water *)
  | Rsw       (* dissolved gas in water *)
  | Disabled. (* the primary variable is not used *)
Definition eqb (a b : t) : bool :=
    match a, b with
    | Sw, Sw | Rvw, Rvw | Rsw, Rsw | Disabled, Disabled => true
    | _, _ => false
    end.
End WaterMeaning.

Module PressureMeaning.
Inductive t : Type :=
  | Po  (* oil pressure *)
  | Pg  (* gas pressure *)
  | Pw. (* water pressure *)
Definition eqb (a b : t) : bool :=
    match a, b with
    | Po, Po | Pg, Pg | Pw, Pw => true
    | _, _ => false
    end.
End PressureMeaning.

Module GasMeaning.
Inductive t : Type :=
  | Sg        (* gas saturation *)
  | Rs        (* dissolved gas in oil *)
  | Rv        (* vaporized oil *)
  | Disabled. (* the primary variable is not used *)
Definition eqb (a b : t) : bool :=
    match a, b with
    | Sg, Sg | Rs, Rs | Rv, Rv | Disabled, Disabled => true
    | _, _ => false
    end.
End GasMeaning.

Module BrineMeaning.
Inductive t : Type :=
  | Cs        (* salt concentration *)
  | Sp        (* (precipitated) salt saturation *)
  | Disabled. (* the primary variable is not used *)
Definition eqb (a b : t) : bool :=
    match a, b with
    | Cs, Cs | Sp, Sp | Disabled, Disabled => true
    | _, _ => false
    end.
End BrineMeaning.

(** ** Compile-time configuration *)

(** [Indices]: positions of the primary variables and equations.  A
    disabled primary variable has a negative index. *)
Record Indices : Type := {
  numEq : nat;
  conti0EqIdx : nat;
  waterSwitchIdx : Z;
  pressureSwitchIdx : Z;
  compositionSwitchIdx : Z;
  saltConcentrationIdx : Z;
  solventSaturationIdx : Z;
  zFractionIdx : Z;
  temperatureIdx : Z;
  waterEnabled : bool;
  gasEnabled : bool;
  oilEnabled : bool;
  canonicalToActiveComponentIndex : Component -> nat
}.

(** [compositionSwitchEnabled = Indices::compositionSwitchIdx >= 0]. *)
Definition compositionSwitchEnabled (I : Indices) : bool :=
  (0 <=? compositionSwitchIdx I)%Z.

(** The boolean properties of the [TypeTag]. *)
Record Properties : Type := {
  enableSolvent : bool;
  enableExtbo : bool;
  enablePolymer : bool;
  enableEnergy : bool;
  enableFoam : bool;
  enableBrine : bool;
  enableSaltPrecipitation : bool;
  enableDiffusion : bool;
  enableMICP : bool;
  blackoilConserveSurfaceVolume : bool
}.

(** The static interface of the fluid system and of the PVT objects it
    owns, as far as the modelled functions call it. *)
Record FluidSystem : Type := {
  phaseIsActive : Phase -> bool;
  enableDissolvedGas : bool;
  enableDissolvedGasInWater : bool;
  enableVaporizedOil : bool;
  enableVaporizedWater : bool;
  referenceDensity : Phase -> nat -> Scalar;
  reservoirTemperature : Scalar;
  (* gasPvt().saturatedWaterVaporizationFactor(region, T, p, saltConcentration) *)
  gasPvt_saturatedWaterVaporizationFactor : nat -> Scalar -> Scalar -> Scalar -> Scalar;
  (* waterPvt().saturatedGasDissolutionFactor(region, T, pw, saltConcentration) *)
  waterPvt_saturatedGasDissolutionFactor : nat -> Scalar -> Scalar -> Scalar -> Scalar;
  (* oilPvt().saturatedGasDissolutionFactor(region, T, po, so, soMax) *)
  oilPvt_saturatedGasDissolutionFactor : nat -> Scalar -> Scalar -> Scalar -> Scalar -> Scalar;
  (* gasPvt().saturatedOilVaporizationFactor(region, T, pg, so, soMax) *)
  gasPvt_saturatedOilVaporizationFactor : nat -> Scalar -> Scalar -> Scalar -> Scalar -> Scalar
}.

(** The static functions of the optional modules that the primary
    variables call. *)
Record ModuleOracles : Type := {
  BrineModule_saltSol : nat -> Scalar;
  ExtboModule_rs : nat -> Scalar -> Scalar -> Scalar;
  ExtboModule_rv : nat -> Scalar -> Scalar -> Scalar
}.

(** A fluid state that stores saturations only. *)
Record SatOnlyFluidState : Type := {
  sat_saturation : Phase -> Scalar
}.

(** ** The primary variables *)

Module BlackOilPrimaryVariables.

Record t : Type := mk {
    values : list Scalar;
    primaryVarsMeaningWater_ : WaterMeaning.t;
    primaryVarsMeaningPressure_ : PressureMeaning.t;
    primaryVarsMeaningGas_ : GasMeaning.t;
    primaryVarsMeaningBrine_ : BrineMeaning.t;
    pvtRegionIdx_ : nat
  }.

  (** [this->operator[](i)] *)
Definition at_ (pv : t) (i : Z) : Scalar := FieldVector.get (values pv) i.

  (** [this->operator[](i) = x] *)
Definition assign (i : Z) (x : Scalar) (pv : t) : t :=
    mk (FieldVector.set (values pv) i x)
       (primaryVarsMeaningWater_ pv) (primaryVarsMeaningPressure_ pv)
       (primaryVarsMeaningGas_ pv) (primaryVarsMeaningBrine_ pv)
       (pvtRegionIdx_ pv).

Definition primaryVarsMeaningWater (pv : t) := primaryVarsMeaningWater_ pv.
Definition primaryVarsMeaningPressure (pv : t) := primaryVarsMeaningPressure_ pv.
Definition primaryVarsMeaningGas (pv : t) := primaryVarsMeaningGas_ pv.
Definition primaryVarsMeaningBrine (pv : t) := primaryVarsMeaningBrine_ pv.
Definition pvtRegionIndex (pv : t) : nat := pvtRegionIdx_ pv.

Definition setPrimaryVarsMeaningWater (m : WaterMeaning.t) (pv : t) : t :=
    mk (values pv) m (primaryVarsMeaningPressure_ pv)
       (primaryVarsMeaningGas_ pv) (primaryVarsMeaningBrine_ pv) (pvtRegionIdx_ pv).

Definition setPrimaryVarsMeaningPressure (m : PressureMeaning.t) (pv : t) : t :=
    mk (values pv) (primaryVarsMeaningWater_ pv) m
       (primaryVarsMeaningGas_ pv) (primaryVarsMeaningBrine_ pv) (pvtRegionIdx_ pv).

Definition setPrimaryVarsMeaningGas (m : GasMeaning.t) (pv : t) : t :=
    mk (values pv) (primaryVarsMeaningWater_ pv) (primaryVarsMeaningPressure_ pv)
       m (primaryVarsMeaningBrine_ pv) (pvtRegionIdx_ pv).

Definition setPrimaryVarsMeaningBrine (m : BrineMeaning.t) (pv : t) : t :=
    mk (values pv) (primaryVarsMeaningWater_ pv) (primaryVarsMeaningPressure_ pv)
       (primaryVarsMeaningGas_ pv) m (pvtRegionIdx_ pv).

Section WithConfiguration.

Variable I : Indices.
Variable P : Properties.
Variable FS : FluidSystem.
Variable M : ModuleOracles.

    (** The material law and the problem. *)
Variable MaterialLawParams : Type.
Variable MaterialLaw_capillaryPressures :
      MaterialLawParams -> SatOnlyFluidState -> Phase -> Scalar.

Record Problem : Type := {
      materialLawParams : nat -> MaterialLawParams;
      maxOilSaturation : nat -> Scalar;
      maxGasDissolutionFactor : nat -> nat -> Scalar;   (* (timeIdx, globalDofIdx) *)
      maxOilVaporizationFactor : nat -> nat -> Scalar   (* (timeIdx, globalDofIdx) *)
    }.

Definition solventSaturation_ (pv : t) : Scalar :=
      if enableSolvent P then at_ pv (solventSaturationIdx I) else 0.

Definition zFraction_ (pv : t) : Scalar :=
      if enableExtbo P then at_ pv (zFractionIdx I) else 0.

Definition temperature_ (pv : t) : Scalar :=
      if enableEnergy P then at_ pv (temperatureIdx I) else reservoirTemperature FS.

Definition computeCapillaryPressures_ (so sg sw : Scalar)
        (matParams : MaterialLawParams) : Phase -> Scalar :=
      let fluidState :=
        {| sat_saturation := fun ph =>
             match ph with
             | waterPhaseIdx => sw
             | oilPhaseIdx => so
             | gasPhaseIdx => sg
             end |} in
      MaterialLaw_capillaryPressures matParams fluidState.

    (** *** Reading the saturations (lines 1080-1090) *)

Definition read_sw (pv : t) : Scalar :=
      if WaterMeaning.eqb (primaryVarsMeaningWater pv) WaterMeaning.Sw
      then at_ pv (waterSwitchIdx I) else 0.

Definition read_sg (pv : t) : Scalar :=
      let sg := if GasMeaning.eqb (primaryVarsMeaningGas pv) GasMeaning.Sg
                then at_ pv (compositionSwitchIdx I) else 0 in
      if GasMeaning.eqb (primaryVarsMeaningGas pv) GasMeaning.Disabled && gasEnabled I
      then 1 - read_sw pv (* water + gas case *)
      else sg.

    (** *** The brine switch (lines 1092-1111)

        Returns the primary variables and the local [saltConcentration]. *)
Definition adaptBrine_ (eps : Scalar) (pv : t) : t * Scalar :=
      if enableSaltPrecipitation P then
        let saltSolubility := BrineModule_saltSol M (pvtRegionIndex pv) in
        match primaryVarsMeaningBrine pv with
        | BrineMeaning.Sp =>
            let saltSat := at_ pv (saltConcentrationIdx I) in
            if Qltb saltSat (- eps) then
              (* precipitated salt disappears *)
              (assign (saltConcentrationIdx I) saltSolubility
                 (setPrimaryVarsMeaningBrine BrineMeaning.Cs pv), saltSolubility)
            else (pv, saltSolubility)
        | BrineMeaning.Cs =>
            let saltConcentration := at_ pv (saltConcentrationIdx I) in
            if Qgtb saltConcentration (saltSolubility + eps) then
              (* salt concentration exceeds the solubility limit *)
              (assign (saltConcentrationIdx I) 0
                 (setPrimaryVarsMeaningBrine BrineMeaning.Sp pv), saltConcentration)
            else (pv, saltConcentration)
        | BrineMeaning.Disabled => (pv, 0)
        end
      else (pv, 0).

    (** *** The all-water cell (lines 1121-1140) *)
Definition waterFilledCell_ (pv : t) : bool * t :=
      (* make sure water saturations does not exceed 1.0 *)
      let pv1 := if waterEnabled I then assign (waterSwitchIdx I) 1 pv else pv in
      (* the hydrocarbon gas saturation is set to 0.0 *)
      let pv2 := if compositionSwitchEnabled I
                 then assign (compositionSwitchIdx I) 0 pv1 else pv1 in
      let changed := negb (GasMeaning.eqb (primaryVarsMeaningGas pv2) GasMeaning.Sg) in
      let pv3 := if changed && compositionSwitchEnabled I
                 then setPrimaryVarsMeaningGas GasMeaning.Sg pv2 else pv2 in
      (changed, pv3).

    (** The pressure used for the saturated water vaporization factor:
        the pressure slot, corrected by the capillary pressure when it holds
        the oil pressure (lines 1147-1154 and 1190-1197). *)
Definition gasPressureForRvw_ (problem : Problem) (globalDofIdx : nat)
        (sg : Scalar) (pv : t) : Scalar :=
      let p := at_ pv (pressureSwitchIdx I) in
      if PressureMeaning.eqb (primaryVarsMeaningPressure pv) PressureMeaning.Po then
        let matParams := materialLawParams problem globalDofIdx in
        let so := 1 - sg - solventSaturation_ pv in
        let pC := computeCapillaryPressures_ so (sg + solventSaturation_ pv) 0 matParams in
        p + (pC gasPhaseIdx - pC oilPhaseIdx)
      else p.

    (** *** The water switch (lines 1142-1243) *)
Definition adaptWater_ (problem : Problem) (globalDofIdx : nat) (eps : Scalar)
        (sw sg saltConcentration T : Scalar) (pv : t) : bool * t :=
      match primaryVarsMeaningWater pv with
      | WaterMeaning.Sw =>
          (* if water phase disappeares: Sw -> Rvw *)
          if Qltb sw (- eps) && Qgtb sg eps && enableVaporizedWater FS then
            let p := gasPressureForRvw_ problem globalDofIdx sg pv in
            let rvwSat :=
              gasPvt_saturatedWaterVaporizationFactor FS (pvtRegionIdx_ pv) T p saltConcentration in
            (true, assign (waterSwitchIdx I) rvwSat
                     (setPrimaryVarsMeaningWater WaterMeaning.Rvw pv))
          (* if gas phase disappeares: Sw -> Rsw and Pg -> Pw *)
          else if Qltb sg (- eps) && Qgtb sw eps && enableDissolvedGasInWater FS then
            let pg := at_ pv (pressureSwitchIdx I) in
            let matParams := materialLawParams problem globalDofIdx in
            let so := 1 - sw - solventSaturation_ pv in
            let pC := computeCapillaryPressures_ so 0 sw matParams in
            let pw := pg + (pC waterPhaseIdx - pC gasPhaseIdx) in
            let rswSat :=
              waterPvt_saturatedGasDissolutionFactor FS (pvtRegionIdx_ pv) T pw saltConcentration in
            (true,
             assign (pressureSwitchIdx I) pw
               (setPrimaryVarsMeaningPressure PressureMeaning.Pw
                  (assign (waterSwitchIdx I) rswSat
                     (setPrimaryVarsMeaningWater WaterMeaning.Rsw pv))))
          else (false, pv)
      | WaterMeaning.Rvw =>
          let rvw := at_ pv (waterSwitchIdx I) in
          let p := gasPressureForRvw_ problem globalDofIdx sg pv in
          let rvwSat :=
            gasPvt_saturatedWaterVaporizationFactor FS (pvtRegionIdx_ pv) T p saltConcentration in
          (* if water phase appears: Rvw -> Sw *)
          if Qgtb rvw (rvwSat * (1 + eps)) then
            (true, assign (waterSwitchIdx I) 0
                     (setPrimaryVarsMeaningWater WaterMeaning.Sw pv))
          else (false, pv)
      | WaterMeaning.Rsw =>
          let pw := at_ pv (pressureSwitchIdx I) in
          let rswSat :=
            waterPvt_saturatedGasDissolutionFactor FS (pvtRegionIdx_ pv) T pw saltConcentration in
          let rsw := at_ pv (waterSwitchIdx I) in
          if Qgtb rsw rswSat then
            (* the gas phase appears: Rsw -> Sw and Pw -> Pg *)
            let pv1 := setPrimaryVarsMeaningPressure PressureMeaning.Pg
                         (assign (waterSwitchIdx I) 1
                            (setPrimaryVarsMeaningWater WaterMeaning.Sw pv)) in
            let matParams := materialLawParams problem globalDofIdx in
            let pC := computeCapillaryPressures_ 0 0 1 matParams in
            (* [pw] is a reference into the vector: it is read here *)
            let pg := at_ pv1 (pressureSwitchIdx I) + (pC gasPhaseIdx - pC waterPhaseIdx) in
            (true, assign (pressureSwitchIdx I) pg pv1)
          else (false, pv)
      | WaterMeaning.Disabled => (false, pv)
      end.

    (** The saturated gas dissolution factor of the oil (lines 1262-1269
        and 1314-1321). *)
Definition rsSat_ (T po so soMax : Scalar) (pv : t) : Scalar :=
      if enableExtbo P
      then ExtboModule_rs M (pvtRegionIndex pv) po (zFraction_ pv)
      else oilPvt_saturatedGasDissolutionFactor FS (pvtRegionIdx_ pv) T po so soMax.

    (** The saturated oil vaporization factor of the gas (lines 1291-1298
        and 1341-1348). *)
Definition rvSat_ (T pg soMax : Scalar) (pv : t) : Scalar :=
      if enableExtbo P
      then ExtboModule_rv M (pvtRegionIndex pv) pg (zFraction_ pv)
      else gasPvt_saturatedOilVaporizationFactor FS (pvtRegionIdx_ pv) T pg 0 soMax.

    (** *** The gas switch (lines 1253-1379) *)
Definition adaptGas_ (problem : Problem) (globalDofIdx : nat) (eps : Scalar)
        (sw sg T : Scalar) (changed0 : bool) (pv : t) : bool * t :=
      match primaryVarsMeaningGas pv with
      | GasMeaning.Sg =>
          let s := 1 - sw - solventSaturation_ pv in
          let '(changed1, pv1) :=
            if Qltb sg (- eps) && Qgtb s 0 && enableDissolvedGas FS then
              let pvA := setPrimaryVarsMeaningGas GasMeaning.Rs pv in
              let po := at_ pvA (pressureSwitchIdx I) in
              let soMax := std_max s (maxOilSaturation problem globalDofIdx) in
              let rsMax := maxGasDissolutionFactor problem 0%nat globalDofIdx in
              let rsSat := rsSat_ T po s soMax pvA in
              (true, assign (compositionSwitchIdx I) (std_min rsMax rsSat) pvA)
            else (changed0, pv) in
          let so := 1 - sw - solventSaturation_ pv1 - sg in
          if Qltb so (- eps) && Qgtb sg 0 && enableVaporizedOil FS then
            (* the oil phase disappeared and some hydrocarbon gas phase is
               still present: switch to Rv and to the gas pressure *)
            let po := at_ pv1 (pressureSwitchIdx I) in
            let matParams := materialLawParams problem globalDofIdx in
            let pC := computeCapillaryPressures_ 0 (sg + solventSaturation_ pv1) sw matParams in
            let pg := po + (pC gasPhaseIdx - pC oilPhaseIdx) in
            let pv2 := assign (pressureSwitchIdx I) pg
                         (setPrimaryVarsMeaningPressure PressureMeaning.Pg pv1) in
            let soMax := maxOilSaturation problem globalDofIdx in
            let rvMax := maxOilVaporizationFactor problem 0%nat globalDofIdx in
            let rvSat := rvSat_ T pg soMax pv2 in
            (true, assign (compositionSwitchIdx I) (std_min rvMax rvSat)
                     (setPrimaryVarsMeaningGas GasMeaning.Rv pv2))
          else (changed1, pv1)
      | GasMeaning.Rs =>
          let po := at_ pv (pressureSwitchIdx I) in
          let so := 1 - sw - solventSaturation_ pv in
          let soMax := std_max so (maxOilSaturation problem globalDofIdx) in
          let rsMax := maxGasDissolutionFactor problem 0%nat globalDofIdx in
          let rsSat := rsSat_ T po so soMax pv in
          let rs := at_ pv (compositionSwitchIdx I) in
          if Qgtb rs (std_min rsMax (rsSat * (1 + eps))) then
            (* the gas phase appears: Rs -> Sg *)
            (true, assign (compositionSwitchIdx I) 0
                     (setPrimaryVarsMeaningGas GasMeaning.Sg pv))
          else (changed0, pv)
      | GasMeaning.Rv =>
          let pg := at_ pv (pressureSwitchIdx I) in
          let soMax := maxOilSaturation problem globalDofIdx in
          let rvMax := maxOilVaporizationFactor problem 0%nat globalDofIdx in
          let rvSat := rvSat_ T pg soMax pv in
          let rv := at_ pv (compositionSwitchIdx I) in
          if Qgtb rv (std_min rvMax (rvSat * (1 + eps))) then
            (* the oil phase appears: Rv -> Sg and Pg -> Po *)
            let sg2 := 1 - sw - solventSaturation_ pv in
            let matParams := materialLawParams problem globalDofIdx in
            let pC := computeCapillaryPressures_ 0 (sg2 + solventSaturation_ pv) sw matParams in
            let po := pg + (pC oilPhaseIdx - pC gasPhaseIdx) in
            (true,
             assign (compositionSwitchIdx I) sg2
               (assign (pressureSwitchIdx I) po
                  (setPrimaryVarsMeaningPressure PressureMeaning.Po
                     (setPrimaryVarsMeaningGas GasMeaning.Sg pv))))
          else (changed0, pv)
      | GasMeaning.Disabled => (changed0, pv)
      end.

    (** *** [adaptPrimaryVariables] (lines 1063-1381)

        [static_] is the function-local
        [static const Scalar thresholdWaterFilledCell = 1.0 - eps]: [None]
        before the first call of the program run, [Some] of the value it was
        initialised with afterwards.  The result is the state of the static,
        the returned [bool] and the primary variables after the call. *)
Definition thresholdWaterFilledCell (static_ : option Scalar) (eps : Scalar) : Scalar :=
      match static_ with
      | Some threshold => threshold
      | None => 1 - eps
      end.

(** The body of the function for a given value of the static threshold. *)
Definition adaptPrimaryVariablesBody_ (threshold : Scalar)
        (problem : Problem) (globalDofIdx : nat) (eps : Scalar) (pv : t) : bool * t :=
      if WaterMeaning.eqb (primaryVarsMeaningWater pv) WaterMeaning.Disabled
         && GasMeaning.eqb (primaryVarsMeaningGas pv) GasMeaning.Disabled
      then (false, pv)
      else
        (* read the current saturation from the primary variables *)
        let sw := read_sw pv in
        let sg := read_sg pv in
        let T := temperature_ pv in
        let '(pv1, saltConcentration) := adaptBrine_ eps pv in
        (* special case cells with almost only water *)
        if Qgeb sw threshold && negb (enableDissolvedGasInWater FS) then
          waterFilledCell_ pv1
        else
          let '(changed, pv2) :=
            adaptWater_ problem globalDofIdx eps sw sg saltConcentration T pv1 in
          adaptGas_ problem globalDofIdx eps sw sg T changed pv2.

Definition adaptPrimaryVariables (static_ : option Scalar)
        (problem : Problem) (globalDofIdx : nat) (eps : Scalar) (pv : t)
      : option Scalar * (bool * t) :=
      let threshold := thresholdWaterFilledCell static_ eps in
      (Some threshold, adaptPrimaryVariablesBody_ threshold problem globalDofIdx eps pv).

(** A program run: the calls of [adaptPrimaryVariables] in the order of
        their execution, each with its arguments and receiver. *)
Record Call : Type := {
      call_problem : Problem;
      call_globalDofIdx : nat;
      call_eps : Scalar;
      call_this : t
    }.

Fixpoint run (static_ : option Scalar) (calls : list Call) : list (bool * t) :=
      match calls with
      | [] => []
      | c :: calls' =>
          let '(static', r) :=
            adaptPrimaryVariables static_ (call_problem c) (call_globalDofIdx c)
              (call_eps c) (call_this c) in
          r :: run static' calls'
      end.

    (** *** [chopAndNormalizeSaturations] (lines 1383-1417) *)
Definition chop (x : Scalar) : Scalar := std_min (std_max x 0) 1.

Definition chopAndNormalizeSaturations (pv : t) : bool * t :=
      if WaterMeaning.eqb (primaryVarsMeaningWater pv) WaterMeaning.Disabled
         && GasMeaning.eqb (primaryVarsMeaningGas pv) GasMeaning.Disabled
      then (false, pv)
      else
        let isSw := WaterMeaning.eqb (primaryVarsMeaningWater pv) WaterMeaning.Sw in
        let isSg := GasMeaning.eqb (primaryVarsMeaningGas pv) GasMeaning.Sg in
        let sw := if isSw then at_ pv (waterSwitchIdx I) else 0 in
        let sg := if isSg then at_ pv (compositionSwitchIdx I) else 0 in
        let ssol := if enableSolvent P then at_ pv (solventSaturationIdx I) else 0 in
        let so := 1 - sw - sg - ssol in
        let sw := chop sw in
        let so := chop so in
        let sg := chop sg in
        let ssol := chop ssol in
        let st := sw + so + sg + ssol in
        let sw := sw / st in
        let sg := sg / st in
        let ssol := ssol / st in
        let pv1 := if isSw then assign (waterSwitchIdx I) sw pv else pv in
        let pv2 := if isSg then assign (compositionSwitchIdx I) sg pv1 else pv1 in
        let pv3 := if enableSolvent P then assign (solventSaturationIdx I) ssol pv2 else pv2 in
        (negb (Qeq_bool st 1), pv3).

(** The four saturations [(sw, so, sg, ssol)] as
        [chopAndNormalizeSaturations] reads them (lines 1388-1399): a slot
        counts as a saturation under its saturation meaning only, and the
        oil saturation is the remainder. *)
Definition readSaturations_ (pv : t) : Scalar * Scalar * Scalar * Scalar :=
      let sw := if WaterMeaning.eqb (primaryVarsMeaningWater pv) WaterMeaning.Sw
                then at_ pv (waterSwitchIdx I) else 0 in
      let sg := if GasMeaning.eqb (primaryVarsMeaningGas pv) GasMeaning.Sg
                then at_ pv (compositionSwitchIdx I) else 0 in
      let ssol := if enableSolvent P then at_ pv (solventSaturationIdx I) else 0 in
      let so := 1 - sw - sg - ssol in
      (sw, so, sg, ssol).

End WithConfiguration.

End BlackOilPrimaryVariables.

(** ** Evaluations

    [Evaluation] is the dual number type of the automatic differentiation:
    a value and its partial derivatives with respect to the primary
    variables of the focus cell.  The operators are those of forward-mode
    differentiation; comparing an [Evaluation] with a number compares the
    value. *)

Record Evaluation : Type := mkEval {
  value : Scalar;
  derivative : nat -> Scalar
}.

Module Eval.

  (** An [Evaluation] assigned from a scalar: no derivatives. *)
Definition const (c : Scalar) : Evaluation := mkEval c (fun _ => 0).

Definition add (a b : Evaluation) : Evaluation :=
    mkEval (value a + value b) (fun i => derivative a i + derivative b i).

Definition mul (a b : Evaluation) : Evaluation :=
    mkEval (value a * value b)
           (fun i => derivative a i * value b + value a * derivative b i).

  (** [Evaluation * Scalar] *)
Definition muls (a : Evaluation) (c : Scalar) : Evaluation :=
    mkEval (value a * c) (fun i => derivative a i * c).

  (** [Scalar * Evaluation] *)
Definition smul (c : Scalar) (a : Evaluation) : Evaluation :=
    mkEval (c * value a) (fun i => c * derivative a i).

Definition opp (a : Evaluation) : Evaluation :=
    mkEval (- value a) (fun i => - derivative a i).

  (** [a == c], [a < b], [a > b] *)
Definition eqs (a : Evaluation) (c : Scalar) : bool := Qeq_bool (value a) c.
Definition ltb (a b : Evaluation) : bool := Qltb (value a) (value b).
Definition gtb (a b : Evaluation) : bool := Qltb (value b) (value a).

  (** Equality of evaluations in exact arithmetic. *)
Definition equiv (a b : Evaluation) : Prop :=
    value a == value b /\ forall i, derivative a i == derivative b i.

End Eval.

#[global] Instance Evaluation_inhabited : Inhabited Evaluation := populate (Eval.const 0).

(** The numeric types a left-hand side may have ([template <class LhsEval>]):
    [Scalar] or [Evaluation]. *)
Class LhsEval (L : Type) : Type := {
  lhs_zero : L;
  lhs_add : L -> L -> L;
  lhs_mul : L -> L -> L;
  lhs_scale : L -> Scalar -> L;          (* [x *= c] for a scalar [c] *)
  lhs_decay : Evaluation -> L;           (* [Toolbox::template decay<LhsEval>] *)
  lhs_equiv : L -> L -> Prop
}.

#[global] Instance LhsEval_Scalar : LhsEval Scalar := {
  lhs_zero := 0;
  lhs_add := Qplus;
  lhs_mul := Qmult;
  lhs_scale := Qmult;
  lhs_decay := value;
  lhs_equiv := Qeq
}.

#[global] Instance LhsEval_Evaluation : LhsEval Evaluation := {
  lhs_zero := Eval.const 0;
  lhs_add := Eval.add;
  lhs_mul := Eval.mul;
  lhs_scale := Eval.muls;
  lhs_decay := fun e => e;
  lhs_equiv := Eval.equiv
}.

(** The type in which the quantities of the upwind side enter a flux
    ([template <class UpEval>]): [Evaluation] keeps the derivatives,
    [Scalar] is the value only. *)
Class UpEval (U : Type) : Type := {
  up_mul : U -> Evaluation -> Evaluation  (* [U * Evaluation] *)
}.

#[global] Instance UpEval_Scalar : UpEval Scalar := { up_mul := Eval.smul }.
#[global] Instance UpEval_Evaluation : UpEval Evaluation := { up_mul := Eval.mul }.

(** [decay<U>] of a quantity stored as [A]. *)
Class Decay (A U : Type) : Type := { decay : A -> U }.

#[global] Instance Decay_Evaluation_Evaluation : Decay Evaluation Evaluation :=
  { decay := fun e => e }.
#[global] Instance Decay_Evaluation_Scalar : Decay Evaluation Scalar :=
  { decay := value }.
#[global] Instance Decay_Scalar_Scalar : Decay Scalar Scalar :=
  { decay := fun x => x }.

(** ** Vectors of equations *)

Module EqVector.

Section Ops.
Context {L : Type} `{Inhabited L}.

    (** [v[i]] *)
Definition get (v : list L) (i : nat) : L := v !!! i.

    (** [v[i] = x] *)
Definition set (i : nat) (x : L) (v : list L) : list L := <[i := x]> v.

    (** [v[i] += x], with the addition [add] of the entries *)
Definition add_at (add : L -> L -> L) (i : nat) (x : L) (v : list L) : list L :=
      alter (fun y => add y x) i v.

    (** [v[i] *= c] *)
Definition scale_at (scale : L -> Scalar -> L) (i : nat) (c : Scalar)
        (v : list L) : list L :=
      alter (fun y => scale y c) i v.
End Ops.

  (** [for (i = 0; i < b.size(); ++i) a[i] += b[i]] *)
Fixpoint add_all {L : Type} (add : L -> L -> L) (a b : list L) : list L :=
    match a, b with
    | x :: a', y :: b' => add x y :: add_all add a' b'
    | _, _ => a
    end.

End EqVector.

(** ** Fluid states and intensive quantities *)

(** The part of [BlackOilFluidState] the residual reads; [A] is the type of
    the stored quantities ([Evaluation] for the cells, [Scalar] for the
    state prescribed on a boundary). *)
Record FluidState (A : Type) : Type := {
  saturation : Phase -> A;
  pressure : Phase -> A;
  invB : Phase -> A;
  Rs : A;
  Rv : A;
  Rsw : A;
  Rvw : A
}.

Arguments saturation {A} _ _.
Arguments pressure {A} _ _.
Arguments invB {A} _ _.
Arguments Rs {A} _.
Arguments Rv {A} _.
Arguments Rsw {A} _.
Arguments Rvw {A} _.

(** [FaceDir::DirEnum] *)
Inductive DirEnum : Type :=
| Unknown | XPlus | XMinus | YPlus | YMinus | ZPlus | ZMinus.

Record IntensiveQuantities : Type := {
  fluidState : FluidState Evaluation;
  porosity : Evaluation;
  pvtRegionIndex : nat;
  mobility : Phase -> DirEnum -> Evaluation;
  rockCompTransMultiplier : Evaluation
}.

(** [getInvB_<FluidSystem, FluidState, LhsEval>] and
    [BlackOil::getRs_<FluidSystem, FluidState, LhsEval>] (and [getRsw_],
    [getRv_], [getRvw_]) for a fluid state that stores the quantity: the
    stored quantity, decayed to [LhsEval]. *)
Definition getInvB_ {A U : Type} `{Decay A U} (fs : FluidState A) (phaseIdx : Phase)
    (pvtRegionIdx : nat) : U := decay (invB fs phaseIdx).
Definition getRs_ {A U : Type} `{Decay A U} (fs : FluidState A) (pvtRegionIdx : nat) : U :=
  decay (Rs fs).
Definition getRsw_ {A U : Type} `{Decay A U} (fs : FluidState A) (pvtRegionIdx : nat) : U :=
  decay (Rsw fs).
Definition getRv_ {A U : Type} `{Decay A U} (fs : FluidState A) (pvtRegionIdx : nat) : U :=
  decay (Rv fs).
Definition getRvw_ {A U : Type} `{Decay A U} (fs : FluidState A) (pvtRegionIdx : nat) : U :=
  decay (Rvw fs).

(** ** Boundary conditions *)

(** [BCType]: the enumerators the residual names, and any other one by its
    integer value. *)
Inductive BCType : Type :=
| RATE | FREE | DIRICHLET | OtherBCType (code : Z).

Definition RateVector : Type := list Evaluation.

Record BoundaryConditionData : Type := {
  bc_type : BCType;
  massRate : RateVector;
  bc_pvtRegionIdx : nat;
  boundaryFaceIndex : nat;
  bc_faceArea : Scalar;
  faceZCoord : Scalar;
  exFluidState : FluidState Scalar
}.

(** The result of a function that may [throw std::logic_error]. *)
Inductive Outcome (A : Type) : Type :=
| Returns (a : A)
| Throws_logic_error.

Arguments Returns {A} _.
Arguments Throws_logic_error {A}.

(** Modelled from the spec: [BlackOilRateVector::setMassRate], which is not
    part of the sources at hand.  In [RATE] mode "the flux is directly the
    prescribed mass rate". *)
Definition setMassRate (massRate : RateVector) (pvtRegionIdx : nat) : RateVector :=
  massRate.

(** ** The local residual *)

Module BlackOilLocalResidualTPFA.

  (** The problem, as far as [computeFlux] asks it. *)
Record Problem : Type := {
    dofTotalVolume : nat -> Scalar;         (* problem.model().dofTotalVolume(i) *)
    thresholdPressure : nat -> nat -> Scalar;
    gravity : Scalar;                       (* problem.gravity()[dimWorld - 1] *)
    dofCenterDepth : nat -> Scalar
  }.

  (** The [addStorage] functions of the optional modules, in the order of
      the calls. *)
Record StorageModules (L : Type) : Type := {
    SolventModule_addStorage : list L -> IntensiveQuantities -> list L;
    ExtboModule_addStorage : list L -> IntensiveQuantities -> list L;
    PolymerModule_addStorage : list L -> IntensiveQuantities -> list L;
    EnergyModule_addStorage : list L -> IntensiveQuantities -> list L;
    FoamModule_addStorage : list L -> IntensiveQuantities -> list L;
    BrineModule_addStorage : list L -> IntensiveQuantities -> list L;
    MICPModule_addStorage : list L -> IntensiveQuantities -> list L
  }.

Arguments SolventModule_addStorage {L} _ _ _.
Arguments ExtboModule_addStorage {L} _ _ _.
Arguments PolymerModule_addStorage {L} _ _ _.
Arguments EnergyModule_addStorage {L} _ _ _.
Arguments FoamModule_addStorage {L} _ _ _.
Arguments BrineModule_addStorage {L} _ _ _.
Arguments MICPModule_addStorage {L} _ _ _.

  (** The results of [ExtensiveQuantities::calculatePhasePressureDiff_]. *)
Record PhasePressureDiff : Type := {
    upIdx : Z;
    dnIdx : Z;
    pressureDifference : Evaluation
  }.

  (** The results of [ExtensiveQuantities::calculateBoundaryGradients_]
      that the residual reads: the volume flux of each phase. *)
Record BoundaryGradients : Type := {
    volumeFlux : Phase -> Evaluation
  }.

Section WithConfiguration.

Variable I : Indices.
Variable P : Properties.
Variable FS : FluidSystem.

    (** The equation of a component. *)
Definition eqIdx (compIdx : Component) : nat :=
      (conti0EqIdx I + canonicalToActiveComponentIndex I compIdx)%nat.

    (** *** [adaptMassConservationQuantities_] (lines 692-719) *)
Definition adaptMassConservationQuantities_ {L : Type} `{LhsEval L}
        (container : list L) (pvtRegionIdx : nat) : list L :=
      if blackoilConserveSurfaceVolume P then container
      else
        let container :=
          if waterEnabled I
          then EqVector.scale_at lhs_scale (eqIdx waterCompIdx)
                 (referenceDensity FS waterPhaseIdx pvtRegionIdx) container
          else container in
        let container :=
          if gasEnabled I
          then EqVector.scale_at lhs_scale (eqIdx gasCompIdx)
                 (referenceDensity FS gasPhaseIdx pvtRegionIdx) container
          else container in
        if oilEnabled I
        then EqVector.scale_at lhs_scale (eqIdx oilCompIdx)
               (referenceDensity FS oilPhaseIdx pvtRegionIdx) container
        else container.

    (** *** [computeStorage] (lines 124-199) *)

    (** The body of the loop over the phases. *)
Definition storagePhase_ {L : Type} `{LhsEval L} (intQuants : IntensiveQuantities)
        (storage : list L) (phaseIdx : Phase) : list L :=
      if negb (phaseIsActive FS phaseIdx) then storage
      else
        let fs := fluidState intQuants in
        let surfaceVolume :=
          lhs_mul (lhs_mul (lhs_decay (saturation fs phaseIdx))
                           (lhs_decay (invB fs phaseIdx)))
                  (lhs_decay (porosity intQuants)) in
        let storage :=
          EqVector.add_at lhs_add (eqIdx (solventComponentIndex phaseIdx))
            surfaceVolume storage in
        (* account for dissolved gas *)
        let storage :=
          if Phase_eqb phaseIdx oilPhaseIdx && enableDissolvedGas FS
          then EqVector.add_at lhs_add (eqIdx gasCompIdx)
                 (lhs_mul (lhs_decay (Rs fs)) surfaceVolume) storage
          else storage in
        (* account for dissolved gas in water *)
        let storage :=
          if Phase_eqb phaseIdx waterPhaseIdx && enableDissolvedGasInWater FS
          then EqVector.add_at lhs_add (eqIdx gasCompIdx)
                 (lhs_mul (lhs_decay (Rsw fs)) surfaceVolume) storage
          else storage in
        (* account for vaporized oil *)
        let storage :=
          if Phase_eqb phaseIdx gasPhaseIdx && enableVaporizedOil FS
          then EqVector.add_at lhs_add (eqIdx oilCompIdx)
                 (lhs_mul (lhs_decay (Rv fs)) surfaceVolume) storage
          else storage in
        (* account for vaporized water *)
        if Phase_eqb phaseIdx gasPhaseIdx && enableVaporizedWater FS
        then EqVector.add_at lhs_add (eqIdx waterCompIdx)
               (lhs_mul (lhs_decay (Rvw fs)) surfaceVolume) storage
        else storage.

    (** The storage of the three pseudo-components, up to and including
        the conversion to the conserved quantity. *)
Definition computeStorageComponents_ {L : Type} `{LhsEval L}
        (intQuants : IntensiveQuantities) : list L :=
      let storage := replicate (numEq I) lhs_zero in
      let storage := foldl (storagePhase_ intQuants) storage allPhases in
      adaptMassConservationQuantities_ storage (pvtRegionIndex intQuants).

Definition computeStorage {L : Type} `{LhsEval L} (modules : StorageModules L)
        (intQuants : IntensiveQuantities) : list L :=
      let storage := computeStorageComponents_ intQuants in
      (* deal with solvents (if present) *)
      let storage := SolventModule_addStorage modules storage intQuants in
      (* deal with zFracton (if present) *)
      let storage := ExtboModule_addStorage modules storage intQuants in
      (* deal with polymer (if present) *)
      let storage := PolymerModule_addStorage modules storage intQuants in
      (* deal with energy (if present) *)
      let storage := EnergyModule_addStorage modules storage intQuants in
      (* deal with foam (if present) *)
      let storage := FoamModule_addStorage modules storage intQuants in
      (* deal with salt (if present) *)
      let storage := BrineModule_addStorage modules storage intQuants in
      (* deal with micp (if present) *)
      MICPModule_addStorage modules storage intQuants.

    (** *** [evalPhaseFluxes_] (lines 620-679) *)
Definition evalPhaseFluxes_ {U A : Type} `{UpEval U} `{Decay A U}
        (flux : RateVector) (phaseIdx : Phase) (pvtRegionIdx : nat)
        (surfaceVolumeFlux : Evaluation) (upFs : FluidState A) : RateVector :=
      let conserved (x : Evaluation) (densityPhase : Phase) : Evaluation :=
        if blackoilConserveSurfaceVolume P then x
        else Eval.muls x (referenceDensity FS densityPhase pvtRegionIdx) in
      let flux :=
        EqVector.add_at Eval.add (eqIdx (solventComponentIndex phaseIdx))
          (conserved surfaceVolumeFlux phaseIdx) flux in
      match phaseIdx with
      | oilPhaseIdx =>
          (* dissolved gas (in the oil phase) *)
          if enableDissolvedGas FS then
            let Rs : U := getRs_ upFs pvtRegionIdx in
            EqVector.add_at Eval.add (eqIdx gasCompIdx)
              (conserved (up_mul Rs surfaceVolumeFlux) gasPhaseIdx) flux
          else flux
      | waterPhaseIdx =>
          (* dissolved gas (in the water phase) *)
          if enableDissolvedGasInWater FS then
            let Rsw : U := getRsw_ upFs pvtRegionIdx in
            EqVector.add_at Eval.add (eqIdx gasCompIdx)
              (conserved (up_mul Rsw surfaceVolumeFlux) gasPhaseIdx) flux
          else flux
      | gasPhaseIdx =>
          (* vaporized oil (in the gas phase) *)
          let flux :=
            if enableVaporizedOil FS then
              let Rv : U := getRv_ upFs pvtRegionIdx in
              EqVector.add_at Eval.add (eqIdx oilCompIdx)
                (conserved (up_mul Rv surfaceVolumeFlux) oilPhaseIdx) flux
            else flux in
          (* vaporized water (in the gas phase) *)
          if enableVaporizedWater FS then
            let Rvw : U := getRvw_ upFs pvtRegionIdx in
            EqVector.add_at Eval.add (eqIdx waterCompIdx)
              (conserved (up_mul Rvw surfaceVolumeFlux) waterPhaseIdx) flux
          else flux
      end.

    (** *** [calculateFluxes_] (lines 328-435) *)

Variable calculatePhasePressureDiff_ :
      IntensiveQuantities -> IntensiveQuantities -> Phase ->
      Z -> Z ->              (* interiorDofIdx, exteriorDofIdx *)
      Scalar -> Scalar ->    (* Vin, Vex *)
      nat -> nat ->          (* globalIndexIn, globalIndexEx *)
      Scalar -> Scalar ->    (* distZg, thpres *)
      PhasePressureDiff.

Definition interiorDofIdx : Z := 0.
Definition exteriorDofIdx : Z := 1.

    (** The Darcy flux of a phase (lines 371-383). *)
Definition darcyFlux_ (pressureDifference : Evaluation)
        (up : IntensiveQuantities) (globalUpIndex globalIndexIn : nat)
        (phaseIdx : Phase) (trans faceArea : Scalar) (facedir : DirEnum) : Evaluation :=
      let transMult := rockCompTransMultiplier up in
      if Eval.eqs pressureDifference 0 then
        Eval.const 0
      else if Nat.eqb globalUpIndex globalIndexIn then
        Eval.muls
          (Eval.mul (Eval.mul pressureDifference (mobility up phaseIdx facedir)) transMult)
          (- trans / faceArea)
      else
        Eval.muls pressureDifference
          (value (mobility up phaseIdx facedir) * value transMult * (- trans / faceArea)).

    (** The body of the loop over the phases (lines 343-401). *)
Definition fluxPhase_
        (intQuantsIn intQuantsEx : IntensiveQuantities)
        (Vin Vex : Scalar) (globalIndexIn globalIndexEx : nat)
        (distZg thpres trans faceArea : Scalar) (facedir : DirEnum)
        (acc : RateVector * RateVector) (phaseIdx : Phase) : RateVector * RateVector :=
      let '(flux, darcy) := acc in
      if negb (phaseIsActive FS phaseIdx) then (flux, darcy)
      else
        let r := calculatePhasePressureDiff_ intQuantsIn intQuantsEx phaseIdx
                   interiorDofIdx exteriorDofIdx Vin Vex
                   globalIndexIn globalIndexEx distZg thpres in
        let up := if Z.eqb (upIdx r) interiorDofIdx then intQuantsIn else intQuantsEx in
        let globalUpIndex :=
          if Z.eqb (upIdx r) interiorDofIdx then globalIndexIn else globalIndexEx in
        let darcyFlux :=
          darcyFlux_ (pressureDifference r) up globalUpIndex globalIndexIn
            phaseIdx trans faceArea facedir in
        let darcy :=
          EqVector.set (eqIdx (solventComponentIndex phaseIdx))
            (Eval.const (value darcyFlux * faceArea)) darcy in
        let pvtRegionIdx := pvtRegionIndex up in
        if Nat.eqb globalUpIndex globalIndexIn then
          let invB : Evaluation := getInvB_ (fluidState up) phaseIdx pvtRegionIdx in
          let surfaceVolumeFlux := Eval.mul invB darcyFlux in
          (evalPhaseFluxes_ (U := Evaluation) flux phaseIdx pvtRegionIdx
             surfaceVolumeFlux (fluidState up), darcy)
        else
          let invB : Scalar := getInvB_ (fluidState up) phaseIdx pvtRegionIdx in
          let surfaceVolumeFlux := Eval.smul invB darcyFlux in
          (evalPhaseFluxes_ (U := Scalar) flux phaseIdx pvtRegionIdx
             surfaceVolumeFlux (fluidState up), darcy).

(** The local [darcyFlux] of the loop body, as a function of the
        arguments of [calculateFluxes_]. *)
Definition phaseDarcyFlux_
        (intQuantsIn intQuantsEx : IntensiveQuantities)
        (Vin Vex : Scalar) (globalIndexIn globalIndexEx : nat)
        (distZg thpres trans faceArea : Scalar) (facedir : DirEnum)
        (phaseIdx : Phase) : Evaluation :=
      let r := calculatePhasePressureDiff_ intQuantsIn intQuantsEx phaseIdx
                 interiorDofIdx exteriorDofIdx Vin Vex
                 globalIndexIn globalIndexEx distZg thpres in
      let up := if Z.eqb (upIdx r) interiorDofIdx then intQuantsIn else intQuantsEx in
      let globalUpIndex :=
        if Z.eqb (upIdx r) interiorDofIdx then globalIndexIn else globalIndexEx in
      darcyFlux_ (pressureDifference r) up globalUpIndex globalIndexIn
        phaseIdx trans faceArea facedir.

Definition calculateFluxes_ (flux darcy : RateVector)
        (intQuantsIn intQuantsEx : IntensiveQuantities)
        (Vin Vex : Scalar) (globalIndexIn globalIndexEx : nat)
        (distZg thpres trans faceArea : Scalar) (facedir : DirEnum)
      : RateVector * RateVector :=
      foldl (fluxPhase_ intQuantsIn intQuantsEx Vin Vex globalIndexIn globalIndexEx
               distZg thpres trans faceArea facedir)
            (flux, darcy) allPhases.

    (** *** [computeFlux] (lines 206-255): the pair [(flux, darcy)] *)
Definition computeFlux (problem : Problem)
        (globalIndexIn globalIndexEx : nat)
        (intQuantsIn intQuantsEx : IntensiveQuantities)
        (trans faceArea : Scalar) (facedir : DirEnum) : RateVector * RateVector :=
      let flux := replicate (numEq I) (Eval.const 0) in
      let darcy := replicate (numEq I) (Eval.const 0) in
      let Vin := dofTotalVolume problem globalIndexIn in
      let Vex := dofTotalVolume problem globalIndexEx in
      let thpres := thresholdPressure problem globalIndexIn globalIndexEx in
      let g := gravity problem in
      let zIn := dofCenterDepth problem globalIndexIn in
      let zEx := dofCenterDepth problem globalIndexEx in
      let distZ := zIn - zEx in
      calculateFluxes_ flux darcy intQuantsIn intQuantsEx Vin Vex
        globalIndexIn globalIndexEx (distZ * g) thpres trans faceArea facedir.

    (** *** [computeBoundaryFlux] (lines 437-544) *)

Variable calculateBoundaryGradients_ :
      Problem -> nat -> IntensiveQuantities ->
      nat -> Scalar -> Scalar ->     (* boundaryFaceIndex, faceArea, faceZCoord *)
      FluidState Scalar ->
      BoundaryGradients.

Definition computeBoundaryFluxRate (bdyInfo : BoundaryConditionData) : RateVector :=
      setMassRate (massRate bdyInfo) (bc_pvtRegionIdx bdyInfo).

    (** The vector [tmp] of a phase (lines 492-518); a default-constructed
        [RateVector] holds zeros. *)
Definition boundaryPhaseFlux_ (bdyInfo : BoundaryConditionData)
        (insideIntQuants : IntensiveQuantities) (volumeFlux : Phase -> Evaluation)
        (phaseIdx : Phase) : RateVector :=
      let pBoundary := pressure (exFluidState bdyInfo) phaseIdx in
      let pInside := pressure (fluidState insideIntQuants) phaseIdx in
      let pvtRegionIdx := pvtRegionIndex insideIntQuants in
      let tmp := replicate (numEq I) (Eval.const 0) in
      if Qltb pBoundary (value pInside) then
        (* outflux *)
        let invB : Evaluation := getInvB_ (fluidState insideIntQuants) phaseIdx pvtRegionIdx in
        let surfaceVolumeFlux := Eval.mul invB (volumeFlux phaseIdx) in
        evalPhaseFluxes_ (U := Evaluation) tmp phaseIdx (pvtRegionIndex insideIntQuants)
          surfaceVolumeFlux (fluidState insideIntQuants)
      else if Qgtb pBoundary (value pInside) then
        (* influx *)
        let invB : Scalar := getInvB_ (exFluidState bdyInfo) phaseIdx pvtRegionIdx in
        let surfaceVolumeFlux := Eval.smul invB (volumeFlux phaseIdx) in
        evalPhaseFluxes_ (U := Scalar) tmp phaseIdx (pvtRegionIndex insideIntQuants)
          surfaceVolumeFlux (exFluidState bdyInfo)
      else tmp.

Definition computeBoundaryFluxFree (problem : Problem)
        (bdyInfo : BoundaryConditionData) (insideIntQuants : IntensiveQuantities)
        (globalSpaceIdx : nat) : RateVector :=
      let grad := calculateBoundaryGradients_ problem globalSpaceIdx insideIntQuants
                    (boundaryFaceIndex bdyInfo) (bc_faceArea bdyInfo)
                    (faceZCoord bdyInfo) (exFluidState bdyInfo) in
      let bdyFlux := replicate (numEq I) (Eval.const 0) in
      let bdyFlux :=
        foldl (fun bdyFlux phaseIdx =>
                 if negb (phaseIsActive FS phaseIdx) then bdyFlux
                 else EqVector.add_all Eval.add bdyFlux
                        (boundaryPhaseFlux_ bdyInfo insideIntQuants (volumeFlux grad) phaseIdx))
              bdyFlux allPhases in
      (* make sure that the right mass conservation quantities are used *)
      adaptMassConservationQuantities_ bdyFlux (pvtRegionIndex insideIntQuants).

Definition computeBoundaryFlux (problem : Problem)
        (bdyInfo : BoundaryConditionData) (insideIntQuants : IntensiveQuantities)
        (globalSpaceIdx : nat) : Outcome RateVector :=
      match bc_type bdyInfo with
      | RATE => Returns (computeBoundaryFluxRate bdyInfo)
      | FREE | DIRICHLET =>
          Returns (computeBoundaryFluxFree problem bdyInfo insideIntQuants globalSpaceIdx)
      | OtherBCType _ => Throws_logic_error
      end.

End WithConfiguration.

End BlackOilLocalResidualTPFA.

(** ** Notions used in the statements *)

Section StatementNotions.

Import BlackOilLocalResidualTPFA.

Variable I : Indices.
Variable P : Properties.
Variable FS : FluidSystem.

(** A slot of the primary variables is usable when its index lies in the
    vector. *)
Definition validIdx (pv : BlackOilPrimaryVariables.t) (i : Z) : Prop := FieldVector.valid (BlackOilPrimaryVariables.values pv) i.

(** The slots that [chopAndNormalizeSaturations] reads and writes lie in
    the vector and do not overlap. *)
Definition saturationSlotsOk (pv : BlackOilPrimaryVariables.t) : Prop :=
  (BlackOilPrimaryVariables.primaryVarsMeaningWater pv = WaterMeaning.Sw -> validIdx pv (waterSwitchIdx I))
  /\ (BlackOilPrimaryVariables.primaryVarsMeaningGas pv = GasMeaning.Sg -> validIdx pv (compositionSwitchIdx I))
  /\ (enableSolvent P = true -> validIdx pv (solventSaturationIdx I))
  /\ waterSwitchIdx I <> compositionSwitchIdx I
  /\ waterSwitchIdx I <> solventSaturationIdx I
  /\ compositionSwitchIdx I <> solventSaturationIdx I.

(** The factor of the conserved quantity: [1] for surface volumes, the
    reference density of the phase for masses. *)
Definition conservedFactor (phaseIdx : Phase) (pvtRegionIdx : nat) : Scalar :=
  if blackoilConserveSurfaceVolume P then 1
  else referenceDensity FS phaseIdx pvtRegionIdx.

(** What a unit of surface volume flux of a phase adds to the value of
    equation [i], for the values [rs], [rsw], [rv], [rvw] of the upwind
    dissolution factors. *)
Definition fluxCoefficient (phaseIdx : Phase) (pvtRegionIdx : nat)
    (rs rsw rv rvw : Scalar) (i : nat) : Scalar :=
  (if Nat.eqb i (eqIdx I (solventComponentIndex phaseIdx))
   then conservedFactor phaseIdx pvtRegionIdx else 0)
  + match phaseIdx with
    | oilPhaseIdx =>
        if enableDissolvedGas FS && Nat.eqb i (eqIdx I gasCompIdx)
        then rs * conservedFactor gasPhaseIdx pvtRegionIdx else 0
    | waterPhaseIdx =>
        if enableDissolvedGasInWater FS && Nat.eqb i (eqIdx I gasCompIdx)
        then rsw * conservedFactor gasPhaseIdx pvtRegionIdx else 0
    | gasPhaseIdx =>
        (if enableVaporizedOil FS && Nat.eqb i (eqIdx I oilCompIdx)
         then rv * conservedFactor oilPhaseIdx pvtRegionIdx else 0)
        + (if enableVaporizedWater FS && Nat.eqb i (eqIdx I waterCompIdx)
           then rvw * conservedFactor waterPhaseIdx pvtRegionIdx else 0)
    end.

(** The upwind cell of a phase. *)
Definition upwind_ (iqIn iqEx : IntensiveQuantities) (r : PhasePressureDiff)
  : IntensiveQuantities :=
  if Z.eqb (upIdx r) interiorDofIdx then iqIn else iqEx.

(** What a unit of pressure difference of a phase adds to the value of
    equation [i], given the upwind cell. *)
Definition upwindCoefficient (up : IntensiveQuantities) (ph : Phase)
    (trans faceArea : Scalar) (facedir : DirEnum) (i : nat) : Scalar :=
  value (invB (fluidState up) ph)
  * (value (mobility up ph facedir) * value (rockCompTransMultiplier up)
     * (- trans / faceArea))
  * fluxCoefficient ph (pvtRegionIndex up)
      (value (Rs (fluidState up))) (value (Rsw (fluidState up)))
      (value (Rv (fluidState up))) (value (Rvw (fluidState up))) i.

(** Two vectors of the same size whose values are the negatives of each
    other. *)
Definition negated (v w : RateVector) : Prop :=
  length v = length w
  /\ forall i, value (EqVector.get v i) == - value (EqVector.get w i).

(** A vector whose entries all are zero, derivatives included. *)
Definition allZero (v : RateVector) : Prop :=
  Forall (fun e => Eval.equiv e (Eval.const 0)) v.

Section WithExtensiveQuantities.

Variable calculatePhasePressureDiff_ :
  IntensiveQuantities -> IntensiveQuantities -> Phase -> Z -> Z ->
  Scalar -> Scalar -> nat -> nat -> Scalar -> Scalar -> PhasePressureDiff.

(** The contract of the extensive quantities at a face between the cells
    A and B, for one phase: seen from B the pressure difference has the
    negated value, and while it is not zero the same cell is the upwind
    one. *)
Definition antisymmetricAt (iqA iqB : IntensiveQuantities) (VA VB : Scalar)
    (gA gB : nat) (distZgAB thpresAB distZgBA thpresBA : Scalar) (ph : Phase) : Prop :=
  let rAB := calculatePhasePressureDiff_ iqA iqB ph interiorDofIdx exteriorDofIdx
               VA VB gA gB distZgAB thpresAB in
  let rBA := calculatePhasePressureDiff_ iqB iqA ph interiorDofIdx exteriorDofIdx
               VB VA gB gA distZgBA thpresBA in
  value (pressureDifference rBA) == - value (pressureDifference rAB)
  /\ (~ value (pressureDifference rAB) == 0 ->
      (upIdx rAB = interiorDofIdx <-> upIdx rBA <> interiorDofIdx)).

End WithExtensiveQuantities.

(** The equations that [computeStorage] writes for the given switches:
    the equation of a component is written by its own phase, by a phase
    that carries the component dissolved or vaporized, and by the conversion
    to masses. *)
Definition storageWritten (c : Component) : bool :=
  match c with
  | waterCompIdx =>
      phaseIsActive FS waterPhaseIdx
      || (phaseIsActive FS gasPhaseIdx && enableVaporizedWater FS)
      || (negb (blackoilConserveSurfaceVolume P) && waterEnabled I)
  | gasCompIdx =>
      phaseIsActive FS gasPhaseIdx
      || (phaseIsActive FS oilPhaseIdx && enableDissolvedGas FS)
      || (phaseIsActive FS waterPhaseIdx && enableDissolvedGasInWater FS)
      || (negb (blackoilConserveSurfaceVolume P) && gasEnabled I)
  | oilCompIdx =>
      phaseIsActive FS oilPhaseIdx
      || (phaseIsActive FS gasPhaseIdx && enableVaporizedOil FS)
      || (negb (blackoilConserveSurfaceVolume P) && oilEnabled I)
  end.

(** The written equations lie in the vector and belong to one component
    each. *)
Definition equationsOk : Prop :=
  (forall c, storageWritten c = true -> (eqIdx I c < numEq I)%nat)
  /\ (forall c c', storageWritten c = true -> storageWritten c' = true ->
                   eqIdx I c = eqIdx I c' -> c = c').

(** The conversion of the equation of [c] to the conserved quantity. *)
Definition componentEnabled (c : Component) : bool :=
  match c with
  | waterCompIdx => waterEnabled I
  | gasCompIdx => gasEnabled I
  | oilCompIdx => oilEnabled I
  end.

Definition componentPhase (c : Component) : Phase :=
  match c with
  | waterCompIdx => waterPhaseIdx
  | gasCompIdx => gasPhaseIdx
  | oilCompIdx => oilPhaseIdx
  end.

Section WithLhsEval.

Context {L : Type} `{LhsEval L} `{Inhabited L}.

Definition addTerm (y : L) (t : option L) : L :=
  match t with
  | Some x => lhs_add y x
  | None => y
  end.

Definition conservedQuantity (c : Component) (pvtRegionIdx : nat) (y : L) : L :=
  if blackoilConserveSurfaceVolume P then y
  else if componentEnabled c
       then lhs_scale y (referenceDensity FS (componentPhase c) pvtRegionIdx)
       else y.

(** The optional modules leave an equation as it is. *)
Definition modulesKeep (modules : StorageModules L) (i : nat) : Prop :=
  forall storage iq,
    EqVector.get (SolventModule_addStorage modules storage iq) i = EqVector.get storage i
    /\ EqVector.get (ExtboModule_addStorage modules storage iq) i = EqVector.get storage i
    /\ EqVector.get (PolymerModule_addStorage modules storage iq) i = EqVector.get storage i
    /\ EqVector.get (EnergyModule_addStorage modules storage iq) i = EqVector.get storage i
    /\ EqVector.get (FoamModule_addStorage modules storage iq) i = EqVector.get storage i
    /\ EqVector.get (BrineModule_addStorage modules storage iq) i = EqVector.get storage i
    /\ EqVector.get (MICPModule_addStorage modules storage iq) i = EqVector.get storage i.

Variable intQuants : IntensiveQuantities.

(** [S_phase * invB_phase * porosity] *)
Definition surfaceVolume (ph : Phase) : L :=
  lhs_mul (lhs_mul (lhs_decay (saturation (fluidState intQuants) ph))
                   (lhs_decay (invB (fluidState intQuants) ph)))
          (lhs_decay (porosity intQuants)).

(** What the phase [ph] adds into the equation of the component [c], if
    anything. *)
Definition storageTerm (c : Component) (ph : Phase) : option L :=
  if phaseIsActive FS ph then
    match c, ph with
    | waterCompIdx, waterPhaseIdx | oilCompIdx, oilPhaseIdx | gasCompIdx, gasPhaseIdx =>
        Some (surfaceVolume ph)
    | gasCompIdx, oilPhaseIdx =>
        if enableDissolvedGas FS
        then Some (lhs_mul (lhs_decay (Rs (fluidState intQuants))) (surfaceVolume ph))
        else None
    | gasCompIdx, waterPhaseIdx =>
        if enableDissolvedGasInWater FS
        then Some (lhs_mul (lhs_decay (Rsw (fluidState intQuants))) (surfaceVolume ph))
        else None
    | oilCompIdx, gasPhaseIdx =>
        if enableVaporizedOil FS
        then Some (lhs_mul (lhs_decay (Rv (fluidState intQuants))) (surfaceVolume ph))
        else None
    | waterCompIdx, gasPhaseIdx =>
        if enableVaporizedWater FS
        then Some (lhs_mul (lhs_decay (Rvw (fluidState intQuants))) (surfaceVolume ph))
        else None
    | _, _ => None
    end
  else None.

End WithLhsEval.

End StatementNotions.

(** ** Concrete configurations

    Small configurations on which the functions are evaluated: the
    three-phase layout of the black-oil indices, the two-phase water-oil
    layout (no composition switch), and a three-phase layout with salt
    precipitation. *)

Module Examples.

Definition threePhaseIndices : Indices := {|
  numEq := 3;
  conti0EqIdx := 0;
  waterSwitchIdx := 0;
  pressureSwitchIdx := 1;
  compositionSwitchIdx := 2;
  saltConcentrationIdx := -1000;
  solventSaturationIdx := -1000;
  zFractionIdx := -1000;
  temperatureIdx := -1000;
  waterEnabled := true;
  gasEnabled := true;
  oilEnabled := true;
  canonicalToActiveComponentIndex := fun c =>
    match c with oilCompIdx => 0 | waterCompIdx => 1 | gasCompIdx => 2 end%nat
|}.

Definition waterOilIndices : Indices := {|
  numEq := 2;
  conti0EqIdx := 0;
  waterSwitchIdx := 0;
  pressureSwitchIdx := 1;
  compositionSwitchIdx := -10000;
  saltConcentrationIdx := -1000;
  solventSaturationIdx := -1000;
  zFractionIdx := -1000;
  temperatureIdx := -1000;
  waterEnabled := true;
  gasEnabled := false;
  oilEnabled := true;
  canonicalToActiveComponentIndex := fun c =>
    match c with oilCompIdx => 0 | waterCompIdx => 1 | gasCompIdx => 2 end%nat
|}.

Definition saltIndices : Indices := {|
  numEq := 4;
  conti0EqIdx := 0;
  waterSwitchIdx := 0;
  pressureSwitchIdx := 1;
  compositionSwitchIdx := 2;
  saltConcentrationIdx := 3;
  solventSaturationIdx := -1000;
  zFractionIdx := -1000;
  temperatureIdx := -1000;
  waterEnabled := true;
  gasEnabled := true;
  oilEnabled := true;
  canonicalToActiveComponentIndex := fun c =>
    match c with oilCompIdx => 0 | waterCompIdx => 1 | gasCompIdx => 2 end%nat
|}.

Definition plainProperties (conserveSurfaceVolume : bool) : Properties := {|
  enableSolvent := false;
  enableExtbo := false;
  enablePolymer := false;
  enableEnergy := false;
  enableFoam := false;
  enableBrine := false;
  enableSaltPrecipitation := false;
  enableDiffusion := false;
  enableMICP := false;
  blackoilConserveSurfaceVolume := conserveSurfaceVolume
|}.

Definition saltProperties : Properties := {|
  enableSolvent := false;
  enableExtbo := false;
  enablePolymer := false;
  enableEnergy := false;
  enableFoam := false;
  enableBrine := true;
  enableSaltPrecipitation := true;
  enableDiffusion := false;
  enableMICP := false;
  blackoilConserveSurfaceVolume := true
|}.

(** A fluid system with the given phases and dissolution switches; the
    saturated factors are linear in the pressure. *)
Definition fluidSystem (water oil gas : bool)
    (dissolvedGas dissolvedGasInWater vaporizedOil vaporizedWater : bool) : FluidSystem := {|
  phaseIsActive := fun ph =>
    match ph with waterPhaseIdx => water | oilPhaseIdx => oil | gasPhaseIdx => gas end;
  enableDissolvedGas := dissolvedGas;
  enableDissolvedGasInWater := dissolvedGasInWater;
  enableVaporizedOil := vaporizedOil;
  enableVaporizedWater := vaporizedWater;
  referenceDensity := fun ph _ =>
    match ph with waterPhaseIdx => 1000 | oilPhaseIdx => 800 | gasPhaseIdx => 1 end;
  reservoirTemperature := 300;
  gasPvt_saturatedWaterVaporizationFactor := fun _ _ p _ => p / 1024;
  waterPvt_saturatedGasDissolutionFactor := fun _ _ pw _ => pw / 64;
  oilPvt_saturatedGasDissolutionFactor := fun _ _ po _ _ => po / 2;
  gasPvt_saturatedOilVaporizationFactor := fun _ _ pg _ _ => pg / 512
|}.

Definition moduleOracles : ModuleOracles := {|
  BrineModule_saltSol := fun _ => 1 # 4;
  ExtboModule_rs := fun _ _ _ => 0;
  ExtboModule_rv := fun _ _ _ => 0
|}.

(** A material law whose capillary pressure of a phase is proportional to
    the saturation of the other phases. *)
Definition capillaryPressures (scale : Scalar) (fs : SatOnlyFluidState) (ph : Phase)
  : Scalar :=
  match ph with
  | waterPhaseIdx => - scale * (1 - sat_saturation fs waterPhaseIdx)
  | oilPhaseIdx => 0
  | gasPhaseIdx => scale * (1 - sat_saturation fs gasPhaseIdx)
  end.

Definition problem : BlackOilPrimaryVariables.Problem Scalar := {|
  BlackOilPrimaryVariables.materialLawParams := fun _ => 2;
  BlackOilPrimaryVariables.maxOilSaturation := fun _ => 1;
  BlackOilPrimaryVariables.maxGasDissolutionFactor := fun _ _ => 100;
  BlackOilPrimaryVariables.maxOilVaporizationFactor := fun _ _ => 100
|}.

(** Fluid systems: three phases with every dissolution switch, three
    phases without dissolved gas in water, and water-oil. *)
Definition fluidSystemAll : FluidSystem :=
  fluidSystem true true true true true true true.
Definition fluidSystemNoGasInWater : FluidSystem :=
  fluidSystem true true true true false true true.
Definition fluidSystemWaterOil : FluidSystem :=
  fluidSystem true true false false false false false.

(** Primary variables [values = (water, pressure, composition[, salt])]. *)
Definition primaryVariables (vs : list Scalar)
    (w : WaterMeaning.t) (p : PressureMeaning.t) (g : GasMeaning.t) (b : BrineMeaning.t)
  : BlackOilPrimaryVariables.t :=
  BlackOilPrimaryVariables.mk vs w p g b 0.

(** A cell whose gas phase disappears: [sw = 0.995], [sg = -2e-6]. *)
Definition gasDisappears : BlackOilPrimaryVariables.t :=
  primaryVariables [995 # 1000; 100; - (2 # 1000000)]
    WaterMeaning.Sw PressureMeaning.Pg GasMeaning.Sg BrineMeaning.Disabled.

(** A nearly all-water cell [sw = 0.999999] holding the dissolved gas
    fraction in the composition slot. *)
Definition nearlyAllWater : BlackOilPrimaryVariables.t :=
  primaryVariables [999999 # 1000000; 100; 50]
    WaterMeaning.Sw PressureMeaning.Po GasMeaning.Rs BrineMeaning.Disabled.

(** A water-filled cell of the water-oil layout. *)
Definition waterOilAllWater : BlackOilPrimaryVariables.t :=
  primaryVariables [1; 100]
    WaterMeaning.Sw PressureMeaning.Po GasMeaning.Disabled BrineMeaning.Disabled.

(** A three-phase cell with [sw = 3/4], [sg = 1/4]. *)
Definition mostlyWater : BlackOilPrimaryVariables.t :=
  primaryVariables [3 # 4; 100; 1 # 4]
    WaterMeaning.Sw PressureMeaning.Po GasMeaning.Sg BrineMeaning.Disabled.

(** A water-filled three-phase cell. *)
Definition allWater : BlackOilPrimaryVariables.t :=
  primaryVariables [1; 100; 0]
    WaterMeaning.Sw PressureMeaning.Po GasMeaning.Sg BrineMeaning.Disabled.


(** Saturations [sw = -1/2], [sg = 1/2] (so [so = 1]). *)
Definition negativeWater : BlackOilPrimaryVariables.t :=
  primaryVariables [- (1 # 2); 100; 1 # 2]
    WaterMeaning.Sw PressureMeaning.Po GasMeaning.Sg BrineMeaning.Disabled.

(** A cell whose precipitated salt saturation turned negative. *)
Definition saltDissolves : BlackOilPrimaryVariables.t :=
  primaryVariables [1 # 2; 100; 1 # 4; - (1)]
    WaterMeaning.Sw PressureMeaning.Po GasMeaning.Sg BrineMeaning.Sp.

(** *** A face between two cells *)

(** An evaluation with the value [v] and the derivative [d] with respect
    to the primary variable [k]. *)
Definition variable (v d : Scalar) (k : nat) : Evaluation :=
  mkEval v (fun i => if Nat.eqb i k then d else 0).

(** Cell A: pressures (water 100, oil 110, gas 120). *)
Definition cellA : IntensiveQuantities := {|
  fluidState := {|
    saturation := fun ph =>
      match ph with
      | waterPhaseIdx => variable (1 # 2) 1 0
      | oilPhaseIdx => variable (1 # 4) (-1) 0
      | gasPhaseIdx => variable (1 # 4) 1 2
      end;
    pressure := fun ph =>
      match ph with
      | waterPhaseIdx => variable 100 1 1
      | oilPhaseIdx => variable 110 1 1
      | gasPhaseIdx => variable 120 1 1
      end;
    invB := fun ph =>
      match ph with
      | waterPhaseIdx => variable 1 (1 # 100) 1
      | oilPhaseIdx => variable (4 # 5) (1 # 50) 1
      | gasPhaseIdx => variable 50 (1 # 2) 1
      end;
    Rs := variable 80 1 1;
    Rv := variable (1 # 1000) (1 # 10000) 1;
    Rsw := variable 2 (1 # 10) 1;
    Rvw := variable (1 # 500) (1 # 5000) 1
  |};
  porosity := variable (1 # 5) (1 # 1000) 1;
  pvtRegionIndex := 0;
  mobility := fun ph _ =>
    match ph with
    | waterPhaseIdx => variable 2 1 0
    | oilPhaseIdx => variable 1 (-1) 0
    | gasPhaseIdx => variable 8 4 2
    end;
  rockCompTransMultiplier := variable 1 (1 # 1000) 1
|}.

(** Cell B: pressures (water 90, oil 110, gas 130): against cell A the
    water flows from A to B, the oil does not flow, the gas flows from B to
    A. *)
Definition cellB : IntensiveQuantities := {|
  fluidState := {|
    saturation := fun ph =>
      match ph with
      | waterPhaseIdx => variable (1 # 4) 1 0
      | oilPhaseIdx => variable (1 # 4) (-1) 0
      | gasPhaseIdx => variable (1 # 2) 1 2
      end;
    pressure := fun ph =>
      match ph with
      | waterPhaseIdx => variable 90 1 1
      | oilPhaseIdx => variable 110 1 1
      | gasPhaseIdx => variable 130 1 1
      end;
    invB := fun ph =>
      match ph with
      | waterPhaseIdx => variable 1 (1 # 100) 1
      | oilPhaseIdx => variable (3 # 4) (1 # 50) 1
      | gasPhaseIdx => variable 60 (1 # 2) 1
      end;
    Rs := variable 70 1 1;
    Rv := variable (1 # 2000) (1 # 10000) 1;
    Rsw := variable 1 (1 # 10) 1;
    Rvw := variable (1 # 250) (1 # 5000) 1
  |};
  porosity := variable (1 # 4) (1 # 1000) 1;
  pvtRegionIndex := 1;
  mobility := fun ph _ =>
    match ph with
    | waterPhaseIdx => variable 1 1 0
    | oilPhaseIdx => variable 2 (-1) 0
    | gasPhaseIdx => variable 16 4 2
    end;
  rockCompTransMultiplier := variable (1 # 2) (1 # 1000) 1
|}.

(** An instance of the extensive quantities for the examples: the
    pressure difference [pEx + distZg - pIn] of a fluid of unit density (the
    exterior pressure as a value, the interior one with its derivatives),
    the upwind side by its sign (ties by the larger volume, then by the
    smaller global index), and the threshold pressure taken off it. *)
Definition pressureDiff (intQuantsIn intQuantsEx : IntensiveQuantities) (phaseIdx : Phase)
    (interiorDofIdx exteriorDofIdx : Z) (Vin Vex : Scalar)
    (globalIndexIn globalIndexEx : nat) (distZg thpres : Scalar)
  : BlackOilLocalResidualTPFA.PhasePressureDiff :=
  let pressureInterior := pressure (fluidState intQuantsIn) phaseIdx in
  let pressureExterior := value (pressure (fluidState intQuantsEx) phaseIdx) + distZg in
  let pd := Eval.add (Eval.const pressureExterior) (Eval.opp pressureInterior) in
  let interiorIsUpwind :=
    if Qgtb (value pd) 0 then false
    else if Qltb (value pd) 0 then true
    else if Qgtb Vin Vex then true
    else if Qltb Vin Vex then false
    else Nat.ltb globalIndexIn globalIndexEx in
  let pd :=
    if Qgtb thpres 0 then
      if Qgtb (Qabs (value pd)) thpres then
        if Qltb (value pd) 0 then Eval.add pd (Eval.const thpres)
        else Eval.add pd (Eval.const (- thpres))
      else Eval.const 0
    else pd in
  {| BlackOilLocalResidualTPFA.upIdx :=
       if interiorIsUpwind then interiorDofIdx else exteriorDofIdx;
     BlackOilLocalResidualTPFA.dnIdx :=
       if interiorIsUpwind then exteriorDofIdx else interiorDofIdx;
     BlackOilLocalResidualTPFA.pressureDifference := pd |}.

(** A problem with two cells of equal volume at the depths 10 and 12. *)
Definition residualProblem : BlackOilLocalResidualTPFA.Problem := {|
  BlackOilLocalResidualTPFA.dofTotalVolume := fun _ => 1;
  BlackOilLocalResidualTPFA.thresholdPressure := fun _ _ => 1;
  BlackOilLocalResidualTPFA.gravity := 1 # 2;
  BlackOilLocalResidualTPFA.dofCenterDepth := fun i =>
    match i with 0%nat => 10 | _ => 12 end
|}.

(** Optional modules that are all disabled: no contribution. *)
Definition noModules (L : Type) : BlackOilLocalResidualTPFA.StorageModules L := {|
  BlackOilLocalResidualTPFA.SolventModule_addStorage := fun storage _ => storage;
  BlackOilLocalResidualTPFA.ExtboModule_addStorage := fun storage _ => storage;
  BlackOilLocalResidualTPFA.PolymerModule_addStorage := fun storage _ => storage;
  BlackOilLocalResidualTPFA.EnergyModule_addStorage := fun storage _ => storage;
  BlackOilLocalResidualTPFA.FoamModule_addStorage := fun storage _ => storage;
  BlackOilLocalResidualTPFA.BrineModule_addStorage := fun storage _ => storage;
  BlackOilLocalResidualTPFA.MICPModule_addStorage := fun storage _ => storage
|}.

(** A free boundary whose pressures are those of cell B, on cell A. *)
Definition freeBoundary (type : BCType) : BoundaryConditionData := {|
  bc_type := type;
  massRate := [Eval.const 7; Eval.const 8; Eval.const 9];
  bc_pvtRegionIdx := 0;
  boundaryFaceIndex := 0;
  bc_faceArea := 2;
  faceZCoord := 10;
  exFluidState := {|
    saturation := fun ph => value (saturation (fluidState cellB) ph);
    pressure := fun ph => value (pressure (fluidState cellB) ph);
    invB := fun ph => value (invB (fluidState cellB) ph);
    Rs := value (Rs (fluidState cellB));
    Rv := value (Rv (fluidState cellB));
    Rsw := value (Rsw (fluidState cellB));
    Rvw := value (Rvw (fluidState cellB))
  |}
|}.

(** Boundary gradients for the example: a unit volume flux of each phase
    that depends on the inside pressure. *)
Definition boundaryGradients (problem : BlackOilLocalResidualTPFA.Problem) (globalSpaceIdx : nat)
    (insideIntQuants : IntensiveQuantities) (boundaryFaceIndex : nat)
    (faceArea faceZCoord : Scalar) (exFluidState : FluidState Scalar)
  : BlackOilLocalResidualTPFA.BoundaryGradients :=
  {| BlackOilLocalResidualTPFA.volumeFlux := fun ph => variable 1 1 1 |}.

End Examples.

(** ** The statements under test

    Statements of the specification that are compared with the code below,
    written as predicates of a configuration and an input. *)

Module Stated.

Section WithConfiguration.

Variable I : Indices.
Variable P : Properties.
Variable FS : FluidSystem.
Variable M : ModuleOracles.
Variable MaterialLawParams : Type.
Variable MaterialLaw_capillaryPressures :
  MaterialLawParams -> SatOnlyFluidState -> Phase -> Scalar.

Import BlackOilPrimaryVariables.

(** "If the stored water saturation is at least [1 - tolerance] and
    dissolved gas in water is not modelled, the call sets the water slot
    to 1, the gas slot to 0, the gas meaning to the saturation, and
    returns [true] iff the gas meaning before the call was not the
    saturation." *)
Definition water_filled_cell_forced (static_ : option Scalar)
    (problem : Problem MaterialLawParams) (idx : nat) (eps : Scalar) (pv : t) : Prop :=
  primaryVarsMeaningWater pv = WaterMeaning.Sw ->
  1 - eps <= at_ pv (waterSwitchIdx I) ->
  enableDissolvedGasInWater FS = false ->
  let r := snd (adaptPrimaryVariables I P FS M MaterialLawParams
                  MaterialLaw_capillaryPressures static_ problem idx eps pv) in
  at_ (snd r) (waterSwitchIdx I) = 1
  /\ at_ (snd r) (compositionSwitchIdx I) = 0
  /\ primaryVarsMeaningGas (snd r) = GasMeaning.Sg
  /\ (fst r = true <-> primaryVarsMeaningGas pv <> GasMeaning.Sg).

(** "The call returns [true] iff the meaning of the water, gas, pressure
    or brine variable was changed during the call." *)
Definition returns_true_iff_meaning_changed (static_ : option Scalar)
    (problem : Problem MaterialLawParams) (idx : nat) (eps : Scalar) (pv : t) : Prop :=
  let r := snd (adaptPrimaryVariables I P FS M MaterialLawParams
                  MaterialLaw_capillaryPressures static_ problem idx eps pv) in
  fst r = true <->
  (primaryVarsMeaningWater (snd r) <> primaryVarsMeaningWater pv
   \/ primaryVarsMeaningGas (snd r) <> primaryVarsMeaningGas pv
   \/ primaryVarsMeaningPressure (snd r) <> primaryVarsMeaningPressure pv
   \/ primaryVarsMeaningBrine (snd r) <> primaryVarsMeaningBrine pv).


(** "[chopAndNormalizeSaturations] returns [true] iff the sum of the four
    saturations before clamping differed from 1." *)
Definition returns_true_iff_preclamp_sum_differs (pv : t) : Prop :=
  let '(sw, so, sg, ssol) := readSaturations_ I P pv in
  fst (chopAndNormalizeSaturations I P pv) = true <-> ~ sw + so + sg + ssol == 1.

End WithConfiguration.

End Stated.

(* ===================================================================== *)
(** ** Further notions used in the statements                              *)
(* ===================================================================== *)

Section FurtherNotions.

Import BlackOilLocalResidualTPFA.

Variable I : Indices.
Variable FS : FluidSystem.

(** What a step on the primary variables leaves alone: the region, the size
    of the vector and the slots outside of [slots]. *)
Definition keeps (slots : list Z) (pv pv' : BlackOilPrimaryVariables.t) : Prop :=
  BlackOilPrimaryVariables.pvtRegionIdx_ pv' = BlackOilPrimaryVariables.pvtRegionIdx_ pv
  /\ length (BlackOilPrimaryVariables.values pv')
     = length (BlackOilPrimaryVariables.values pv)
  /\ forall i, ~ In i slots ->
       BlackOilPrimaryVariables.at_ pv' i = BlackOilPrimaryVariables.at_ pv i.

(** The equations of the three components lie in the vectors and are
    pairwise distinct. *)
Definition componentEquationsOk : Prop :=
  (forall c, (eqIdx I c < numEq I)%nat)
  /\ (forall c c', eqIdx I c = eqIdx I c' -> c = c').



Section AtFace.

Variable calculatePhasePressureDiff_ :
  IntensiveQuantities -> IntensiveQuantities -> Phase -> Z -> Z ->
  Scalar -> Scalar -> nat -> nat -> Scalar -> Scalar -> PhasePressureDiff.

(** The result of the extensive quantities for a phase, with the arguments
    that [computeFlux] hands over (lines 206-255 and 354-367). *)
Definition facePressureDiff (problem : Problem) (globalIndexIn globalIndexEx : nat)
    (intQuantsIn intQuantsEx : IntensiveQuantities) (phaseIdx : Phase)
  : PhasePressureDiff :=
  calculatePhasePressureDiff_ intQuantsIn intQuantsEx phaseIdx
    interiorDofIdx exteriorDofIdx
    (dofTotalVolume problem globalIndexIn) (dofTotalVolume problem globalIndexEx)
    globalIndexIn globalIndexEx
    ((dofCenterDepth problem globalIndexIn - dofCenterDepth problem globalIndexEx)
     * gravity problem)
    (thresholdPressure problem globalIndexIn globalIndexEx).

End AtFace.

End FurtherNotions.

(* ===================================================================== *)
(** ** Assigning the primary variables from a fluid state *)

Module BlackOilPrimaryVariablesAssign.

Import BlackOilPrimaryVariables.

(** [setPvtRegionIndex] (lines 767-768): the region is stored in an
    [unsigned short]. *)
Definition setPvtRegionIndex (value : nat) (pv : t) : t :=
  mk (values pv) (primaryVarsMeaningWater_ pv) (primaryVarsMeaningPressure_ pv)
     (primaryVarsMeaningGas_ pv) (primaryVarsMeaningBrine_ pv)
     (value mod 2 ^ 16)%nat.

(** The phase whose pressure the pressure slot holds (the [switch] of
    lines 986-998). *)
Definition pressurePhase (m : PressureMeaning.t) : Phase :=
  match m with
  | PressureMeaning.Po => oilPhaseIdx
  | PressureMeaning.Pg => gasPhaseIdx
  | PressureMeaning.Pw => waterPhaseIdx
  end.

Section WithConfiguration.

Variable I : Indices.
Variable P : Properties.
Variable FS : FluidSystem.

(** [FluidSystem::numActivePhases()] *)
Variable numActivePhases : nat.

(** The fluid state handed in stores its quantities as [A] ([Scalar] or
    [Evaluation]); [FsToolbox::value] is [decay]. *)
Context {A : Type} `{Decay A Scalar}.

(** [BlackOil::getSaltSaturation_<FluidSystem, FluidState, Scalar>] and
    [EnergyModule::assignPrimaryVars]. *)
Variable getSaltSaturation_ : FluidState A -> nat -> Scalar.
Variable EnergyModule_assignPrimaryVars : t -> FluidState A -> t.

(** *** [assignNaive] (lines 911-1050)

    The [default] labels of the three [switch] statements throw
    [std::logic_error]; the enumerations have no further value, so the
    function returns. *)
Definition assignNaive (fluidState : FluidState A) (pv : t) : t :=
  let present (ph : Phase) : bool :=
    if phaseIsActive FS ph then Qgtb (decay (saturation fluidState ph)) 0 else false in
  let gasPresent := present gasPhaseIdx in
  let oilPresent := present oilPhaseIdx in
  let waterPresent := present waterPhaseIdx in
  let saltSaturation := getSaltSaturation_ fluidState (pvtRegionIdx_ pv) in
  let precipitatedSaltPresent :=
    if enableSaltPrecipitation P then Qgtb saltSaturation 0 else false in
  let oneActivePhases := Nat.eqb numActivePhases 1 in
  (* deal with the primary variables for the energy extension *)
  let pv := EnergyModule_assignPrimaryVars pv fluidState in
  (* determine the meaning of the pressure primary variables *)
  let pv :=
    setPrimaryVarsMeaningPressure
      (if gasPresent && enableVaporizedOil FS && negb oilPresent then PressureMeaning.Pg
       else if phaseIsActive FS oilPhaseIdx then PressureMeaning.Po
       else if waterPresent && enableDissolvedGasInWater FS && negb gasPresent
            then PressureMeaning.Pw
       else if phaseIsActive FS gasPhaseIdx then PressureMeaning.Pg
       else PressureMeaning.Pw) pv in
  (* determine the meaning of the water primary variables *)
  let pv :=
    setPrimaryVarsMeaningWater
      (if waterPresent && gasPresent then WaterMeaning.Sw
       else if gasPresent && enableVaporizedWater FS then WaterMeaning.Rvw
       else if waterPresent && enableDissolvedGasInWater FS then WaterMeaning.Rsw
       else if phaseIsActive FS waterPhaseIdx && negb oneActivePhases then WaterMeaning.Sw
       else WaterMeaning.Disabled) pv in
  (* determine the meaning of the gas primary variables *)
  let pv :=
    setPrimaryVarsMeaningGas
      (if gasPresent && oilPresent then GasMeaning.Sg
       else if oilPresent && enableDissolvedGas FS then GasMeaning.Rs
       else if gasPresent && enableVaporizedOil FS then GasMeaning.Rv
       else if phaseIsActive FS gasPhaseIdx && phaseIsActive FS oilPhaseIdx then GasMeaning.Sg
       else GasMeaning.Disabled) pv in
  (* determine the meaning of the brine primary variables *)
  let pv :=
    setPrimaryVarsMeaningBrine
      (if enableSaltPrecipitation P then
         if precipitatedSaltPresent then BrineMeaning.Sp else BrineMeaning.Cs
       else BrineMeaning.Disabled) pv in
  (* assign the actual primary variables *)
  let pv :=
    assign (pressureSwitchIdx I)
      (decay (pressure fluidState (pressurePhase (primaryVarsMeaningPressure pv)))) pv in
  let pv :=
    match primaryVarsMeaningWater pv with
    | WaterMeaning.Sw =>
        assign (waterSwitchIdx I) (decay (saturation fluidState waterPhaseIdx)) pv
    | WaterMeaning.Rvw =>
        assign (waterSwitchIdx I) (getRvw_ fluidState (pvtRegionIdx_ pv)) pv
    | WaterMeaning.Rsw =>
        assign (waterSwitchIdx I) (getRsw_ fluidState (pvtRegionIdx_ pv)) pv
    | WaterMeaning.Disabled => pv
    end in
  match primaryVarsMeaningGas pv with
  | GasMeaning.Sg =>
      assign (compositionSwitchIdx I) (decay (saturation fluidState gasPhaseIdx)) pv
  | GasMeaning.Rs =>
      assign (compositionSwitchIdx I) (getRs_ fluidState (pvtRegionIdx_ pv)) pv
  | GasMeaning.Rv =>
      assign (compositionSwitchIdx I) (getRv_ fluidState (pvtRegionIdx_ pv)) pv
  | GasMeaning.Disabled => pv
  end.

End WithConfiguration.

End BlackOilPrimaryVariablesAssign.

(* ===================================================================== *)
(** ** The convergence criterion of the linear solver

    [Dumux::WeightedResidReductionCriterion]: the error of an iterate is the
    largest weighted absolute value of its residual, and the iteration has
    converged when the error has dropped to the fraction [tolerance] of the
    initial error. *)

Module WeightedResidReductionCriterion.

(** [Vector] is a [Dune::BlockVector] of blocks of [BlockType::dimension]
    scalars. *)
Definition Vector : Type := list (list Scalar).

Record t : Type := mk {
  weightVec_ : Vector;
  error_ : Scalar;
  initialError_ : Scalar;
  tolerance_ : Scalar
}.

(** The constructors (lines 779-787).  The first one leaves the weights
    empty; members without an initialiser hold an indeterminate value, which
    is an argument here. *)
Definition create (error0 initialError0 tolerance0 : Scalar) : t :=
  mk [] error0 initialError0 tolerance0.

Definition createWeighted (weights : Vector) (reduction : Scalar)
    (error0 initialError0 : Scalar) : t :=
  mk weights error0 initialError0 reduction.

Definition setWeight (weightVec : Vector) (c : t) : t :=
  mk weightVec (error_ c) (initialError_ c) (tolerance_ c).

(** [weight(outerIdx, innerIdx)] (lines 826-829) *)
Definition weight (c : t) (outerIdx innerIdx : nat) : Scalar :=
  if Nat.eqb (length (weightVec_ c)) 0 then 1
  else (weightVec_ c !!! outerIdx) !!! innerIdx.

Definition setTolerance (tol : Scalar) (c : t) : t :=
  mk (weightVec_ c) (error_ c) (initialError_ c) tol.

Definition tolerance (c : t) : Scalar := tolerance_ c.

(** [accuracy()] (lines 851-854) *)
Definition accuracy (c : t) : Scalar := error_ c / initialError_ c.

(** [converged()] (lines 881-884) *)
Definition converged (c : t) : bool := Qle_bool (accuracy c) (tolerance c).

(** The shapes that the loops of [updateError_] rely on: every block of the
    residual has [dimension] entries, and the weights are either absent or
    shaped like the residual. *)
Definition wellShaped (dimension : nat) (curResid : Vector) (c : t) : Prop :=
  Forall (fun block => length block = dimension) curResid
  /\ (weightVec_ c = []
      \/ (length (weightVec_ c) = length curResid
          /\ Forall (fun block => length block = dimension) (weightVec_ c))).

Section WithCommunication.

(** [comm_.max(x)]: the maximum of [x] over the processes. *)
Variable comm_max : Scalar -> Scalar.

(** [BlockType::dimension] *)
Variable dimension : nat.

(** [updateError_] (lines 888-898) *)
Definition updateError_ (curResid : Vector) (c : t) : t :=
  let error :=
    foldl (fun error i =>
             foldl (fun error j =>
                      std_max error (weight c i j * Qabs ((curResid !!! i) !!! j)))
                   error (seq 0 dimension))
          0 (seq 0 (length curResid)) in
  mk (weightVec_ c) (comm_max error) (initialError_ c) (tolerance_ c).

(** [setInitial] (lines 859-867) *)
Definition setInitial (curSol curResid : Vector) (c : t) : t :=
  let c := updateError_ curResid c in
  (* make sure that we don't allow an initial error of 0 to avoid
     divisions by zero *)
  let error := std_max (error_ c) (1 # 10 ^ 20) in
  mk (weightVec_ c) error error (tolerance_ c).

(** [update] (lines 872-876) *)
Definition update (curSol curResid : Vector) (c : t) : t :=
  updateError_ curResid c.

(** The calls of [update] after [setInitial], one for each iterate of the
    solver. *)
Definition iterate (c : t) (steps : list (Vector * Vector)) : t :=
  foldl (fun c step => update (fst step) (snd step) c) c steps.

End WithCommunication.

End WeightedResidReductionCriterion.

(* ===================================================================== *)
(** ** Further concrete configurations *)

Module FurtherExamples.

Import Examples.

(** Primary variables without salt. *)
Definition cell (vs : list Scalar)
    (w : WaterMeaning.t) (p : PressureMeaning.t) (g : GasMeaning.t)
  : BlackOilPrimaryVariables.t :=
  primaryVariables vs w p g BrineMeaning.Disabled.

(** A gas cell holding more vaporized water than the gas can carry. *)
Definition waterAppears : BlackOilPrimaryVariables.t :=
  cell [1 # 2; 100; 1 # 2] WaterMeaning.Rvw PressureMeaning.Pg GasMeaning.Sg.

(** A water cell of a water-gas system holding more dissolved gas than the
    water can carry. *)
Definition gasAppearsFromWater : BlackOilPrimaryVariables.t :=
  cell [2; 100; 0] WaterMeaning.Rsw PressureMeaning.Pw GasMeaning.Disabled.

(** A trial update with a negative gas saturation [sg = -1/4]. *)
Definition gasDissolves : BlackOilPrimaryVariables.t :=
  cell [1 # 2; 100; - (1 # 4)] WaterMeaning.Sw PressureMeaning.Po GasMeaning.Sg.

(** A trial update with a negative oil saturation: [sw = 1/2], [sg = 3/4]. *)
Definition oilVaporizes : BlackOilPrimaryVariables.t :=
  cell [1 # 2; 100; 3 # 4] WaterMeaning.Sw PressureMeaning.Po GasMeaning.Sg.

(** An oil cell holding more dissolved gas than the oil can carry. *)
Definition gasAppears : BlackOilPrimaryVariables.t :=
  cell [1 # 2; 100; 60] WaterMeaning.Sw PressureMeaning.Po GasMeaning.Rs.

(** A gas cell holding more vaporized oil than the gas can carry. *)
Definition oilAppears : BlackOilPrimaryVariables.t :=
  cell [1 # 4; 100; 1 # 2] WaterMeaning.Sw PressureMeaning.Pg GasMeaning.Rv.

(** A trial update with [sw = 2] and [sg = -1/2], hence [so = -1/2]. *)
Definition waterOvershoot : BlackOilPrimaryVariables.t :=
  cell [2; 100; - (1 # 2)] WaterMeaning.Sw PressureMeaning.Po GasMeaning.Sg.

(** Fluid systems with one phase and no dissolution. *)
Definition fluidSystemWaterOnly : FluidSystem :=
  fluidSystem true false false false false false false.
Definition fluidSystemOilOnly : FluidSystem :=
  fluidSystem false true false false false false false.

(** No salt, and an energy module that is switched off. *)
Definition getSaltSaturation_ (fluidState : FluidState Evaluation) (pvtRegionIdx : nat)
  : Scalar := 0.
Definition EnergyModule_assignPrimaryVars (pv : BlackOilPrimaryVariables.t)
    (fluidState : FluidState Evaluation) : BlackOilPrimaryVariables.t := pv.


(** A residual of two blocks of two equations, and weights for it. *)
Definition residual : WeightedResidReductionCriterion.Vector := [[1; - (3)]; [2; 0]].
Definition weights : WeightedResidReductionCriterion.Vector := [[1; 1 # 2]; [2; 5]].
Definition zeroResidual : WeightedResidReductionCriterion.Vector := [[0; 0]; [0; 0]].

(** A criterion with the weights above and the reduction [1/100]. *)
Definition criterion : WeightedResidReductionCriterion.t :=
  WeightedResidReductionCriterion.createWeighted weights (1 # 100) 0 0.

(** A run on one process. *)
Definition comm_max (x : Scalar) : Scalar := x.

End FurtherExamples.

(* ===================================================================== *)
(** * Part II: properties                                                 *)
(* ===================================================================== *)

(** ** Comparisons *)

Lemma Qltb_true x y : Qltb x y = true <-> x < y.
Proof.
  unfold Qltb. rewrite negb_true_iff, <- not_true_iff_false, Qle_bool_iff.
  split; [apply Qnot_le_lt | apply Qlt_not_le].
Qed.

Lemma Qltb_false x y : Qltb x y = false <-> y <= x.
Proof.
  unfold Qltb. rewrite negb_false_iff. apply Qle_bool_iff.
Qed.

Lemma Qgtb_true x y : Qgtb x y = true <-> y < x.
Proof. apply Qltb_true. Qed.

Lemma Qgtb_false x y : Qgtb x y = false <-> x <= y.
Proof. apply Qltb_false. Qed.

Lemma Qgeb_true x y : Qgeb x y = true <-> y <= x.
Proof. apply Qle_bool_iff. Qed.

Lemma Qgeb_false x y : Qgeb x y = false <-> x < y.
Proof.
  unfold Qgeb. rewrite <- not_true_iff_false, Qle_bool_iff.
  split; [apply Qnot_le_lt | apply Qlt_not_le].
Qed.

Lemma std_max_spec a b : a <= std_max a b /\ b <= std_max a b
  /\ (std_max a b = a \/ std_max a b = b).
Proof.
  unfold std_max. destruct (Qltb a b) eqn:E.
  - apply Qltb_true in E. repeat split; auto; lra.
  - apply Qltb_false in E. repeat split; auto; lra.
Qed.

Lemma std_min_spec a b : std_min a b <= a /\ std_min a b <= b
  /\ (std_min a b = a \/ std_min a b = b).
Proof.
  unfold std_min. destruct (Qltb b a) eqn:E.
  - apply Qltb_true in E. repeat split; auto; lra.
  - apply Qltb_false in E. repeat split; auto; lra.
Qed.

(** ** Field vectors *)

Lemma FieldVector_length_set v i x :
  length (FieldVector.set v i x) = length v.
Proof.
  unfold FieldVector.set. destruct (0 <=? i)%Z; [apply length_insert | reflexivity].
Qed.

Lemma FieldVector_get_set_eq v i x :
  FieldVector.valid v i -> FieldVector.get (FieldVector.set v i x) i = x.
Proof.
  intros [H1 H2]. unfold FieldVector.get, FieldVector.set.
  destruct (Z.leb_spec 0 i); [|lia].
  apply list_lookup_total_insert_eq. lia.
Qed.

Lemma FieldVector_get_set_ne v i j x :
  i <> j -> FieldVector.get (FieldVector.set v j x) i = FieldVector.get v i.
Proof.
  intros Hne. unfold FieldVector.get, FieldVector.set.
  destruct (Z.leb_spec 0 i); destruct (Z.leb_spec 0 j); try reflexivity.
  apply list_lookup_total_insert_ne. intros E. apply Hne. lia.
Qed.

Lemma FieldVector_valid_set v i j x :
  FieldVector.valid (FieldVector.set v j x) i <-> FieldVector.valid v i.
Proof. unfold FieldVector.valid. rewrite FieldVector_length_set. reflexivity. Qed.

(** ** The primary variables *)

Section PrimaryVariables.

Import BlackOilPrimaryVariables.

Variable I : Indices.
Variable P : Properties.
Variable FS : FluidSystem.
Variable M : ModuleOracles.
Variable MaterialLawParams : Type.
Variable MaterialLaw_capillaryPressures :
  MaterialLawParams -> SatOnlyFluidState -> Phase -> Scalar.

Local Abbreviation Problem := (BlackOilPrimaryVariables.Problem MaterialLawParams).
Local Abbreviation adapt := (adaptPrimaryVariables I P FS M MaterialLawParams MaterialLaw_capillaryPressures).
Local Abbreviation adaptBody :=
  (adaptPrimaryVariablesBody_ I P FS M MaterialLawParams MaterialLaw_capillaryPressures).
Local Abbreviation adaptWater :=
  (adaptWater_ I P FS MaterialLawParams MaterialLaw_capillaryPressures).
Local Abbreviation adaptGas :=
  (adaptGas_ I P FS M MaterialLawParams MaterialLaw_capillaryPressures).
Local Abbreviation capPress :=
  (computeCapillaryPressures_ MaterialLawParams MaterialLaw_capillaryPressures).

Lemma at_assign_eq pv i x : validIdx pv i -> at_ (assign i x pv) i = x.
Proof. intros H. unfold at_, assign; simpl. apply FieldVector_get_set_eq, H. Qed.

Lemma at_assign_ne pv i j x : i <> j -> at_ (assign j x pv) i = at_ pv i.
Proof. intros H. unfold at_, assign; simpl. apply FieldVector_get_set_ne, H. Qed.

Lemma validIdx_assign pv i j x : validIdx (assign j x pv) i <-> validIdx pv i.
Proof. unfold validIdx, assign; simpl. apply FieldVector_valid_set. Qed.

Lemma at_setWater m pv i : at_ (setPrimaryVarsMeaningWater m pv) i = at_ pv i.
Proof. reflexivity. Qed.
Lemma at_setPressure m pv i : at_ (setPrimaryVarsMeaningPressure m pv) i = at_ pv i.
Proof. reflexivity. Qed.
Lemma at_setGas m pv i : at_ (setPrimaryVarsMeaningGas m pv) i = at_ pv i.
Proof. reflexivity. Qed.
Lemma at_setBrine m pv i : at_ (setPrimaryVarsMeaningBrine m pv) i = at_ pv i.
Proof. reflexivity. Qed.

Lemma validIdx_setWater m pv i : validIdx (setPrimaryVarsMeaningWater m pv) i <-> validIdx pv i.
Proof. reflexivity. Qed.
Lemma validIdx_setPressure m pv i :
  validIdx (setPrimaryVarsMeaningPressure m pv) i <-> validIdx pv i.
Proof. reflexivity. Qed.
Lemma validIdx_setGas m pv i : validIdx (setPrimaryVarsMeaningGas m pv) i <-> validIdx pv i.
Proof. reflexivity. Qed.

(** The brine switch leaves the other meanings, the region and the size
    of the vector alone. *)
Lemma adaptBrine_frame eps pv :
  let pv1 := fst (adaptBrine_ I P M eps pv) in
  primaryVarsMeaningWater pv1 = primaryVarsMeaningWater pv
  /\ primaryVarsMeaningGas pv1 = primaryVarsMeaningGas pv
  /\ primaryVarsMeaningPressure pv1 = primaryVarsMeaningPressure pv
  /\ pvtRegionIdx_ pv1 = pvtRegionIdx_ pv
  /\ length (values pv1) = length (values pv).
Proof.
  unfold adaptBrine_.
  destruct (enableSaltPrecipitation P); simpl; [|tauto].
  destruct (primaryVarsMeaningBrine pv); simpl.
  - destruct (Qgtb _ _); simpl; repeat split; auto. apply FieldVector_length_set.
  - destruct (Qltb _ _); simpl; repeat split; auto. apply FieldVector_length_set.
  - tauto.
Qed.


Lemma run_initialised threshold calls :
  run I P FS M MaterialLawParams MaterialLaw_capillaryPressures (Some threshold) calls
  = map (fun c => adaptBody threshold (call_problem _ c) (call_globalDofIdx _ c)
                    (call_eps _ c) (call_this _ c)) calls.
Proof.
  induction calls as [|c calls IH]; simpl; [reflexivity|].
  f_equal. exact IH.
Qed.

(** C10.  The threshold of the all-water cell is a function-local static:
    the first call of a program run initialises it to [1 - eps] with the
    [eps] of that call, later calls leave it as it is, and every call of
    the run, whatever [eps] it is given, executes the body with that
    first threshold; the body takes the all-water branch exactly when
    the water saturation read from the primary variables is at least this
    threshold (and dissolved gas in water is off). *)
Theorem adaptPrimaryVariables_static_threshold :
  (forall (problem : Problem) idx eps pv,
      fst (adapt None problem idx eps pv) = Some (1 - eps))
  /\ (forall threshold (problem : Problem) idx eps pv,
      fst (adapt (Some threshold) problem idx eps pv) = Some threshold)
  /\ (forall c0 calls,
      run I P FS M MaterialLawParams MaterialLaw_capillaryPressures None (c0 :: calls)
      = map (fun c => adaptBody (1 - call_eps _ c0) (call_problem _ c)
                        (call_globalDofIdx _ c) (call_eps _ c) (call_this _ c))
            (c0 :: calls))
  /\ (forall threshold (problem : Problem) idx eps pv,
      WaterMeaning.eqb (primaryVarsMeaningWater pv) WaterMeaning.Disabled
        && GasMeaning.eqb (primaryVarsMeaningGas pv) GasMeaning.Disabled = false ->
      (Qgeb (read_sw I pv) threshold && negb (enableDissolvedGasInWater FS) = true ->
       adaptBody threshold problem idx eps pv
       = waterFilledCell_ I (fst (adaptBrine_ I P M eps pv)))
      /\ (Qgeb (read_sw I pv) threshold && negb (enableDissolvedGasInWater FS) = false ->
          adaptBody threshold problem idx eps pv
          = let '(pv1, saltConcentration) := adaptBrine_ I P M eps pv in
            let '(changed, pv2) :=
              adaptWater problem idx eps (read_sw I pv) (read_sg I pv)
                saltConcentration (temperature_ I P FS pv) pv1 in
            adaptGas problem idx eps (read_sw I pv) (read_sg I pv)
              (temperature_ I P FS pv) changed pv2)).
Proof.
  repeat split.
  - intros c0 calls. simpl. f_equal. apply run_initialised.
  - intros Hsw. unfold adaptPrimaryVariablesBody_. rewrite H.
    destruct (adaptBrine_ I P M eps pv) as [pv1 salt]. rewrite Hsw. reflexivity.
  - intros Hsw. unfold adaptPrimaryVariablesBody_. rewrite H.
    destruct (adaptBrine_ I P M eps pv) as [pv1 salt]. rewrite Hsw. reflexivity.
Qed.

(** The all-water branch on its own. *)
Lemma waterFilledCell_spec pv :
  let r := waterFilledCell_ I pv in
  fst r = negb (GasMeaning.eqb (primaryVarsMeaningGas pv) GasMeaning.Sg)
  /\ primaryVarsMeaningWater (snd r) = primaryVarsMeaningWater pv
  /\ primaryVarsMeaningPressure (snd r) = primaryVarsMeaningPressure pv
  /\ primaryVarsMeaningBrine (snd r) = primaryVarsMeaningBrine pv
  /\ (waterEnabled I = true -> validIdx pv (waterSwitchIdx I) ->
      waterSwitchIdx I <> compositionSwitchIdx I ->
      at_ (snd r) (waterSwitchIdx I) = 1)
  /\ (waterSwitchIdx I <> compositionSwitchIdx I -> waterEnabled I = false ->
      at_ (snd r) (waterSwitchIdx I) = at_ pv (waterSwitchIdx I))
  /\ (compositionSwitchEnabled I = true -> validIdx pv (compositionSwitchIdx I) ->
      at_ (snd r) (compositionSwitchIdx I) = 0
      /\ primaryVarsMeaningGas (snd r) = GasMeaning.Sg)
  /\ (compositionSwitchEnabled I = false ->
      primaryVarsMeaningGas (snd r) = primaryVarsMeaningGas pv).
Proof.
  unfold waterFilledCell_.
  unfold primaryVarsMeaningGas, primaryVarsMeaningWater, primaryVarsMeaningPressure,
    primaryVarsMeaningBrine.
  destruct (waterEnabled I) eqn:Ew, (compositionSwitchEnabled I) eqn:Ec;
    destruct (primaryVarsMeaningGas_ pv) eqn:Eg; simpl; rewrite ?Eg; simpl;
    repeat split; intros; try discriminate; try reflexivity; try assumption;
    rewrite ?at_setGas;
    try (rewrite at_assign_ne by assumption);
    try (apply at_assign_eq; try apply validIdx_assign; assumption);
    try reflexivity; try congruence.
Qed.

(** C5, as amended.  When the water meaning is the saturation, the stored
    water saturation is at least the threshold of the all-water cell (the
    static: [1 - eps] of the first call of the run, hence [1 - eps] of this
    call when it is the first one) and dissolved gas in water is not
    modelled, the call returns [true] exactly when the gas meaning before
    the call was not the saturation, and leaves the water and pressure
    meanings as they are; with water enabled it sets the water slot to [1],
    and with the composition switch enabled it sets the gas slot to [0] and
    the gas meaning to the saturation (without the composition switch the gas
    meaning stays). *)
Theorem adaptPrimaryVariables_water_filled_cell :
  forall static_ (problem : Problem) idx eps pv,
    primaryVarsMeaningWater pv = WaterMeaning.Sw ->
    thresholdWaterFilledCell static_ eps <= at_ pv (waterSwitchIdx I) ->
    enableDissolvedGasInWater FS = false ->
    let r := snd (adapt static_ problem idx eps pv) in
    fst r = negb (GasMeaning.eqb (primaryVarsMeaningGas pv) GasMeaning.Sg)
    /\ primaryVarsMeaningWater (snd r) = WaterMeaning.Sw
    /\ primaryVarsMeaningPressure (snd r) = primaryVarsMeaningPressure pv
    /\ (waterEnabled I = true -> validIdx pv (waterSwitchIdx I) ->
        waterSwitchIdx I <> compositionSwitchIdx I ->
        at_ (snd r) (waterSwitchIdx I) = 1)
    /\ (compositionSwitchEnabled I = true -> validIdx pv (compositionSwitchIdx I) ->
        at_ (snd r) (compositionSwitchIdx I) = 0
        /\ primaryVarsMeaningGas (snd r) = GasMeaning.Sg)
    /\ (compositionSwitchEnabled I = false ->
        primaryVarsMeaningGas (snd r) = primaryVarsMeaningGas pv).
Proof.
  intros static_ problem idx eps pv Hw Hsw Hdgiw.
  unfold adaptPrimaryVariables. cbn [snd]. cbv zeta.
  unfold adaptPrimaryVariablesBody_. rewrite Hw. cbn [WaterMeaning.eqb andb].
  unfold read_sw. rewrite Hw. cbn [WaterMeaning.eqb].
  apply Qgeb_true in Hsw. rewrite Hsw, Hdgiw. cbn [negb andb].
  destruct (adaptBrine_frame eps pv) as (Fw & Fg & Fp & _ & Fl).
  destruct (adaptBrine_ I P M eps pv) as [pv1 salt]. cbn [fst snd] in *.
  assert (Hv : forall i, validIdx pv i -> validIdx pv1 i).
  { intros i. unfold validIdx, FieldVector.valid. rewrite Fl. tauto. }
  destruct (waterFilledCell_spec pv1) as (S1 & S2 & S3 & _ & S4 & _ & S5 & S6).
  rewrite S1, S2, S3, Fw, Fg, Fp, Hw.
  repeat split; auto.
  - apply S5; auto.
  - apply S5; auto.
  - intros Hc. rewrite S6 by exact Hc. exact Fg.
Qed.

(** The gas switch when no gas saturation is positive: it may turn the
    gas saturation into the dissolved gas fraction, and touches nothing but
    the composition slot and the gas meaning. *)
Lemma adaptGas_no_gas (problem : Problem) idx eps sw sg T changed pv :
  0 <= eps -> sg < - eps ->
  primaryVarsMeaningGas pv = GasMeaning.Sg \/ primaryVarsMeaningGas pv = GasMeaning.Disabled ->
  let r := adaptGas problem idx eps sw sg T changed pv in
  (changed = true -> fst r = true)
  /\ primaryVarsMeaningWater (snd r) = primaryVarsMeaningWater pv
  /\ primaryVarsMeaningPressure (snd r) = primaryVarsMeaningPressure pv
  /\ (forall i, i <> compositionSwitchIdx I -> at_ (snd r) i = at_ pv i).
Proof.
  intros Heps Hsg Hg. unfold adaptGas_.
  assert (Hpos : Qgtb sg 0 = false) by (apply Qgtb_false; lra).
  destruct Hg as [Hg | Hg]; rewrite Hg; cbv zeta.
  - destruct (Qltb sg (- eps) && Qgtb (1 - sw - solventSaturation_ I P pv) 0
              && enableDissolvedGas FS);
      rewrite Hpos, andb_false_r; cbn [andb fst snd]; repeat split; auto.
    intros i Hi. rewrite at_assign_ne by exact Hi. reflexivity.
  - cbn [fst snd]. repeat split; auto.
Qed.

(** The water switch for a disappearing gas phase (lines 1164-1184). *)
Lemma adaptWater_gas_disappears (problem : Problem) idx eps sw sg salt T pv :
  primaryVarsMeaningWater pv = WaterMeaning.Sw ->
  0 <= eps -> sg < - eps -> eps < sw ->
  enableDissolvedGasInWater FS = true ->
  adaptWater problem idx eps sw sg salt T pv
  = let pC := capPress (1 - sw - solventSaturation_ I P pv) 0 sw
                (materialLawParams _ problem idx) in
    let pw := at_ pv (pressureSwitchIdx I) + (pC waterPhaseIdx - pC gasPhaseIdx) in
    (true,
     assign (pressureSwitchIdx I) pw
       (setPrimaryVarsMeaningPressure PressureMeaning.Pw
          (assign (waterSwitchIdx I)
             (waterPvt_saturatedGasDissolutionFactor FS (pvtRegionIdx_ pv) T pw salt)
             (setPrimaryVarsMeaningWater WaterMeaning.Rsw pv)))).
Proof.
  intros Hw Heps Hsg Hsw Hdgiw. unfold adaptWater_. rewrite Hw.
  assert (E1 : Qltb sw (- eps) = false) by (apply Qltb_false; lra).
  assert (E2 : Qltb sg (- eps) = true) by (apply Qltb_true; exact Hsg).
  assert (E3 : Qgtb sw eps = true) by (apply Qgtb_true; exact Hsw).
  rewrite E1, E2, E3, Hdgiw. reflexivity.
Qed.

(** C4.  Gas phase disappearance: with the water meaning the saturation,
    the pressure meaning the gas pressure, a gas saturation below [-eps], a
    stored water saturation above [eps] and dissolved gas in water enabled
    (for a tolerance [eps >= 0]), the water meaning becomes the dissolved gas
    fraction with the saturated gas dissolution factor at the water pressure
    [pw = pg + (pC_water - pC_gas)] in its slot, the pressure meaning becomes
    the water pressure with [pw] in its slot, and the call returns [true]. *)
Theorem adaptPrimaryVariables_gas_phase_disappears :
  forall static_ (problem : Problem) idx eps pv,
    primaryVarsMeaningWater pv = WaterMeaning.Sw ->
    primaryVarsMeaningPressure pv = PressureMeaning.Pg ->
    read_sg I pv < - eps ->
    eps < at_ pv (waterSwitchIdx I) ->
    enableDissolvedGasInWater FS = true ->
    0 <= eps ->
    validIdx pv (waterSwitchIdx I) ->
    validIdx pv (pressureSwitchIdx I) ->
    waterSwitchIdx I <> pressureSwitchIdx I ->
    waterSwitchIdx I <> compositionSwitchIdx I ->
    pressureSwitchIdx I <> compositionSwitchIdx I ->
    let sw := at_ pv (waterSwitchIdx I) in
    let pv1 := fst (adaptBrine_ I P M eps pv) in
    let saltConcentration := snd (adaptBrine_ I P M eps pv) in
    let pg := at_ pv1 (pressureSwitchIdx I) in
    let pC := capPress (1 - sw - solventSaturation_ I P pv1) 0 sw
                (materialLawParams _ problem idx) in
    let pw := pg + (pC waterPhaseIdx - pC gasPhaseIdx) in
    let r := snd (adapt static_ problem idx eps pv) in
    fst r = true
    /\ primaryVarsMeaningWater (snd r) = WaterMeaning.Rsw
    /\ at_ (snd r) (waterSwitchIdx I)
       = waterPvt_saturatedGasDissolutionFactor FS (pvtRegionIdx_ pv)
           (temperature_ I P FS pv) pw saltConcentration
    /\ primaryVarsMeaningPressure (snd r) = PressureMeaning.Pw
    /\ at_ (snd r) (pressureSwitchIdx I) = pw.
Proof.
  intros static_ problem idx eps pv Hw Hp Hsg Hsw Hdgiw Heps Vw Vp Nwp Nwc Npc.
  cbv zeta.
  unfold adaptPrimaryVariables. cbn [snd].
  unfold adaptPrimaryVariablesBody_. rewrite Hw. cbn [WaterMeaning.eqb andb].
  rewrite Hdgiw. cbn [negb]. rewrite andb_false_r.
  assert (Hrsw : read_sw I pv = at_ pv (waterSwitchIdx I)).
  { unfold read_sw. rewrite Hw. reflexivity. }
  rewrite Hrsw.
  destruct (adaptBrine_frame eps pv) as (Fw & Fg & Fp & Fr & Fl).
  destruct (adaptBrine_ I P M eps pv) as [pv1 salt]. cbn [fst snd] in *.
  assert (Hv : forall i, validIdx pv i -> validIdx pv1 i).
  { intros i. unfold validIdx, FieldVector.valid. rewrite Fl. tauto. }
  (* the water switch *)
  rewrite (adaptWater_gas_disappears problem idx eps _ _ salt _ pv1)
    by (auto; rewrite Fw; exact Hw).
  cbv beta iota zeta.
  (* the gas switch *)
  match goal with
  | |- context [adaptGas_ _ _ _ _ _ _ ?pb ?i ?e ?sw ?sg ?T ?c ?pv2] =>
      pose proof (adaptGas_no_gas pb i e sw sg T c pv2 Heps Hsg) as G;
      set (pvW := pv2) in *
  end.
  assert (Hg2 : primaryVarsMeaningGas pvW = GasMeaning.Sg
                \/ primaryVarsMeaningGas pvW = GasMeaning.Disabled).
  { subst pvW. unfold primaryVarsMeaningGas in *. cbn. rewrite Fg.
    unfold read_sg, primaryVarsMeaningGas in Hsg.
    destruct (primaryVarsMeaningGas_ pv); cbn in Hsg; auto; lra. }
  specialize (G Hg2). cbv zeta in G. destruct G as (G1 & G2 & G3 & G4).
  rewrite G1 by reflexivity. rewrite G2, G3.
  rewrite (G4 (waterSwitchIdx I)) by exact Nwc.
  rewrite (G4 (pressureSwitchIdx I)) by exact Npc.
  subst pvW. repeat split.
  - rewrite at_assign_ne by exact Nwp. rewrite at_setPressure.
    rewrite at_assign_eq by (apply validIdx_setWater, Hv, Vw).
    unfold primaryVarsMeaningWater, setPrimaryVarsMeaningWater. cbn. rewrite Fr.
    reflexivity.
  - apply at_assign_eq. apply validIdx_setPressure, validIdx_assign, validIdx_setWater, Hv, Vp.
Qed.

(** *** Clamping and normalising the saturations *)

Lemma chop_cases x :
  (x <= 0 /\ chop x = 0) \/ (0 <= x <= 1 /\ chop x = x) \/ (1 <= x /\ chop x = 1).
Proof.
  unfold chop, std_max, std_min.
  destruct (Qltb x 0) eqn:E1.
  - apply Qltb_true in E1. left. split; [lra|].
    destruct (Qltb 1 0) eqn:E2; [apply Qltb_true in E2; lra | reflexivity].
  - apply Qltb_false in E1. destruct (Qltb 1 x) eqn:E2.
    + apply Qltb_true in E2. right; right. split; [lra | reflexivity].
    + apply Qltb_false in E2. right; left. split; [lra | reflexivity].
Qed.

(** The sum of the clamped saturations is at least one when the oil
    saturation is the remainder: the assertion [st > 0.5] of the source
    cannot fail. *)
Lemma chop_sum_ge_1 sw sg ssol :
  1 <= chop sw + chop (1 - sw - sg - ssol) + chop sg + chop ssol.
Proof.
  destruct (chop_cases sw) as [[? ->]|[[? ->]|[? ->]]];
  destruct (chop_cases sg) as [[? ->]|[[? ->]|[? ->]]];
  destruct (chop_cases ssol) as [[? ->]|[[? ->]|[? ->]]];
  destruct (chop_cases (1 - sw - sg - ssol)) as [[? ->]|[[? ->]|[? ->]]];
  lra.
Qed.

Lemma chop_bounds x : 0 <= chop x <= 1.
Proof. destruct (chop_cases x) as [[? ->]|[[? ->]|[? ->]]]; lra. Qed.

Lemma Qdiv_unit_interval a st : 0 <= a -> a <= st -> 0 < st -> 0 <= a / st <= 1.
Proof.
  intros Ha Hst Hpos. split.
  - apply Qle_shift_div_l; [exact Hpos | lra].
  - apply Qle_shift_div_r; [exact Hpos | lra].
Qed.

(** What [chopAndNormalizeSaturations] stores, seen through
    [readSaturations_]. *)
Lemma chopAndNormalizeSaturations_reads pv :
  WaterMeaning.eqb (primaryVarsMeaningWater pv) WaterMeaning.Disabled
    && GasMeaning.eqb (primaryVarsMeaningGas pv) GasMeaning.Disabled = false ->
  saturationSlotsOk I P pv ->
  let '(sw, so, sg, ssol) := readSaturations_ I P pv in
  let st := chop sw + chop so + chop sg + chop ssol in
  let r := chopAndNormalizeSaturations I P pv in
  let '(sw', so', sg', ssol') := readSaturations_ I P (snd r) in
  fst r = negb (Qeq_bool st 1)
  /\ sw' == chop sw / st /\ sg' == chop sg / st /\ ssol' == chop ssol / st
  /\ so' = 1 - sw' - sg' - ssol'
  /\ primaryVarsMeaningWater (snd r) = primaryVarsMeaningWater pv
  /\ primaryVarsMeaningGas (snd r) = primaryVarsMeaningGas pv.
Proof.
  intros Hd (Vw & Vg & Vs & Nwc & Nws & Ncs).
  unfold readSaturations_, chopAndNormalizeSaturations. rewrite Hd.
  unfold primaryVarsMeaningWater, primaryVarsMeaningGas in *.
  cbv zeta. cbn [fst snd].
  assert (C0 : chop 0 = 0) by reflexivity.
  destruct (primaryVarsMeaningWater_ pv) eqn:Ew; cbn [WaterMeaning.eqb];
    destruct (primaryVarsMeaningGas_ pv) eqn:Eg; cbn [GasMeaning.eqb];
    destruct (enableSolvent P) eqn:Es;
    try discriminate Hd;
    (split; [reflexivity|]); cbn [primaryVarsMeaningWater_ primaryVarsMeaningGas_ assign];
    rewrite ?Ew, ?Eg; cbn [WaterMeaning.eqb GasMeaning.eqb];
    repeat match goal with
    | |- context [at_ (assign ?i ?x ?p) ?i] =>
        rewrite (at_assign_eq p i x) by (rewrite ?validIdx_assign; auto)
    | |- context [at_ (assign ?j ?x ?p) ?i] =>
        rewrite (at_assign_ne p i j x) by congruence
    end;
    rewrite ?C0; repeat split; try reflexivity; unfold Qdiv; ring.
Qed.

(** C7, as amended.  Unless the water and the gas variable are both
    disabled (then nothing is done and [false] is returned), for any values
    of the saturation slots, with the oil saturation the remainder,
    [chopAndNormalizeSaturations] stores each clamped saturation divided by
    the sum [st] of the four clamped saturations, so that the four
    saturations lie in [[0,1]] and sum to one; it returns [true] exactly
    when the sum [st] after clamping differs from one (the sum before
    clamping is one by construction). *)
Theorem chopAndNormalizeSaturations_normalizes :
  forall pv,
    WaterMeaning.eqb (primaryVarsMeaningWater pv) WaterMeaning.Disabled
      && GasMeaning.eqb (primaryVarsMeaningGas pv) GasMeaning.Disabled = false ->
    saturationSlotsOk I P pv ->
    let '(sw, so, sg, ssol) := readSaturations_ I P pv in
    let st := chop sw + chop so + chop sg + chop ssol in
    let r := chopAndNormalizeSaturations I P pv in
    let '(sw', so', sg', ssol') := readSaturations_ I P (snd r) in
    sw + so + sg + ssol == 1
    /\ 1 <= st
    /\ (sw' == chop sw / st /\ so' == chop so / st
        /\ sg' == chop sg / st /\ ssol' == chop ssol / st)
    /\ (0 <= sw' <= 1 /\ 0 <= so' <= 1 /\ 0 <= sg' <= 1 /\ 0 <= ssol' <= 1)
    /\ sw' + so' + sg' + ssol' == 1
    /\ (fst r = true <-> ~ st == 1).
Proof.
  intros pv Hd Hok.
  pose proof (chopAndNormalizeSaturations_reads pv Hd Hok) as R.
  destruct (readSaturations_ I P pv) as [[[sw so] sg] ssol] eqn:E.
  assert (Hso : so = 1 - sw - sg - ssol).
  { unfold readSaturations_ in E. cbv zeta in E. congruence. }
  cbv zeta in R. cbv zeta.
  destruct (readSaturations_ I P (snd (chopAndNormalizeSaturations I P pv)))
    as [[[sw' so'] sg'] ssol'].
  destruct R as (R1 & Rw & Rg & Rs & Ro & _ & _). rewrite R1.
  set (st := chop sw + chop so + chop sg + chop ssol) in *.
  assert (Hst : 1 <= st). { subst st so. apply chop_sum_ge_1. }
  assert (Hne : ~ st == 0) by lra.
  pose proof (chop_bounds sw) as Bw. pose proof (chop_bounds so) as Bo.
  pose proof (chop_bounds sg) as Bg. pose proof (chop_bounds ssol) as Bs.
  assert (Hsum : st == chop sw + chop so + chop sg + chop ssol) by reflexivity.
  clearbody st.
  assert (Eo : so' == chop so / st).
  { assert (Hc : chop so == st - chop sw - chop sg - chop ssol) by lra.
    rewrite Ro, Rw, Rg, Rs, Hc. field. exact Hne. }
  split; [subst so; ring|].
  split; [exact Hst|].
  split; [repeat split; assumption|].
  split.
  { rewrite Eo, Rw, Rg, Rs. repeat split;
      apply Qdiv_unit_interval; lra. }
  split; [subst so'; ring|].
  rewrite negb_true_iff, <- not_true_iff_false, Qeq_bool_iff. reflexivity.
Qed.

(** *** Repeating a call *)



(** The water and the gas switch report every change they make. *)
Lemma adaptWater_unreported (problem : Problem) idx eps sw sg salt T pv :
  fst (adaptWater problem idx eps sw sg salt T pv) = false ->
  snd (adaptWater problem idx eps sw sg salt T pv) = pv.
Proof.
  unfold adaptWater_. destruct (primaryVarsMeaningWater pv); cbv zeta.
  - destruct (_ && _ && enableVaporizedWater FS); [discriminate|].
    destruct (_ && _ && enableDissolvedGasInWater FS); [discriminate | reflexivity].
  - destruct (Qgtb _ _); [discriminate | reflexivity].
  - destruct (Qgtb _ _); [discriminate | reflexivity].
  - reflexivity.
Qed.

Lemma adaptGas_unreported (problem : Problem) idx eps sw sg T changed pv :
  fst (adaptGas problem idx eps sw sg T changed pv) = false ->
  changed = false /\ snd (adaptGas problem idx eps sw sg T changed pv) = pv.
Proof.
  unfold adaptGas_. destruct (primaryVarsMeaningGas pv); cbv zeta.
  - destruct (_ && _ && enableDissolvedGas FS); cbv beta iota;
      destruct (_ && _ && enableVaporizedOil FS); cbn [fst snd];
      intros H; try discriminate H; auto.
  - destruct (Qgtb _ _); cbn [fst snd]; intros H; try discriminate H; auto.
  - destruct (Qgtb _ _); cbn [fst snd]; intros H; try discriminate H; auto.
  - cbn [fst snd]; auto.
Qed.

Lemma adaptWater_brine (problem : Problem) idx eps sw sg salt T pv :
  primaryVarsMeaningBrine (snd (adaptWater problem idx eps sw sg salt T pv))
  = primaryVarsMeaningBrine pv.
Proof.
  unfold adaptWater_. destruct (primaryVarsMeaningWater pv); cbv zeta;
    repeat match goal with |- context [if ?b then _ else _] => destruct b end;
    reflexivity.
Qed.

Lemma adaptGas_brine (problem : Problem) idx eps sw sg T changed pv :
  primaryVarsMeaningBrine (snd (adaptGas problem idx eps sw sg T changed pv))
  = primaryVarsMeaningBrine pv.
Proof.
  unfold adaptGas_. destruct (primaryVarsMeaningGas pv); cbv zeta;
    repeat match goal with |- context [if ?b then _ else _] => destruct b end;
    reflexivity.
Qed.



End PrimaryVariables.

(** ** The primary variables on concrete cells *)

Section PrimaryVariablesExamples.

Import BlackOilPrimaryVariables Examples.

Local Abbreviation adapt3 FS :=
  (adaptPrimaryVariables threePhaseIndices (plainProperties true) FS moduleOracles
     Q (fun scale => capillaryPressures scale)).

(** The witness of C4: the gas phase disappears from a cell with
    [sw = 0.995], [sg = -2e-6] at the tolerance [1e-6]. *)
Lemma adaptPrimaryVariables_gas_phase_disappears_witness :
  let r := snd (adapt3 fluidSystemAll None problem 0%nat (1 # 1000000) gasDisappears) in
  fst r = true
  /\ primaryVarsMeaningWater (snd r) = WaterMeaning.Rsw
  /\ primaryVarsMeaningPressure (snd r) = PressureMeaning.Pw
  /\ at_ (snd r) (waterSwitchIdx threePhaseIndices)
     = waterPvt_saturatedGasDissolutionFactor fluidSystemAll 0 300
         (at_ (snd r) (pressureSwitchIdx threePhaseIndices)) 0.
Proof.
  pose proof (adaptPrimaryVariables_gas_phase_disappears
                threePhaseIndices (plainProperties true) fluidSystemAll moduleOracles
                Q (fun scale => capillaryPressures scale)
                None problem 0%nat (1 # 1000000) gasDisappears) as T.
  cbv zeta in T |- *.
  destruct T as (T1 & T2 & T3 & T4 & T5);
    try reflexivity; try discriminate;
    try (unfold validIdx, FieldVector.valid; cbn; lia).
  split; [exact T1|]. split; [exact T2|]. split; [exact T4|].
  rewrite T3, T5. reflexivity.
Defined.

(** The witness of C5 (amended): the near-dry-gas scenario, a first call
    on a cell with [sw = 0.999999] at the tolerance [1e-6]. *)
Lemma adaptPrimaryVariables_water_filled_cell_witness :
  let r := snd (adapt3 fluidSystemNoGasInWater None problem 0%nat (1 # 1000000)
                  nearlyAllWater) in
  fst r = true
  /\ at_ (snd r) (waterSwitchIdx threePhaseIndices) = 1
  /\ at_ (snd r) (compositionSwitchIdx threePhaseIndices) = 0
  /\ primaryVarsMeaningGas (snd r) = GasMeaning.Sg.
Proof.
  pose proof (adaptPrimaryVariables_water_filled_cell
                threePhaseIndices (plainProperties true) fluidSystemNoGasInWater
                moduleOracles Q (fun scale => capillaryPressures scale)
                None problem 0%nat (1 # 1000000) nearlyAllWater) as T.
  cbv zeta in T |- *.
  destruct T as (T1 & _ & _ & T4 & T5 & _);
    try reflexivity; try discriminate.
  split; [exact T1|].
  split.
  - apply T4; try reflexivity; try discriminate.
    unfold validIdx, FieldVector.valid; cbn; lia.
  - apply T5; try reflexivity. unfold validIdx, FieldVector.valid; cbn; lia.
Defined.

(** The counterexample of C5.  (1) In the water-oil layout there is no
    composition switch: a first call on a water-filled cell sets the water
    slot but leaves the gas meaning [Disabled].  (2) After a first call with
    [eps = 0], a call with [eps = 1/2] on a cell with [sw = 3/4 >= 1 - 1/2]
    does not force anything: the threshold still is [1]. *)
Lemma adaptPrimaryVariables_water_filled_cell_counterexample :
  ~ Stated.water_filled_cell_forced waterOilIndices (plainProperties true)
      fluidSystemWaterOil moduleOracles Q (fun scale => capillaryPressures scale)
      None problem 0%nat 0 waterOilAllWater
  /\ ~ Stated.water_filled_cell_forced threePhaseIndices (plainProperties true)
        fluidSystemNoGasInWater moduleOracles Q (fun scale => capillaryPressures scale)
        (fst (adapt3 fluidSystemNoGasInWater None problem 0%nat 0 allWater))
        problem 0%nat (1 # 2) mostlyWater.
Proof.
  split; intros H.
  - destruct H as (_ & _ & H & _);
      [reflexivity | vm_compute; discriminate | reflexivity | ].
    vm_compute in H. discriminate H.
  - destruct H as (H & _);
      [reflexivity | vm_compute; discriminate | reflexivity | ].
    vm_compute in H. discriminate H.
Qed.

(** C6.  The returned flag and the changes of the meanings disagree.
    (1) With salt precipitation, a call that turns the precipitated salt
    saturation into the salt concentration returns [false].  (2) In the
    water-oil layout a call on a water-filled cell returns [true] and leaves
    all four meanings as they were. *)
Theorem adaptPrimaryVariables_flag_disagrees_with_meanings :
  (let r := snd (adaptPrimaryVariables saltIndices saltProperties fluidSystemAll
                   moduleOracles Q (fun scale => capillaryPressures scale)
                   None problem 0%nat 0 saltDissolves) in
   fst r = false
   /\ primaryVarsMeaningBrine saltDissolves = BrineMeaning.Sp
   /\ primaryVarsMeaningBrine (snd r) = BrineMeaning.Cs)
  /\ (let r := snd (adaptPrimaryVariables waterOilIndices (plainProperties true)
                      fluidSystemWaterOil moduleOracles Q
                      (fun scale => capillaryPressures scale)
                      None problem 0%nat 0 waterOilAllWater) in
      fst r = true
      /\ primaryVarsMeaningWater (snd r) = primaryVarsMeaningWater waterOilAllWater
      /\ primaryVarsMeaningGas (snd r) = primaryVarsMeaningGas waterOilAllWater
      /\ primaryVarsMeaningPressure (snd r) = primaryVarsMeaningPressure waterOilAllWater
      /\ primaryVarsMeaningBrine (snd r) = primaryVarsMeaningBrine waterOilAllWater).
Proof.
  split; cbv zeta; repeat split; vm_compute; reflexivity.
Qed.

(** The witness of C7 (amended): [sw = -1/2], [sg = 1/2], hence [so = 1]
    and the sum of the clamped saturations is [3/2]. *)
Lemma chopAndNormalizeSaturations_normalizes_witness :
  let r := chopAndNormalizeSaturations threePhaseIndices (plainProperties true)
             negativeWater in
  let '(sw', so', sg', ssol') :=
    readSaturations_ threePhaseIndices (plainProperties true) (snd r) in
  fst r = true /\ sw' == 0 /\ so' == 2 # 3 /\ sg' == 1 # 3 /\ ssol' == 0.
Proof.
  pose proof (chopAndNormalizeSaturations_normalizes
                threePhaseIndices (plainProperties true) negativeWater) as T.
  assert (Hd : WaterMeaning.eqb (primaryVarsMeaningWater negativeWater) WaterMeaning.Disabled
               && GasMeaning.eqb (primaryVarsMeaningGas negativeWater) GasMeaning.Disabled
               = false) by reflexivity.
  assert (Hok : saturationSlotsOk threePhaseIndices (plainProperties true) negativeWater).
  { unfold saturationSlotsOk, validIdx, FieldVector.valid. cbn.
    repeat split; try lia; try discriminate. }
  specialize (T Hd Hok).
  change (readSaturations_ threePhaseIndices (plainProperties true) negativeWater)
    with (- (1 # 2), 1 - - (1 # 2) - (1 # 2) - 0, 1 # 2, 0) in T.
  cbv zeta in T |- *.
  destruct (readSaturations_ threePhaseIndices (plainProperties true)
              (snd (chopAndNormalizeSaturations threePhaseIndices (plainProperties true)
                      negativeWater))) as [[[sw' so'] sg'] ssol'].
  destruct T as (_ & _ & (Tw & To & Tg & Ts) & _ & _ & Tr).
  split; [apply Tr; vm_compute; discriminate|].
  split; [rewrite Tw; reflexivity|].
  split; [rewrite To; reflexivity|].
  split; [rewrite Tg; reflexivity | rewrite Ts; reflexivity].
Defined.

(** The counterexample of C7: for [sw = -1/2], [sg = 1/2] the oil
    saturation is the remainder [1], the sum before clamping is one, and
    the function returns [true]. *)
Lemma chopAndNormalizeSaturations_counterexample :
  ~ Stated.returns_true_iff_preclamp_sum_differs threePhaseIndices (plainProperties true)
      negativeWater.
Proof.
  unfold Stated.returns_true_iff_preclamp_sum_differs.
  change (readSaturations_ threePhaseIndices (plainProperties true) negativeWater)
    with (- (1 # 2), 1 - - (1 # 2) - (1 # 2) - 0, 1 # 2, 0).
  intros [H _]. apply H; reflexivity.
Qed.



End PrimaryVariablesExamples.

(** ** Evaluations *)

#[global] Instance Eval_equiv_Equivalence : Equivalence Eval.equiv.
Proof.
  split.
  - intros a. split; [reflexivity | intros i; reflexivity].
  - intros a b [H1 H2]. split; [symmetry; exact H1 | intros i; symmetry; apply H2].
  - intros a b c [H1 H2] [H3 H4].
    split; [rewrite H1; exact H3 | intros i; rewrite H2; apply H4].
Qed.

#[global] Instance Eval_value_Proper : Proper (Eval.equiv ==> Qeq) value.
Proof. intros a b [H _]. exact H. Qed.

#[global] Instance Eval_add_Proper : Proper (Eval.equiv ==> Eval.equiv ==> Eval.equiv) Eval.add.
Proof.
  intros a b [H1 H2] c d [H3 H4]. split; cbn.
  - rewrite H1, H3. reflexivity.
  - intros i. rewrite H2, H4. reflexivity.
Qed.

#[global] Instance Eval_mul_Proper : Proper (Eval.equiv ==> Eval.equiv ==> Eval.equiv) Eval.mul.
Proof.
  intros a b [H1 H2] c d [H3 H4]. split; cbn.
  - rewrite H1, H3. reflexivity.
  - intros i. rewrite H1, H2, H3, H4. reflexivity.
Qed.

#[global] Instance Eval_muls_Proper : Proper (Eval.equiv ==> Qeq ==> Eval.equiv) Eval.muls.
Proof.
  intros a b [H1 H2] c d H3. split; cbn.
  - rewrite H1, H3. reflexivity.
  - intros i. rewrite H2, H3. reflexivity.
Qed.

#[global] Instance Eval_smul_Proper : Proper (Qeq ==> Eval.equiv ==> Eval.equiv) Eval.smul.
Proof.
  intros c d H3 a b [H1 H2]. split; cbn.
  - rewrite H1, H3. reflexivity.
  - intros i. rewrite H2, H3. reflexivity.
Qed.

(** A scalar factor is a factor without derivatives. *)
Lemma Eval_smul_const c a : Eval.equiv (Eval.smul c a) (Eval.mul (Eval.const c) a).
Proof. split; cbn; [reflexivity | intros i; ring]. Qed.

Lemma Eval_muls_const a c : Eval.equiv (Eval.muls a c) (Eval.mul a (Eval.const c)).
Proof. split; cbn; [reflexivity | intros i; ring]. Qed.

(** ** Vectors of equations *)

Section EqVectorFacts.

Context {L : Type} `{Inhabited L}.

Lemma EqVector_length_add_at (add : L -> L -> L) i x (v : list L) :
  length (EqVector.add_at add i x v) = length v.
Proof. apply length_alter. Qed.

Lemma EqVector_length_scale_at (scale : L -> Q -> L) i c (v : list L) :
  length (EqVector.scale_at scale i c v) = length v.
Proof. apply length_alter. Qed.

Lemma EqVector_length_set i x (v : list L) : length (EqVector.set i x v) = length v.
Proof. apply length_insert. Qed.

Lemma EqVector_get_add_at_eq (add : L -> L -> L) i x (v : list L) :
  (i < length v)%nat ->
  EqVector.get (EqVector.add_at add i x v) i = add (EqVector.get v i) x.
Proof.
  intros Hi. unfold EqVector.get, EqVector.add_at.
  exact (list_lookup_total_alter_eq (fun y => add y x) v i Hi).
Qed.

Lemma EqVector_get_add_at_ne (add : L -> L -> L) i j x (v : list L) :
  i <> j -> EqVector.get (EqVector.add_at add j x v) i = EqVector.get v i.
Proof.
  intros Hne. unfold EqVector.get, EqVector.add_at.
  apply list_lookup_total_alter_ne. congruence.
Qed.

Lemma EqVector_get_scale_at_eq (scale : L -> Q -> L) i c (v : list L) :
  (i < length v)%nat ->
  EqVector.get (EqVector.scale_at scale i c v) i = scale (EqVector.get v i) c.
Proof.
  intros Hi. unfold EqVector.get, EqVector.scale_at.
  exact (list_lookup_total_alter_eq (fun y => scale y c) v i Hi).
Qed.

Lemma EqVector_get_scale_at_ne (scale : L -> Q -> L) i j c (v : list L) :
  i <> j -> EqVector.get (EqVector.scale_at scale j c v) i = EqVector.get v i.
Proof.
  intros Hne. unfold EqVector.get, EqVector.scale_at.
  apply list_lookup_total_alter_ne. congruence.
Qed.

Lemma EqVector_get_set_eq i x (v : list L) :
  (i < length v)%nat -> EqVector.get (EqVector.set i x v) i = x.
Proof. intros Hi. unfold EqVector.get, EqVector.set. apply list_lookup_total_insert_eq, Hi. Qed.

Lemma EqVector_get_set_ne i j x (v : list L) :
  i <> j -> EqVector.get (EqVector.set j x v) i = EqVector.get v i.
Proof.
  intros Hne. unfold EqVector.get, EqVector.set.
  apply list_lookup_total_insert_ne. congruence.
Qed.

Lemma EqVector_get_replicate n (x : L) i :
  (i < n)%nat -> EqVector.get (replicate n x) i = x.
Proof. intros Hi. unfold EqVector.get. apply lookup_total_replicate_2, Hi. Qed.

(** Beyond its end a vector reads as the default value. *)
Lemma EqVector_get_beyond (v : list L) i :
  (length v <= i)%nat -> EqVector.get v i = inhabitant.
Proof.
  intros Hi. unfold EqVector.get. rewrite list_lookup_total_alt.
  rewrite lookup_ge_None_2 by exact Hi. reflexivity.
Qed.

End EqVectorFacts.

(** ** The fluxes over a face *)

Section Fluxes.

Import BlackOilLocalResidualTPFA.

Variable I : Indices.
Variable P : Properties.
Variable FS : FluidSystem.
Variable calculatePhasePressureDiff_ :
  IntensiveQuantities -> IntensiveQuantities -> Phase -> Z -> Z ->
  Scalar -> Scalar -> nat -> nat -> Scalar -> Scalar -> PhasePressureDiff.

(** The entry of [darcy] that a phase writes. *)
Lemma fluxPhase_darcy iqIn iqEx Vin Vex gIn gEx distZg thpres trans faceArea facedir
    flux darcy ph :
  phaseIsActive FS ph = true ->
  snd (fluxPhase_ I P FS calculatePhasePressureDiff_ iqIn iqEx Vin Vex gIn gEx
         distZg thpres trans faceArea facedir (flux, darcy) ph)
  = EqVector.set (eqIdx I (solventComponentIndex ph))
      (Eval.const
         (value (phaseDarcyFlux_ calculatePhasePressureDiff_ iqIn iqEx Vin Vex gIn gEx
                   distZg thpres trans faceArea facedir ph) * faceArea))
      darcy.
Proof.
  intros Ha. unfold fluxPhase_, phaseDarcyFlux_. rewrite Ha. cbn [negb]. cbv zeta.
  destruct (Nat.eqb _ gIn); reflexivity.
Qed.


(** *** The values of the fluxes *)

Lemma value_get_add_at (v : RateVector) i j x :
  (i < length v)%nat ->
  value (EqVector.get (EqVector.add_at Eval.add j x v) i)
  == value (EqVector.get v i) + (if Nat.eqb i j then value x else 0).
Proof.
  intros Hi. destruct (Nat.eqb_spec i j) as [->|Hne].
  - rewrite EqVector_get_add_at_eq by exact Hi. reflexivity.
  - rewrite EqVector_get_add_at_ne by exact Hne. ring.
Qed.

Lemma evalPhaseFluxes_length {U A : Type} `{UpEval U} `{Decay A U}
    (flux : RateVector) ph region svf (upFs : FluidState A) :
  length (evalPhaseFluxes_ I P FS flux ph region svf upFs) = length flux.
Proof.
  unfold evalPhaseFluxes_. cbv zeta.
  destruct ph;
    repeat match goal with |- context [if ?b then _ else _] => destruct b end;
    rewrite ?EqVector_length_add_at; reflexivity.
Qed.

Ltac flux_values :=
  unfold evalPhaseFluxes_, fluxCoefficient, conservedFactor,
    getRs_, getRsw_, getRv_, getRvw_; cbv zeta;
  match goal with |- context [match ?ph with waterPhaseIdx => _ | _ => _ end] =>
    destruct ph end;
  destruct (blackoilConserveSurfaceVolume P);
  repeat match goal with
  | |- context [if enableDissolvedGas FS then _ else _] => destruct (enableDissolvedGas FS)
  | |- context [if enableDissolvedGasInWater FS then _ else _] =>
      destruct (enableDissolvedGasInWater FS)
  | |- context [if enableVaporizedOil FS then _ else _] => destruct (enableVaporizedOil FS)
  | |- context [if enableVaporizedWater FS then _ else _] =>
      destruct (enableVaporizedWater FS)
  end;
  cbn [andb];
  rewrite ?value_get_add_at by (rewrite ?EqVector_length_add_at; assumption);
  repeat match goal with |- context [Nat.eqb ?a ?b] => destruct (Nat.eqb a b) end;
  cbn; ring.

(** The values that [evalPhaseFluxes_] adds, with the upwind quantities as
    evaluations and as scalars. *)
Lemma evalPhaseFluxes_value_Evaluation (flux : RateVector) ph region svf
    (upFs : FluidState Evaluation) i :
  (i < length flux)%nat ->
  value (EqVector.get (evalPhaseFluxes_ I P FS (U := Evaluation) flux ph region svf upFs) i)
  == value (EqVector.get flux i)
     + value svf * fluxCoefficient I P FS ph region (value (Rs upFs)) (value (Rsw upFs))
                     (value (Rv upFs)) (value (Rvw upFs)) i.
Proof. intros Hi. flux_values. Qed.

Lemma evalPhaseFluxes_value_Scalar (flux : RateVector) ph region svf
    (upFs : FluidState Evaluation) i :
  (i < length flux)%nat ->
  value (EqVector.get (evalPhaseFluxes_ I P FS (U := Scalar) flux ph region svf upFs) i)
  == value (EqVector.get flux i)
     + value svf * fluxCoefficient I P FS ph region (value (Rs upFs)) (value (Rsw upFs))
                     (value (Rv upFs)) (value (Rvw upFs)) i.
Proof. intros Hi. flux_values. Qed.

(** The value of the Darcy flux does not depend on the side of the upwind
    cell. *)
Lemma darcyFlux_value pd up gUp gIn ph trans faceArea facedir :
  value (darcyFlux_ pd up gUp gIn ph trans faceArea facedir)
  == value pd * (value (mobility up ph facedir) * value (rockCompTransMultiplier up)
                 * (- trans / faceArea)).
Proof.
  unfold darcyFlux_, Eval.eqs. cbv zeta.
  destruct (Qeq_bool (value pd) 0) eqn:E.
  - apply Qeq_bool_iff in E. cbn. rewrite E. ring.
  - destruct (Nat.eqb gUp gIn); cbn; ring.
Qed.

Lemma fluxPhase_length iqIn iqEx Vin Vex gIn gEx distZg thpres trans faceArea facedir
    flux darcy ph :
  let r := fluxPhase_ I P FS calculatePhasePressureDiff_ iqIn iqEx Vin Vex gIn gEx
             distZg thpres trans faceArea facedir (flux, darcy) ph in
  length (fst r) = length flux /\ length (snd r) = length darcy.
Proof.
  unfold fluxPhase_. cbv zeta. destruct (phaseIsActive FS ph); cbn [negb]; [|tauto].
  destruct (Nat.eqb _ gIn); cbn [fst snd];
    rewrite evalPhaseFluxes_length, EqVector_length_set; tauto.
Qed.

(** The values of the fluxes after the contribution of one phase. *)
Lemma fluxPhase_value iqIn iqEx Vin Vex gIn gEx distZg thpres trans faceArea facedir
    flux darcy ph i :
  (i < length flux)%nat ->
  let r := calculatePhasePressureDiff_ iqIn iqEx ph interiorDofIdx exteriorDofIdx
             Vin Vex gIn gEx distZg thpres in
  value (EqVector.get
           (fst (fluxPhase_ I P FS calculatePhasePressureDiff_ iqIn iqEx Vin Vex gIn gEx
                   distZg thpres trans faceArea facedir (flux, darcy) ph)) i)
  == value (EqVector.get flux i)
     + (if phaseIsActive FS ph
        then value (pressureDifference r)
             * upwindCoefficient I P FS (upwind_ iqIn iqEx r) ph trans faceArea facedir i
        else 0).
Proof.
  intros Hi. cbv zeta. unfold fluxPhase_, upwindCoefficient, upwind_. cbv zeta.
  destruct (phaseIsActive FS ph); cbn [negb fst]; [|ring].
  set (r := calculatePhasePressureDiff_ iqIn iqEx ph interiorDofIdx exteriorDofIdx
              Vin Vex gIn gEx distZg thpres).
  set (up := if Z.eqb (upIdx r) interiorDofIdx then iqIn else iqEx).
  set (gUp := if Z.eqb (upIdx r) interiorDofIdx then gIn else gEx).
  destruct (Nat.eqb gUp gIn); cbn [fst].
  - rewrite evalPhaseFluxes_value_Evaluation by exact Hi.
    unfold getInvB_. cbn [decay Decay_Evaluation_Evaluation Eval.mul value].
    rewrite darcyFlux_value. ring.
  - rewrite evalPhaseFluxes_value_Scalar by exact Hi.
    unfold getInvB_. cbn [decay Decay_Evaluation_Scalar Eval.smul value].
    rewrite darcyFlux_value. ring.
Qed.

Lemma phaseDarcyFlux_value iqIn iqEx Vin Vex gIn gEx distZg thpres trans faceArea facedir ph :
  let r := calculatePhasePressureDiff_ iqIn iqEx ph interiorDofIdx exteriorDofIdx
             Vin Vex gIn gEx distZg thpres in
  value (phaseDarcyFlux_ calculatePhasePressureDiff_ iqIn iqEx Vin Vex gIn gEx
           distZg thpres trans faceArea facedir ph)
  == value (pressureDifference r)
     * (value (mobility (upwind_ iqIn iqEx r) ph facedir)
        * value (rockCompTransMultiplier (upwind_ iqIn iqEx r))
        * (- trans / faceArea)).
Proof. cbv zeta. unfold phaseDarcyFlux_, upwind_. cbv zeta. apply darcyFlux_value. Qed.

(** *** Conservation symmetry *)

Lemma antisymmetricAt_upwind iqA iqB VA VB gA gB dAB tAB dBA tBA ph :
  antisymmetricAt calculatePhasePressureDiff_ iqA iqB VA VB gA gB dAB tAB dBA tBA ph ->
  let rAB := calculatePhasePressureDiff_ iqA iqB ph interiorDofIdx exteriorDofIdx
               VA VB gA gB dAB tAB in
  let rBA := calculatePhasePressureDiff_ iqB iqA ph interiorDofIdx exteriorDofIdx
               VB VA gB gA dBA tBA in
  ~ value (pressureDifference rAB) == 0 ->
  upwind_ iqB iqA rBA = upwind_ iqA iqB rAB.
Proof.
  intros [_ Hup]. cbv zeta in *. intros Hne. specialize (Hup Hne).
  unfold upwind_.
  destruct (Z.eqb_spec (upIdx (calculatePhasePressureDiff_ iqA iqB ph interiorDofIdx
                                 exteriorDofIdx VA VB gA gB dAB tAB)) interiorDofIdx) as [E|E];
  destruct (Z.eqb_spec (upIdx (calculatePhasePressureDiff_ iqB iqA ph interiorDofIdx
                                 exteriorDofIdx VB VA gB gA dBA tBA)) interiorDofIdx) as [E'|E'];
  try reflexivity; tauto.
Qed.

Lemma negated_replicate n : negated (replicate n (Eval.const 0)) (replicate n (Eval.const 0)).
Proof.
  split; [reflexivity|]. intros i.
  destruct (Nat.lt_ge_cases i n) as [Hi|Hi].
  - rewrite EqVector_get_replicate by exact Hi. reflexivity.
  - rewrite EqVector_get_beyond by (rewrite length_replicate; exact Hi). reflexivity.
Qed.

Lemma fluxPhase_negated iqA iqB VA VB gA gB dAB tAB dBA tBA trans faceArea facedir
    f1 d1 f2 d2 ph :
  negated f1 f2 -> negated d1 d2 ->
  (phaseIsActive FS ph = true -> antisymmetricAt calculatePhasePressureDiff_ iqA iqB VA VB gA gB dAB tAB dBA tBA ph) ->
  let rAB := fluxPhase_ I P FS calculatePhasePressureDiff_ iqA iqB VA VB gA gB
               dAB tAB trans faceArea facedir (f1, d1) ph in
  let rBA := fluxPhase_ I P FS calculatePhasePressureDiff_ iqB iqA VB VA gB gA
               dBA tBA trans faceArea facedir (f2, d2) ph in
  negated (fst rAB) (fst rBA) /\ negated (snd rAB) (snd rBA).
Proof.
  intros [Lf Hf] [Ld Hd] Hanti. cbv zeta.
  pose proof (fluxPhase_length iqA iqB VA VB gA gB dAB tAB trans faceArea facedir f1 d1 ph)
    as [L1 L2].
  pose proof (fluxPhase_length iqB iqA VB VA gB gA dBA tBA trans faceArea facedir f2 d2 ph)
    as [L3 L4].
  cbv zeta in L1, L2, L3, L4.
  split; (split; [congruence|]); intros i.
  - (* flux *)
    destruct (Nat.lt_ge_cases i (length f1)) as [Hi|Hi].
    + rewrite !fluxPhase_value by (try rewrite <- Lf; exact Hi). rewrite Hf.
      destruct (phaseIsActive FS ph); [|ring].
      specialize (Hanti eq_refl).
      pose proof (antisymmetricAt_upwind _ _ _ _ _ _ _ _ _ _ _ Hanti) as Hup.
      destruct Hanti as [Hpd _]. cbv zeta in Hpd, Hup. rewrite Hpd.
      destruct (Qeq_dec (value (pressureDifference
                  (calculatePhasePressureDiff_ iqA iqB ph interiorDofIdx exteriorDofIdx
                     VA VB gA gB dAB tAB))) 0) as [E|E].
      * rewrite E. ring.
      * rewrite (Hup E). ring.
    + rewrite !EqVector_get_beyond by lia. reflexivity.
  - (* darcy *)
    destruct (phaseIsActive FS ph) eqn:Ea.
    2:{ unfold fluxPhase_. rewrite Ea. cbn [negb snd]. apply Hd. }
    rewrite !fluxPhase_darcy by exact Ea.
    specialize (Hanti eq_refl).
    pose proof (antisymmetricAt_upwind _ _ _ _ _ _ _ _ _ _ _ Hanti) as Hup.
    destruct Hanti as [Hpd _]. cbv zeta in Hpd, Hup.
    pose proof (phaseDarcyFlux_value iqA iqB VA VB gA gB dAB tAB trans faceArea facedir ph)
      as D1.
    pose proof (phaseDarcyFlux_value iqB iqA VB VA gB gA dBA tBA trans faceArea facedir ph)
      as D2.
    cbv zeta in D1, D2.
    destruct (Nat.eq_dec i (eqIdx I (solventComponentIndex ph))) as [->|Hne].
    + destruct (Nat.lt_ge_cases (eqIdx I (solventComponentIndex ph)) (length d1)) as [Hi|Hi].
      * rewrite !EqVector_get_set_eq by (try rewrite <- Ld; exact Hi).
        cbn [value Eval.const]. rewrite D1, D2, Hpd.
        destruct (Qeq_dec (value (pressureDifference
                    (calculatePhasePressureDiff_ iqA iqB ph interiorDofIdx exteriorDofIdx
                       VA VB gA gB dAB tAB))) 0) as [E|E].
        -- rewrite E. ring.
        -- rewrite (Hup E). ring.
      * rewrite !EqVector_get_beyond by (rewrite EqVector_length_set; lia). reflexivity.
    + rewrite !EqVector_get_set_ne by exact Hne. apply Hd.
Qed.

(** C2.  Conservation symmetry: over a face between two distinct cells A
    and B whose extensive quantities are antisymmetric for every active
    phase, the values of [computeFlux] with A as interior and B as exterior
    cell are, in every equation, the negated values of the same call with B
    as interior and A as exterior cell, for [flux] and for [darcy]. *)
Theorem computeFlux_conservation_symmetry :
  forall (problem : Problem) gA gB iqA iqB trans faceArea facedir,
    (forall ph, phaseIsActive FS ph = true ->
       antisymmetricAt calculatePhasePressureDiff_ iqA iqB
         (dofTotalVolume problem gA) (dofTotalVolume problem gB) gA gB
         ((dofCenterDepth problem gA - dofCenterDepth problem gB) * gravity problem)
         (thresholdPressure problem gA gB)
         ((dofCenterDepth problem gB - dofCenterDepth problem gA) * gravity problem)
         (thresholdPressure problem gB gA) ph) ->
    let AB := computeFlux I P FS calculatePhasePressureDiff_ problem gA gB iqA iqB
                trans faceArea facedir in
    let BA := computeFlux I P FS calculatePhasePressureDiff_ problem gB gA iqB iqA
                trans faceArea facedir in
    forall i,
      value (EqVector.get (fst AB) i) == - value (EqVector.get (fst BA) i)
      /\ value (EqVector.get (snd AB) i) == - value (EqVector.get (snd BA) i).
Proof.
  intros problem gA gB iqA iqB trans faceArea facedir Hanti. cbv zeta.
  unfold computeFlux, calculateFluxes_. cbv zeta. unfold allPhases. cbn [foldl].
  pose proof (negated_replicate (numEq I)) as N0.
  set (zero := replicate (numEq I) (Eval.const 0)) in *.
  set (stepAB := fluxPhase_ I P FS calculatePhasePressureDiff_ iqA iqB _ _ gA gB _ _
                   trans faceArea facedir).
  set (stepBA := fluxPhase_ I P FS calculatePhasePressureDiff_ iqB iqA _ _ gB gA _ _
                   trans faceArea facedir).
  assert (Hstep : forall a b ph,
             negated (fst a) (fst b) -> negated (snd a) (snd b) ->
             negated (fst (stepAB a ph)) (fst (stepBA b ph))
             /\ negated (snd (stepAB a ph)) (snd (stepBA b ph))).
  { intros [f1 d1] [f2 d2] ph Nf Nd. cbn [fst snd] in Nf, Nd.
    apply fluxPhase_negated; auto. }
  destruct (Hstep (zero, zero) (zero, zero) waterPhaseIdx N0 N0) as [Nf1 Nd1].
  destruct (Hstep _ _ oilPhaseIdx Nf1 Nd1) as [Nf2 Nd2].
  destruct (Hstep _ _ gasPhaseIdx Nf2 Nd2) as [[_ Nf3] [_ Nd3]].
  intros i. split; [apply Nf3 | apply Nd3].
Qed.

End Fluxes.

(** ** The storage term *)

Section Storage.

Import BlackOilLocalResidualTPFA.

Variable I : Indices.
Variable P : Properties.
Variable FS : FluidSystem.

Lemma written_water_phase :
  phaseIsActive FS waterPhaseIdx = true -> storageWritten I P FS waterCompIdx = true.
Proof. intros E. cbn. rewrite E. reflexivity. Qed.

Lemma written_water_Rvw :
  phaseIsActive FS gasPhaseIdx = true -> enableVaporizedWater FS = true ->
  storageWritten I P FS waterCompIdx = true.
Proof. intros E1 E2. cbn. rewrite E1, E2. destruct (phaseIsActive FS waterPhaseIdx); reflexivity. Qed.

Lemma written_water_mass :
  blackoilConserveSurfaceVolume P = false -> waterEnabled I = true ->
  storageWritten I P FS waterCompIdx = true.
Proof. intros E1 E2. cbn. rewrite E1, E2. apply orb_true_r. Qed.

Lemma written_gas_phase :
  phaseIsActive FS gasPhaseIdx = true -> storageWritten I P FS gasCompIdx = true.
Proof. intros E. cbn. rewrite E. reflexivity. Qed.

Lemma written_gas_Rs :
  phaseIsActive FS oilPhaseIdx = true -> enableDissolvedGas FS = true ->
  storageWritten I P FS gasCompIdx = true.
Proof. intros E1 E2. cbn. rewrite E1, E2. destruct (phaseIsActive FS gasPhaseIdx); reflexivity. Qed.

Lemma written_gas_Rsw :
  phaseIsActive FS waterPhaseIdx = true -> enableDissolvedGasInWater FS = true ->
  storageWritten I P FS gasCompIdx = true.
Proof.
  intros E1 E2. cbn. rewrite E1, E2. cbn. rewrite orb_true_r. reflexivity.
Qed.

Lemma written_gas_mass :
  blackoilConserveSurfaceVolume P = false -> gasEnabled I = true ->
  storageWritten I P FS gasCompIdx = true.
Proof. intros E1 E2. cbn. rewrite E1, E2. apply orb_true_r. Qed.

Lemma written_oil_phase :
  phaseIsActive FS oilPhaseIdx = true -> storageWritten I P FS oilCompIdx = true.
Proof. intros E. cbn. rewrite E. reflexivity. Qed.

Lemma written_oil_Rv :
  phaseIsActive FS gasPhaseIdx = true -> enableVaporizedOil FS = true ->
  storageWritten I P FS oilCompIdx = true.
Proof. intros E1 E2. cbn. rewrite E1, E2. destruct (phaseIsActive FS oilPhaseIdx); reflexivity. Qed.

Lemma written_oil_mass :
  blackoilConserveSurfaceVolume P = false -> oilEnabled I = true ->
  storageWritten I P FS oilCompIdx = true.
Proof. intros E1 E2. cbn. rewrite E1, E2. apply orb_true_r. Qed.

Ltac written :=
  first [ assumption
        | apply written_water_phase; assumption
        | apply written_water_Rvw; assumption
        | apply written_water_mass; assumption
        | apply written_gas_phase; assumption
        | apply written_gas_Rs; assumption
        | apply written_gas_Rsw; assumption
        | apply written_gas_mass; assumption
        | apply written_oil_phase; assumption
        | apply written_oil_Rv; assumption
        | apply written_oil_mass; assumption ].

Section WithLhsEval.

Context {L : Type} `{LhsEval L} `{Inhabited L}.

Variable intQuants : IntensiveQuantities.

Hypothesis Hok : equationsOk I P FS.

Lemma eqIdx_ne c c' :
  storageWritten I P FS c = true -> storageWritten I P FS c' = true -> c <> c' ->
  eqIdx I c <> eqIdx I c'.
Proof. intros Hc Hc' Hne E. apply Hne. apply (proj2 Hok); assumption. Qed.

Ltac slots v Hlen :=
  repeat first
    [ rewrite EqVector_get_add_at_eq
        by (rewrite ?EqVector_length_add_at, Hlen; apply (proj1 Hok); written)
    | rewrite EqVector_get_add_at_ne
        by (apply eqIdx_ne; [written | written | discriminate])
    | rewrite EqVector_get_scale_at_eq
        by (rewrite ?EqVector_length_scale_at, Hlen; apply (proj1 Hok); written)
    | rewrite EqVector_get_scale_at_ne
        by (apply eqIdx_ne; [written | written | discriminate]) ].

Lemma storagePhase_length (storage : list L) ph :
  length (storagePhase_ I FS intQuants storage ph) = length storage.
Proof.
  unfold storagePhase_. cbv zeta.
  repeat match goal with |- context [if ?b then _ else _] => destruct b end;
    rewrite ?EqVector_length_add_at; reflexivity.
Qed.

(** The equation of a component after the contribution of one phase. *)
Lemma storagePhase_get (storage : list L) c ph :
  storageWritten I P FS c = true ->
  length storage = numEq I ->
  EqVector.get (storagePhase_ I FS intQuants storage ph) (eqIdx I c)
  = addTerm (EqVector.get storage (eqIdx I c)) (storageTerm FS intQuants c ph).
Proof.
  intros Hc Hlen. unfold storagePhase_, storageTerm, surfaceVolume. cbv zeta.
  destruct ph; cbn [Phase_eqb andb solventComponentIndex].
  - destruct (phaseIsActive FS waterPhaseIdx) eqn:Ea; cbn [negb];
      [|destruct c; reflexivity].
    destruct (enableDissolvedGasInWater FS) eqn:E1; destruct c; cbn [addTerm];
      slots storage Hlen; reflexivity.
  - destruct (phaseIsActive FS oilPhaseIdx) eqn:Ea; cbn [negb];
      [|destruct c; reflexivity].
    destruct (enableDissolvedGas FS) eqn:E1; destruct c; cbn [addTerm];
      slots storage Hlen; reflexivity.
  - destruct (phaseIsActive FS gasPhaseIdx) eqn:Ea; cbn [negb];
      [|destruct c; reflexivity].
    destruct (enableVaporizedOil FS) eqn:E1; destruct (enableVaporizedWater FS) eqn:E2;
      destruct c; cbn [addTerm]; slots storage Hlen; reflexivity.
Qed.

Lemma adaptMassConservationQuantities_get (container : list L) pvtRegionIdx c :
  storageWritten I P FS c = true ->
  length container = numEq I ->
  EqVector.get (adaptMassConservationQuantities_ I P FS container pvtRegionIdx) (eqIdx I c)
  = conservedQuantity I P FS c pvtRegionIdx (EqVector.get container (eqIdx I c)).
Proof.
  intros Hc Hlen. unfold adaptMassConservationQuantities_, conservedQuantity. cbv zeta.
  destruct (blackoilConserveSurfaceVolume P) eqn:Ec; [reflexivity|].
  destruct (waterEnabled I) eqn:Ew; destruct (gasEnabled I) eqn:Eg;
    destruct (oilEnabled I) eqn:Eo; destruct c;
    cbn [componentEnabled componentPhase]; rewrite ?Ew, ?Eg, ?Eo;
    slots container Hlen; reflexivity.
Qed.

(** The equation of a component in [computeStorage], before the optional
    modules: the terms of the phases, added in the order of the loop, and
    converted to the conserved quantity. *)
Lemma computeStorageComponents_get c :
  storageWritten I P FS c = true ->
  EqVector.get (computeStorageComponents_ I P FS intQuants) (eqIdx I c)
  = conservedQuantity I P FS c (pvtRegionIndex intQuants)
      (addTerm (addTerm (addTerm lhs_zero (storageTerm FS intQuants c waterPhaseIdx))
                        (storageTerm FS intQuants c oilPhaseIdx))
               (storageTerm FS intQuants c gasPhaseIdx)).
Proof.
  intros Hc. unfold computeStorageComponents_. cbv zeta. unfold allPhases. cbn [foldl].
  rewrite adaptMassConservationQuantities_get;
    [|exact Hc | rewrite !storagePhase_length; apply length_replicate].
  rewrite !storagePhase_get;
    try exact Hc; rewrite ?storagePhase_length; try apply length_replicate.
  rewrite EqVector_get_replicate by (apply (proj1 Hok); exact Hc).
  reflexivity.
Qed.

Lemma computeStorage_get modules c :
  storageWritten I P FS c = true ->
  modulesKeep modules (eqIdx I c) ->
  EqVector.get (computeStorage I P FS modules intQuants) (eqIdx I c)
  = conservedQuantity I P FS c (pvtRegionIndex intQuants)
      (addTerm (addTerm (addTerm lhs_zero (storageTerm FS intQuants c waterPhaseIdx))
                        (storageTerm FS intQuants c oilPhaseIdx))
               (storageTerm FS intQuants c gasPhaseIdx)).
Proof.
  intros Hc Hk. unfold computeStorage. cbv zeta.
  rewrite (proj2 (proj2 (proj2 (proj2 (proj2 (proj2 (Hk _ _))))))).
  rewrite (proj1 (proj2 (proj2 (proj2 (proj2 (proj2 (Hk _ _))))))).
  rewrite (proj1 (proj2 (proj2 (proj2 (proj2 (Hk _ _)))))).
  rewrite (proj1 (proj2 (proj2 (proj2 (Hk _ _))))).
  rewrite (proj1 (proj2 (proj2 (Hk _ _)))).
  rewrite (proj1 (proj2 (Hk _ _))).
  rewrite (proj1 (Hk _ _)).
  apply computeStorageComponents_get, Hc.
Qed.

End WithLhsEval.

Ltac storage_arith :=
  unfold conservedQuantity, storageTerm, addTerm, surfaceVolume,
    componentEnabled, componentPhase;
  repeat match goal with
  | |- context [phaseIsActive FS ?ph] => destruct (phaseIsActive FS ph)
  | |- context [enableDissolvedGas FS] => destruct (enableDissolvedGas FS)
  | |- context [enableDissolvedGasInWater FS] => destruct (enableDissolvedGasInWater FS)
  | |- context [enableVaporizedOil FS] => destruct (enableVaporizedOil FS)
  | |- context [enableVaporizedWater FS] => destruct (enableVaporizedWater FS)
  | |- context [blackoilConserveSurfaceVolume P] =>
      destruct (blackoilConserveSurfaceVolume P)
  | |- context [waterEnabled I] => destruct (waterEnabled I)
  | |- context [gasEnabled I] => destruct (gasEnabled I)
  | |- context [oilEnabled I] => destruct (oilEnabled I)
  end;
  cbn [andb lhs_zero lhs_add lhs_mul lhs_scale lhs_decay lhs_equiv
       LhsEval_Evaluation LhsEval_Scalar];
  try (split; cbn; [ring | intros; ring]);
  try ring.

(** C1.  The storage of the three pseudo-components, with evaluations on
    the left-hand side.  In the equation of a component stands what the
    phases add: [S * invB * porosity] of the component's own phase when it
    is active, and [Rs] (resp. [Rsw], [Rv], [Rvw]) times that term of the oil
    (resp. water, gas, gas) phase in the gas (resp. gas, oil, water)
    equation when the phase is active and the dissolution is enabled; when
    the model conserves mass, the equation of each enabled phase is then
    multiplied by the reference density of the phase.  The optional modules
    are assumed to leave these equations alone. *)
Theorem computeStorage_components :
  forall (modules : StorageModules Evaluation) (iq : IntensiveQuantities),
    equationsOk I P FS ->
    (forall c, storageWritten I P FS c = true -> modulesKeep modules (eqIdx I c)) ->
    let fs := fluidState iq in
    let sv ph := Eval.mul (Eval.mul (saturation fs ph) (invB fs ph)) (porosity iq) in
    let ifb (b : bool) (x : Evaluation) := if b then x else Eval.const 0 in
    let act ph := phaseIsActive FS ph in
    let mass (enabled : bool) ph x :=
      if blackoilConserveSurfaceVolume P then x
      else if enabled then Eval.muls x (referenceDensity FS ph (pvtRegionIndex iq))
           else x in
    let storage := computeStorage I P FS modules iq in
    (storageWritten I P FS waterCompIdx = true ->
     Eval.equiv (EqVector.get storage (eqIdx I waterCompIdx))
       (mass (waterEnabled I) waterPhaseIdx
          (Eval.add (ifb (act waterPhaseIdx) (sv waterPhaseIdx))
             (ifb (act gasPhaseIdx && enableVaporizedWater FS)
                  (Eval.mul (Rvw fs) (sv gasPhaseIdx))))))
    /\ (storageWritten I P FS gasCompIdx = true ->
        Eval.equiv (EqVector.get storage (eqIdx I gasCompIdx))
          (mass (gasEnabled I) gasPhaseIdx
             (Eval.add
                (Eval.add (ifb (act gasPhaseIdx) (sv gasPhaseIdx))
                   (ifb (act oilPhaseIdx && enableDissolvedGas FS)
                        (Eval.mul (Rs fs) (sv oilPhaseIdx))))
                (ifb (act waterPhaseIdx && enableDissolvedGasInWater FS)
                     (Eval.mul (Rsw fs) (sv waterPhaseIdx))))))
    /\ (storageWritten I P FS oilCompIdx = true ->
        Eval.equiv (EqVector.get storage (eqIdx I oilCompIdx))
          (mass (oilEnabled I) oilPhaseIdx
             (Eval.add (ifb (act oilPhaseIdx) (sv oilPhaseIdx))
                (ifb (act gasPhaseIdx && enableVaporizedOil FS)
                     (Eval.mul (Rv fs) (sv gasPhaseIdx)))))).
Proof.
  intros modules iq Hok Hk. cbv zeta.
  split; [|split]; intros Hc;
    rewrite (computeStorage_get iq Hok modules _ Hc (Hk _ Hc));
    storage_arith.
Qed.

(** The same equations with scalars on the left-hand side. *)
Lemma computeStorage_Scalar_components :
  forall (modules : StorageModules Q) (iq : IntensiveQuantities),
    equationsOk I P FS ->
    (forall c, storageWritten I P FS c = true -> modulesKeep modules (eqIdx I c)) ->
    let fs := fluidState iq in
    let sv ph := value (saturation fs ph) * value (invB fs ph) * value (porosity iq) in
    let ifb (b : bool) (x : Q) := if b then x else 0 in
    let act ph := phaseIsActive FS ph in
    let mass (enabled : bool) ph x :=
      if blackoilConserveSurfaceVolume P then x
      else if enabled then x * referenceDensity FS ph (pvtRegionIndex iq) else x in
    let storage := computeStorage I P FS modules iq in
    (storageWritten I P FS waterCompIdx = true ->
     EqVector.get storage (eqIdx I waterCompIdx)
     == mass (waterEnabled I) waterPhaseIdx
          (ifb (act waterPhaseIdx) (sv waterPhaseIdx)
           + ifb (act gasPhaseIdx && enableVaporizedWater FS)
               (value (Rvw fs) * sv gasPhaseIdx)))
    /\ (storageWritten I P FS gasCompIdx = true ->
        EqVector.get storage (eqIdx I gasCompIdx)
        == mass (gasEnabled I) gasPhaseIdx
             (ifb (act gasPhaseIdx) (sv gasPhaseIdx)
              + ifb (act oilPhaseIdx && enableDissolvedGas FS)
                  (value (Rs fs) * sv oilPhaseIdx)
              + ifb (act waterPhaseIdx && enableDissolvedGasInWater FS)
                  (value (Rsw fs) * sv waterPhaseIdx)))
    /\ (storageWritten I P FS oilCompIdx = true ->
        EqVector.get storage (eqIdx I oilCompIdx)
        == mass (oilEnabled I) oilPhaseIdx
             (ifb (act oilPhaseIdx) (sv oilPhaseIdx)
              + ifb (act gasPhaseIdx && enableVaporizedOil FS)
                  (value (Rv fs) * sv gasPhaseIdx))).
Proof.
  intros modules iq Hok Hk. cbv zeta.
  split; [|split]; intros Hc;
    rewrite (computeStorage_get iq Hok modules _ Hc (Hk _ Hc));
    storage_arith.
Qed.

End Storage.

(** ** The flux over a boundary face *)

Section Boundary.

Import BlackOilLocalResidualTPFA.

Variable I : Indices.
Variable P : Properties.
Variable FS : FluidSystem.
Variable calculateBoundaryGradients_ :
  Problem -> nat -> IntensiveQuantities -> nat -> Scalar -> Scalar ->
  FluidState Scalar -> BoundaryGradients.






End Boundary.

(** ** The local residual on a concrete face and cell *)

Section LocalResidualExamples.

Import BlackOilLocalResidualTPFA Examples.

Lemma threePhase_equationsOk conserve :
  equationsOk threePhaseIndices (plainProperties conserve) fluidSystemAll.
Proof.
  split.
  - intros c _. destruct c; cbn; lia.
  - intros c c' _ _. destruct c, c'; cbn; intros E; try reflexivity; discriminate E.
Qed.

Lemma noModules_keep (L : Type) `{Inhabited L} i : modulesKeep (noModules L) i.
Proof. intros storage iq. repeat split. Qed.

(** The witness of C1: the storage of cell A, conserving mass.  The water
    equation holds [(1/2 * 1 * 1/5 + 1/500 * (1/4 * 50 * 1/5)) * 1000]. *)
Lemma computeStorage_components_witness :
  let storage := computeStorage threePhaseIndices (plainProperties false) fluidSystemAll
                   (noModules Evaluation) cellA in
  value (EqVector.get storage 1) == 105
  /\ value (EqVector.get storage 2) == 59 # 10
  /\ value (EqVector.get storage 0) == 34.
Proof.
  pose proof (computeStorage_components threePhaseIndices (plainProperties false)
                fluidSystemAll (noModules Evaluation) cellA
                (threePhase_equationsOk false)
                (fun c _ => noModules_keep Evaluation _)) as T.
  cbv zeta in T |- *. destruct T as (Tw & Tg & To).
  split; [|split].
  - change 1%nat with (eqIdx threePhaseIndices waterCompIdx).
    rewrite (Tw eq_refl). reflexivity.
  - change 2%nat with (eqIdx threePhaseIndices gasCompIdx).
    rewrite (Tg eq_refl). reflexivity.
  - change 0%nat with (eqIdx threePhaseIndices oilCompIdx).
    rewrite (To eq_refl). reflexivity.
Defined.

Local Abbreviation faceAB :=
  (computeFlux threePhaseIndices (plainProperties false) fluidSystemAll pressureDiff
     residualProblem 0 1 cellA cellB 3 2 Unknown).
Local Abbreviation faceBA :=
  (computeFlux threePhaseIndices (plainProperties false) fluidSystemAll pressureDiff
     residualProblem 1 0 cellB cellA 3 2 Unknown).

(** The example extensive quantities are antisymmetric at the face between
    the cells A and B. *)
Lemma pressureDiff_antisymmetric_AB ph :
  antisymmetricAt pressureDiff cellA cellB
    (dofTotalVolume residualProblem 0) (dofTotalVolume residualProblem 1) 0 1
    ((dofCenterDepth residualProblem 0 - dofCenterDepth residualProblem 1)
     * gravity residualProblem)
    (thresholdPressure residualProblem 0 1)
    ((dofCenterDepth residualProblem 1 - dofCenterDepth residualProblem 0)
     * gravity residualProblem)
    (thresholdPressure residualProblem 1 0) ph.
Proof.
  destruct ph; (split; [vm_compute; reflexivity|]); intros _; vm_compute;
    split; intros E; try discriminate E; try reflexivity;
    try (exfalso; apply E; reflexivity); try (intros E'; discriminate E').
Qed.

(** The witness of C2: the face between the cells A and B, where the water
    flows from A to B, the oil does not flow and the gas flows from B to
    A. *)
Lemma computeFlux_conservation_symmetry_witness :
  (value (EqVector.get (fst faceAB) 0) == - value (EqVector.get (fst faceBA) 0)
   /\ value (EqVector.get (snd faceAB) 0) == - value (EqVector.get (snd faceBA) 0))
  /\ (value (EqVector.get (fst faceAB) 1) == - value (EqVector.get (fst faceBA) 1)
      /\ value (EqVector.get (snd faceAB) 1) == - value (EqVector.get (snd faceBA) 1))
  /\ (value (EqVector.get (fst faceAB) 2) == - value (EqVector.get (fst faceBA) 2)
      /\ value (EqVector.get (snd faceAB) 2) == - value (EqVector.get (snd faceBA) 2)).
Proof.
  pose proof (computeFlux_conservation_symmetry threePhaseIndices (plainProperties false)
                fluidSystemAll pressureDiff residualProblem 0%nat 1%nat cellA cellB 3 2 Unknown
                (fun ph _ => pressureDiff_antisymmetric_AB ph)) as T.
  cbv zeta in T.
  split; [exact (T 0%nat) | split; [exact (T 1%nat) | exact (T 2%nat)]].
Defined.

(** The symmetry is one of the values: the derivatives with respect to
    the first primary variable of cell A enter the fluxes when A is the
    interior cell and not when B is. *)
Lemma computeFlux_derivatives_follow_interior :
  derivative (EqVector.get (fst faceAB) 1) 0 == 15000
  /\ derivative (EqVector.get (fst faceBA) 1) 0 == 0.
Proof. split; vm_compute; reflexivity. Qed.


(** C9 on the example: the three types of boundary conditions on cell A;
    against the boundary the water leaves through the face (the water
    equation gets [invB * volumeFlux * density = 1000] with the derivative of
    [invB] of the inside cell), the oil does not flow, and the gas enters
    (its equation gets [60], the [invB] of the boundary as a value). *)
Lemma computeBoundaryFlux_examples :
  computeBoundaryFlux threePhaseIndices (plainProperties true) fluidSystemAll
    boundaryGradients residualProblem (freeBoundary RATE) cellA 0
  = Returns [Eval.const 7; Eval.const 8; Eval.const 9]
  /\ computeBoundaryFlux threePhaseIndices (plainProperties true) fluidSystemAll
       boundaryGradients residualProblem (freeBoundary (OtherBCType 3)) cellA 0
     = Throws_logic_error
  /\ (let contribution :=
        boundaryPhaseFlux_ threePhaseIndices (plainProperties true) fluidSystemAll
          (freeBoundary FREE) cellA (fun ph => variable 1 1 1) in
      value (EqVector.get (contribution waterPhaseIdx) 1) == 1
      /\ derivative (EqVector.get (contribution waterPhaseIdx) 1) 1 == 101 # 100
      /\ contribution oilPhaseIdx = replicate 3 (Eval.const 0)
      /\ value (EqVector.get (contribution gasPhaseIdx) 2) == 60
      /\ derivative (EqVector.get (contribution gasPhaseIdx) 2) 1 == 60).
Proof.
  split; [reflexivity | split; [reflexivity|]].
  cbv zeta. repeat split; vm_compute; reflexivity.
Qed.

(** The example extensive quantities satisfy the contract at every face
    with one threshold pressure: the symmetry then holds between any two
    cells. *)
Lemma pressureDiff_antisymmetric iqA iqB VA VB gA gB d t d' t' ph :
  d' == - d -> t' == t ->
  antisymmetricAt pressureDiff iqA iqB VA VB gA gB d t d' t' ph.
Proof.
  intros Hd Ht. unfold antisymmetricAt, pressureDiff, interiorDofIdx, exteriorDofIdx.
  cbv zeta.
  set (pA := value (pressure (fluidState iqA) ph)).
  set (pB := value (pressure (fluidState iqB) ph)).
  assert (V1 : value (Eval.add (Eval.const (pB + d)) (Eval.opp (pressure (fluidState iqA) ph)))
               = pB + d + - pA) by reflexivity.
  assert (V2 : value (Eval.add (Eval.const (pA + d')) (Eval.opp (pressure (fluidState iqB) ph)))
               = pA + d' + - pB) by reflexivity.
  rewrite V1, V2.
  set (eA := Eval.add (Eval.const (pB + d)) (Eval.opp (pressure (fluidState iqA) ph))) in *.
  set (eB := Eval.add (Eval.const (pA + d')) (Eval.opp (pressure (fluidState iqB) ph))) in *.
  assert (Habs : forall x, (x < 0 /\ Qabs x == - x) \/ (0 <= x /\ Qabs x == x)).
  { intros x. destruct (Qlt_le_dec x 0) as [Hx|Hx].
    - left. split; [exact Hx|]. apply Qabs_neg. lra.
    - right. split; [exact Hx|]. apply Qabs_pos. exact Hx. }
  destruct (Habs (pB + d + - pA)) as [[S1 A1]|[S1 A1]];
  destruct (Habs (pA + d' + - pB)) as [[S2 A2]|[S2 A2]];
  destruct (Qgtb t 0) eqn:T1; destruct (Qgtb t' 0) eqn:T2;
  destruct (Qgtb (Qabs (pB + d + - pA)) t) eqn:T3;
  destruct (Qgtb (Qabs (pA + d' + - pB)) t') eqn:T4;
  destruct (Qgtb (pB + d + - pA) 0) eqn:C1; destruct (Qltb (pB + d + - pA) 0) eqn:C2;
  destruct (Qgtb (pA + d' + - pB) 0) eqn:C3; destruct (Qltb (pA + d' + - pB) 0) eqn:C4;
  repeat match goal with
  | H : Qgtb _ _ = true |- _ => apply Qgtb_true in H
  | H : Qgtb _ _ = false |- _ => apply Qgtb_false in H
  | H : Qltb _ _ = true |- _ => apply Qltb_true in H
  | H : Qltb _ _ = false |- _ => apply Qltb_false in H
  end;
  try (exfalso; lra);
  subst eA eB pA pB;
  (split; [cbn; lra|]);
  intros Hnz; try (exfalso; apply Hnz; cbn; lra);
  try (split; intros E; [discriminate | try reflexivity; exfalso; apply E; reflexivity]);
  try (split; intros E; [discriminate E | exfalso; apply E; reflexivity]);
  try (split; intros E; [intros E'; discriminate E' | reflexivity]).
Qed.

End LocalResidualExamples.

(* ===================================================================== *)
(** ** The switches of the primary variables, case by case *)
(* ===================================================================== *)

Section PrimaryVariablesFrame.

Import BlackOilPrimaryVariables.

Variable I : Indices.
Variable P : Properties.
Variable FS : FluidSystem.
Variable M : ModuleOracles.
Variable MaterialLawParams : Type.
Variable MaterialLaw_capillaryPressures :
  MaterialLawParams -> SatOnlyFluidState -> Phase -> Scalar.

Local Abbreviation Problem := (BlackOilPrimaryVariables.Problem MaterialLawParams).
Local Abbreviation adapt := (adaptPrimaryVariables I P FS M MaterialLawParams MaterialLaw_capillaryPressures).
Local Abbreviation adaptBody :=
  (adaptPrimaryVariablesBody_ I P FS M MaterialLawParams MaterialLaw_capillaryPressures).
Local Abbreviation adaptWater :=
  (adaptWater_ I P FS MaterialLawParams MaterialLaw_capillaryPressures).
Local Abbreviation adaptGas :=
  (adaptGas_ I P FS M MaterialLawParams MaterialLaw_capillaryPressures).
Local Abbreviation capPress :=
  (computeCapillaryPressures_ MaterialLawParams MaterialLaw_capillaryPressures).

Lemma keeps_refl slots pv : keeps slots pv pv.
Proof. repeat split. Qed.

Lemma keeps_trans slots pv pv' pv'' :
  keeps slots pv pv' -> keeps slots pv' pv'' -> keeps slots pv pv''.
Proof.
  intros (A1 & A2 & A3) (B1 & B2 & B3). repeat split; try congruence.
  intros i Hi. rewrite B3, A3; auto.
Qed.

Lemma keeps_weaken slots slots' pv pv' :
  (forall i, In i slots -> In i slots') -> keeps slots pv pv' -> keeps slots' pv pv'.
Proof.
  intros Hs (A1 & A2 & A3). repeat split; auto.
Qed.

Lemma keeps_assign slots j x pv pv' :
  In j slots -> keeps slots pv pv' -> keeps slots pv (assign j x pv').
Proof.
  intros Hj (A1 & A2 & A3). repeat split.
  - exact A1.
  - cbn. rewrite FieldVector_length_set. exact A2.
  - intros i Hi. rewrite at_assign_ne; [auto|]. intros ->. auto.
Qed.

Lemma keeps_setWater slots m pv pv' :
  keeps slots pv pv' -> keeps slots pv (setPrimaryVarsMeaningWater m pv').
Proof. intros H; exact H. Qed.
Lemma keeps_setPressure slots m pv pv' :
  keeps slots pv pv' -> keeps slots pv (setPrimaryVarsMeaningPressure m pv').
Proof. intros H; exact H. Qed.
Lemma keeps_setGas slots m pv pv' :
  keeps slots pv pv' -> keeps slots pv (setPrimaryVarsMeaningGas m pv').
Proof. intros H; exact H. Qed.
Lemma keeps_setBrine slots m pv pv' :
  keeps slots pv pv' -> keeps slots pv (setPrimaryVarsMeaningBrine m pv').
Proof. intros H; exact H. Qed.

Ltac keeps_tac :=
  repeat first
    [ apply keeps_refl
    | apply keeps_setWater | apply keeps_setPressure
    | apply keeps_setGas | apply keeps_setBrine
    | apply keeps_assign; [cbn; tauto|] ].

Lemma adaptBrine_keeps eps pv :
  keeps [saltConcentrationIdx I] pv (fst (adaptBrine_ I P M eps pv)).
Proof.
  unfold adaptBrine_.
  destruct (enableSaltPrecipitation P); [|apply keeps_refl].
  destruct (primaryVarsMeaningBrine pv); cbv zeta;
    try destruct (Qgtb _ _); try destruct (Qltb _ _); cbn [fst]; keeps_tac.
Qed.

Lemma waterFilledCell_keeps pv :
  keeps [waterSwitchIdx I; compositionSwitchIdx I] pv (snd (waterFilledCell_ I pv)).
Proof.
  unfold waterFilledCell_. cbv zeta. cbn [snd].
  repeat match goal with |- context [if ?b then _ else _] => destruct b end;
    keeps_tac.
Qed.

Lemma adaptWater_keeps (problem : Problem) idx eps sw sg salt T pv :
  keeps [waterSwitchIdx I; pressureSwitchIdx I] pv
    (snd (adaptWater problem idx eps sw sg salt T pv)).
Proof.
  unfold adaptWater_. destruct (primaryVarsMeaningWater pv); cbv zeta;
    repeat match goal with |- context [if ?b then _ else _] => destruct b end;
    cbn [snd]; keeps_tac.
Qed.

Lemma adaptGas_keeps (problem : Problem) idx eps sw sg T changed pv :
  keeps [pressureSwitchIdx I; compositionSwitchIdx I] pv
    (snd (adaptGas problem idx eps sw sg T changed pv)).
Proof.
  unfold adaptGas_. destruct (primaryVarsMeaningGas pv); cbv zeta.
  - destruct (_ && _ && enableDissolvedGas FS); cbv beta iota;
      destruct (_ && _ && enableVaporizedOil FS); cbn [snd]; keeps_tac.
  - destruct (Qgtb _ _); cbn [snd]; keeps_tac.
  - destruct (Qgtb _ _); cbn [snd]; keeps_tac.
  - cbn [snd]; keeps_tac.
Qed.


Lemma adaptBrine_meaning eps pv :
  let pv1 := fst (adaptBrine_ I P M eps pv) in
  (enableSaltPrecipitation P = false -> primaryVarsMeaningBrine pv1 = primaryVarsMeaningBrine pv)
  /\ (primaryVarsMeaningBrine pv1 = BrineMeaning.Disabled
      <-> primaryVarsMeaningBrine pv = BrineMeaning.Disabled).
Proof.
  unfold adaptBrine_. cbv zeta.
  destruct (enableSaltPrecipitation P); [|split; [reflexivity | reflexivity]].
  split; [discriminate|].
  destruct (primaryVarsMeaningBrine pv) eqn:E; cbv zeta;
    try destruct (Qgtb _ _); try destruct (Qltb _ _); cbn [fst];
    unfold primaryVarsMeaningBrine in *; cbn; rewrite ?E; split; congruence.
Qed.

Lemma waterFilledCell_brine pv :
  primaryVarsMeaningBrine (snd (waterFilledCell_ I pv)) = primaryVarsMeaningBrine pv.
Proof. apply (waterFilledCell_spec I pv). Qed.

(** X1.  What [adaptPrimaryVariables] (lines 1063-1381) never touches: the
    PVT region, the size of the vector and every slot other than the water
    switch, the pressure switch, the composition switch and the salt
    concentration.  Without salt precipitation the brine meaning is kept as
    well, and in every configuration the brine variable is disabled after the
    call exactly when it was disabled before. *)
Theorem adaptPrimaryVariables_frame :
  forall static_ (problem : Problem) idx eps pv,
    let pv' := snd (snd (adapt static_ problem idx eps pv)) in
    pvtRegionIdx_ pv' = pvtRegionIdx_ pv
    /\ length (values pv') = length (values pv)
    /\ (forall i, i <> waterSwitchIdx I -> i <> pressureSwitchIdx I ->
                  i <> compositionSwitchIdx I -> i <> saltConcentrationIdx I ->
                  at_ pv' i = at_ pv i)
    /\ (enableSaltPrecipitation P = false ->
        primaryVarsMeaningBrine pv' = primaryVarsMeaningBrine pv)
    /\ (primaryVarsMeaningBrine pv' = BrineMeaning.Disabled
        <-> primaryVarsMeaningBrine pv = BrineMeaning.Disabled).
Proof.
  intros static_ problem idx eps pv. cbv zeta.
  unfold adaptPrimaryVariables. cbn [snd].
  set (t := thresholdWaterFilledCell static_ eps). clearbody t.
  set (slots := [waterSwitchIdx I; pressureSwitchIdx I; compositionSwitchIdx I;
                 saltConcentrationIdx I]).
  assert (K : keeps slots pv (snd (adaptBody t problem idx eps pv))
              /\ (enableSaltPrecipitation P = false ->
                  primaryVarsMeaningBrine (snd (adaptBody t problem idx eps pv))
                  = primaryVarsMeaningBrine pv)
              /\ (primaryVarsMeaningBrine (snd (adaptBody t problem idx eps pv))
                  = BrineMeaning.Disabled
                  <-> primaryVarsMeaningBrine pv = BrineMeaning.Disabled)).
  { unfold adaptPrimaryVariablesBody_.
    destruct (WaterMeaning.eqb _ _ && GasMeaning.eqb _ _).
    { cbn [snd]. split; [apply keeps_refl | tauto]. }
    pose proof (adaptBrine_keeps eps pv) as Kb.
    pose proof (adaptBrine_meaning eps pv) as Mb. cbv zeta in Mb.
    destruct (adaptBrine_ I P M eps pv) as [pv1 salt]. cbn [fst] in Kb, Mb.
    destruct (Qgeb _ _ && negb _).
    - rewrite waterFilledCell_brine. split; [|exact Mb].
      eapply keeps_trans.
      + eapply keeps_weaken; [|exact Kb]. subst slots; cbn; tauto.
      + eapply keeps_weaken; [|apply waterFilledCell_keeps]. subst slots; cbn; tauto.
    - pose proof (adaptWater_keeps problem idx eps (read_sw I pv) (read_sg I pv)
                    salt (temperature_ I P FS pv) pv1) as Kw.
      pose proof (adaptWater_brine I P FS MaterialLawParams MaterialLaw_capillaryPressures
                    problem idx eps (read_sw I pv) (read_sg I pv)
                    salt (temperature_ I P FS pv) pv1) as Bw.
      destruct (adaptWater problem idx eps (read_sw I pv) (read_sg I pv)
                  salt (temperature_ I P FS pv) pv1) as [changed pv2].
      cbn [snd] in Kw, Bw.
      rewrite (adaptGas_brine I P FS M MaterialLawParams MaterialLaw_capillaryPressures),
        Bw.
      split; [|exact Mb].
      eapply keeps_trans; [|eapply keeps_trans].
      + eapply keeps_weaken; [|exact Kb]. subst slots; cbn; tauto.
      + eapply keeps_weaken; [|exact Kw]. subst slots; cbn; tauto.
      + eapply keeps_weaken; [|apply adaptGas_keeps]. subst slots; cbn; tauto. }
  destruct K as ((K1 & K2 & K3) & K4 & K5).
  repeat split; auto; try apply K5.
  intros i H1 H2 H3 H4. apply K3. subst slots. cbn. intros [E|[E|[E|[E|[]]]]]; congruence.
Qed.


Lemma adaptWater_gas_meaning (problem : Problem) idx eps sw sg salt T pv :
  primaryVarsMeaningGas (snd (adaptWater problem idx eps sw sg salt T pv))
  = primaryVarsMeaningGas pv.
Proof.
  unfold adaptWater_. destruct (primaryVarsMeaningWater pv); cbv zeta;
    repeat match goal with |- context [if ?b then _ else _] => destruct b end;
    reflexivity.
Qed.

Lemma adaptGas_water_meaning (problem : Problem) idx eps sw sg T changed pv :
  primaryVarsMeaningWater (snd (adaptGas problem idx eps sw sg T changed pv))
  = primaryVarsMeaningWater pv.
Proof.
  unfold adaptGas_. destruct (primaryVarsMeaningGas pv); cbv zeta.
  - destruct (_ && _ && enableDissolvedGas FS); cbv beta iota;
      destruct (_ && _ && enableVaporizedOil FS); reflexivity.
  - destruct (Qgtb _ _); reflexivity.
  - destruct (Qgtb _ _); reflexivity.
  - reflexivity.
Qed.

Lemma adaptGas_reports (problem : Problem) idx eps sw sg T pv :
  fst (adaptGas problem idx eps sw sg T true pv) = true.
Proof.
  destruct (fst (adaptGas problem idx eps sw sg T true pv)) eqn:E; [reflexivity|].
  apply (adaptGas_unreported I P FS M MaterialLawParams MaterialLaw_capillaryPressures) in E.
  destruct E as [E _]. discriminate E.
Qed.

(** X2.  A call of [adaptPrimaryVariables] that returns [false] has changed
    none of the meanings of the water, the pressure and the gas variable. *)
Theorem adaptPrimaryVariables_false_keeps_meanings :
  forall static_ (problem : Problem) idx eps pv,
    let r := snd (adapt static_ problem idx eps pv) in
    fst r = false ->
    primaryVarsMeaningWater (snd r) = primaryVarsMeaningWater pv
    /\ primaryVarsMeaningPressure (snd r) = primaryVarsMeaningPressure pv
    /\ primaryVarsMeaningGas (snd r) = primaryVarsMeaningGas pv.
Proof.
  intros static_ problem idx eps pv. cbv zeta.
  unfold adaptPrimaryVariables. cbn [snd].
  set (t := thresholdWaterFilledCell static_ eps). clearbody t.
  unfold adaptPrimaryVariablesBody_.
  destruct (WaterMeaning.eqb _ _ && GasMeaning.eqb _ _).
  { intros _. repeat split. }
  destruct (adaptBrine_frame I P M eps pv) as (Fw & Fg & Fp & _).
  destruct (adaptBrine_ I P M eps pv) as [pv1 salt]. cbn [fst] in Fw, Fg, Fp.
  destruct (Qgeb _ _ && negb _).
  - destruct (waterFilledCell_spec I pv1) as (S1 & S2 & S3 & _).
    intros Hf. rewrite S1 in Hf. apply negb_false_iff in Hf.
    rewrite S2, S3, Fw, Fp. repeat split.
    rewrite <- Fg.
    unfold waterFilledCell_. cbv zeta. cbn [snd].
    unfold primaryVarsMeaningGas in *.
    destruct (compositionSwitchEnabled I), (waterEnabled I);
      cbn [primaryVarsMeaningGas_ assign]; rewrite Hf; reflexivity.
  - pose proof (adaptWater_unreported I P FS MaterialLawParams MaterialLaw_capillaryPressures
                  problem idx eps (read_sw I pv) (read_sg I pv)
                  salt (temperature_ I P FS pv) pv1) as W.
    destruct (adaptWater problem idx eps (read_sw I pv) (read_sg I pv)
                salt (temperature_ I P FS pv) pv1) as [changed pv2].
    cbn [fst snd] in W. intros Hf.
    apply (adaptGas_unreported I P FS M MaterialLawParams MaterialLaw_capillaryPressures) in Hf.
    destruct Hf as [Hc G]. rewrite G. rewrite (W Hc). auto.
Qed.


(** The water switch does nothing while the water variable is the
    saturation (or is disabled) and neither phase disappears. *)
Lemma adaptWater_idle (problem : Problem) idx eps sw sg salt T pv :
  primaryVarsMeaningWater pv = WaterMeaning.Sw
  \/ primaryVarsMeaningWater pv = WaterMeaning.Disabled ->
  Qltb sw (- eps) && Qgtb sg eps && enableVaporizedWater FS = false ->
  Qltb sg (- eps) && Qgtb sw eps && enableDissolvedGasInWater FS = false ->
  adaptWater problem idx eps sw sg salt T pv = (false, pv).
Proof.
  intros [Hw|Hw] H1 H2; unfold adaptWater_; rewrite Hw; [|reflexivity].
  rewrite H1, H2. reflexivity.
Qed.

(** The saturations the call reads: the gas saturation is zero while the
    composition slot holds a dissolution factor. *)
Lemma read_sg_Rs pv : primaryVarsMeaningGas pv = GasMeaning.Rs -> read_sg I pv = 0.
Proof. unfold read_sg. intros ->. reflexivity. Qed.

Lemma read_sg_Rv pv : primaryVarsMeaningGas pv = GasMeaning.Rv -> read_sg I pv = 0.
Proof. unfold read_sg. intros ->. reflexivity. Qed.

Lemma read_sg_Sg pv :
  primaryVarsMeaningGas pv = GasMeaning.Sg -> read_sg I pv = at_ pv (compositionSwitchIdx I).
Proof. unfold read_sg. intros ->. reflexivity. Qed.

(** The body of the call outside of the all-water branch, when the water
    switch is idle. *)
Lemma adaptBody_gas_switch t (problem : Problem) idx eps pv :
  primaryVarsMeaningWater pv = WaterMeaning.Sw
  \/ primaryVarsMeaningWater pv = WaterMeaning.Disabled ->
  primaryVarsMeaningGas pv <> GasMeaning.Disabled ->
  read_sw I pv < t \/ enableDissolvedGasInWater FS = true ->
  Qltb (read_sw I pv) (- eps) && Qgtb (read_sg I pv) eps && enableVaporizedWater FS = false ->
  Qltb (read_sg I pv) (- eps) && Qgtb (read_sw I pv) eps && enableDissolvedGasInWater FS = false ->
  adaptBody t problem idx eps pv
  = adaptGas problem idx eps (read_sw I pv) (read_sg I pv) (temperature_ I P FS pv) false
      (fst (adaptBrine_ I P M eps pv)).
Proof.
  intros Hw Hg Hsw H1 H2. unfold adaptPrimaryVariablesBody_.
  assert (Ed : WaterMeaning.eqb (primaryVarsMeaningWater pv) WaterMeaning.Disabled
               && GasMeaning.eqb (primaryVarsMeaningGas pv) GasMeaning.Disabled = false).
  { destruct (primaryVarsMeaningGas pv); try (apply andb_false_r); congruence. }
  rewrite Ed.
  assert (Es : Qgeb (read_sw I pv) t && negb (enableDissolvedGasInWater FS) = false).
  { destruct Hsw as [Hsw | Hsw].
    - apply Qgeb_false in Hsw. rewrite Hsw. reflexivity.
    - rewrite Hsw. apply andb_false_r. }
  destruct (adaptBrine_frame I P M eps pv) as (Fw & _).
  destruct (adaptBrine_ I P M eps pv) as [pv1 salt]. cbn [fst] in *.
  rewrite Es. rewrite adaptWater_idle; auto. rewrite Fw. exact Hw.
Qed.

(** X8.  Gas phase appearance out of the oil (lines 1305-1331): when the gas
    variable is [Rs] and the stored ratio exceeds the smaller of the maximal
    dissolution factor and [rsSat * (1 + eps)], the call returns [true], the
    gas meaning becomes the saturation and the composition slot holds [0];
    the meanings of pressure and water are kept. *)
Theorem adaptPrimaryVariables_gas_appears_from_oil :
  forall static_ (problem : Problem) idx eps pv,
    primaryVarsMeaningGas pv = GasMeaning.Rs ->
    primaryVarsMeaningWater pv = WaterMeaning.Sw
    \/ primaryVarsMeaningWater pv = WaterMeaning.Disabled ->
    0 <= eps ->
    read_sw I pv < thresholdWaterFilledCell static_ eps
    \/ enableDissolvedGasInWater FS = true ->
    validIdx pv (compositionSwitchIdx I) ->
    let pv1 := fst (adaptBrine_ I P M eps pv) in
    let so := 1 - read_sw I pv - solventSaturation_ I P pv1 in
    let rsSat := rsSat_ I P FS M (temperature_ I P FS pv) (at_ pv1 (pressureSwitchIdx I))
                   so (std_max so (maxOilSaturation _ problem idx)) pv1 in
    std_min (maxGasDissolutionFactor _ problem 0%nat idx) (rsSat * (1 + eps))
      < at_ pv1 (compositionSwitchIdx I) ->
    let r := snd (adapt static_ problem idx eps pv) in
    fst r = true
    /\ primaryVarsMeaningGas (snd r) = GasMeaning.Sg
    /\ at_ (snd r) (compositionSwitchIdx I) = 0
    /\ primaryVarsMeaningPressure (snd r) = primaryVarsMeaningPressure pv
    /\ primaryVarsMeaningWater (snd r) = primaryVarsMeaningWater pv.
Proof.
  intros static_ problem idx eps pv Hg Hw Heps Hsw Vc. cbv zeta. intros Hrs.
  unfold adaptPrimaryVariables. cbn [snd].
  pose proof (read_sg_Rs pv Hg) as Esg.
  rewrite adaptBody_gas_switch; auto.
  2: { rewrite Hg; discriminate. }
  2: { rewrite Esg. replace (Qgtb 0 eps) with false by (symmetry; apply Qgtb_false; exact Heps).
       rewrite andb_false_r. reflexivity. }
  2: { rewrite Esg. replace (Qltb 0 (- eps)) with false by (symmetry; apply Qltb_false; lra).
       reflexivity. }
  destruct (adaptBrine_frame I P M eps pv) as (Fw & Fg & Fp & _ & Fl).
  set (pv1 := fst (adaptBrine_ I P M eps pv)) in *.
  assert (Vc1 : validIdx pv1 (compositionSwitchIdx I)).
  { unfold validIdx, FieldVector.valid in *. rewrite Fl. exact Vc. }
  unfold adaptGas_. rewrite Fg, Hg. cbv zeta.
  apply Qgtb_true in Hrs. rewrite Hrs. cbn [fst snd].
  repeat split; auto.
  apply at_assign_eq. exact Vc1.
Qed.


(** X9.  Oil phase appearance out of the gas (lines 1332-1372): when the gas
    variable is [Rv] and the stored ratio exceeds the smaller of the maximal
    vaporization factor and [rvSat * (1 + eps)], the call returns [true], the
    gas meaning becomes the saturation with the composition slot holding
    [1 - sw - ssol], and the pressure becomes the oil pressure
    [pg + (pC[oil] - pC[gas])]. *)
Theorem adaptPrimaryVariables_oil_appears :
  forall static_ (problem : Problem) idx eps pv,
    primaryVarsMeaningGas pv = GasMeaning.Rv ->
    primaryVarsMeaningWater pv = WaterMeaning.Sw
    \/ primaryVarsMeaningWater pv = WaterMeaning.Disabled ->
    0 <= eps ->
    read_sw I pv < thresholdWaterFilledCell static_ eps
    \/ enableDissolvedGasInWater FS = true ->
    validIdx pv (compositionSwitchIdx I) ->
    validIdx pv (pressureSwitchIdx I) ->
    pressureSwitchIdx I <> compositionSwitchIdx I ->
    let pv1 := fst (adaptBrine_ I P M eps pv) in
    let sw := read_sw I pv in
    let pg := at_ pv1 (pressureSwitchIdx I) in
    let rvSat := rvSat_ I P FS M (temperature_ I P FS pv) pg
                   (maxOilSaturation _ problem idx) pv1 in
    std_min (maxOilVaporizationFactor _ problem 0%nat idx) (rvSat * (1 + eps))
      < at_ pv1 (compositionSwitchIdx I) ->
    let sg2 := 1 - sw - solventSaturation_ I P pv1 in
    let pC := capPress 0 (sg2 + solventSaturation_ I P pv1) sw
                (materialLawParams _ problem idx) in
    let r := snd (adapt static_ problem idx eps pv) in
    fst r = true
    /\ primaryVarsMeaningGas (snd r) = GasMeaning.Sg
    /\ at_ (snd r) (compositionSwitchIdx I) = sg2
    /\ primaryVarsMeaningPressure (snd r) = PressureMeaning.Po
    /\ at_ (snd r) (pressureSwitchIdx I) = pg + (pC oilPhaseIdx - pC gasPhaseIdx)
    /\ primaryVarsMeaningWater (snd r) = primaryVarsMeaningWater pv.
Proof.
  intros static_ problem idx eps pv Hg Hw Heps Hsw Vc Vp Npc. cbv zeta. intros Hrv.
  unfold adaptPrimaryVariables. cbn [snd].
  pose proof (read_sg_Rv pv Hg) as Esg.
  rewrite adaptBody_gas_switch; auto.
  2: { rewrite Hg; discriminate. }
  2: { rewrite Esg. replace (Qgtb 0 eps) with false by (symmetry; apply Qgtb_false; exact Heps).
       rewrite andb_false_r. reflexivity. }
  2: { rewrite Esg. replace (Qltb 0 (- eps)) with false by (symmetry; apply Qltb_false; lra).
       reflexivity. }
  destruct (adaptBrine_frame I P M eps pv) as (Fw & Fg & Fp & _ & Fl).
  set (pv1 := fst (adaptBrine_ I P M eps pv)) in *.
  assert (Hv : forall i, validIdx pv i -> validIdx pv1 i).
  { intros i. unfold validIdx, FieldVector.valid. rewrite Fl. tauto. }
  unfold adaptGas_. rewrite Fg, Hg. cbv zeta.
  apply Qgtb_true in Hrv. rewrite Hrv. cbn [fst snd].
  repeat split; auto.
  - apply at_assign_eq. apply validIdx_assign. apply Hv, Vc.
  - rewrite at_assign_ne by exact Npc. apply at_assign_eq. apply Hv, Vp.
Qed.


(** X6.  Gas phase disappearance into the oil (lines 1254-1273): with the gas
    variable the saturation, a stored gas saturation below [-eps], dissolved
    gas enabled and a positive oil saturation [s = 1 - sw - ssol], the call
    returns [true], the gas meaning becomes [Rs] and the composition slot
    holds the smaller of the maximal gas dissolution factor and the saturated
    one.  The meanings of pressure and water, and the pressure slot, are
    kept. *)
Theorem adaptPrimaryVariables_gas_dissolves_in_oil :
  forall static_ (problem : Problem) idx eps pv,
    primaryVarsMeaningGas pv = GasMeaning.Sg ->
    primaryVarsMeaningWater pv = WaterMeaning.Sw
    \/ primaryVarsMeaningWater pv = WaterMeaning.Disabled ->
    0 <= eps ->
    enableDissolvedGasInWater FS = false ->
    read_sw I pv < thresholdWaterFilledCell static_ eps ->
    enableDissolvedGas FS = true ->
    validIdx pv (compositionSwitchIdx I) ->
    at_ pv (compositionSwitchIdx I) < - eps ->
    let pv1 := fst (adaptBrine_ I P M eps pv) in
    let s := 1 - read_sw I pv - solventSaturation_ I P pv1 in
    0 < s ->
    let rsSat := rsSat_ I P FS M (temperature_ I P FS pv) (at_ pv1 (pressureSwitchIdx I))
                   s (std_max s (maxOilSaturation _ problem idx)) pv1 in
    let r := snd (adapt static_ problem idx eps pv) in
    fst r = true
    /\ primaryVarsMeaningGas (snd r) = GasMeaning.Rs
    /\ at_ (snd r) (compositionSwitchIdx I)
       = std_min (maxGasDissolutionFactor _ problem 0%nat idx) rsSat
    /\ primaryVarsMeaningPressure (snd r) = primaryVarsMeaningPressure pv
    /\ primaryVarsMeaningWater (snd r) = primaryVarsMeaningWater pv
    /\ (pressureSwitchIdx I <> compositionSwitchIdx I ->
        at_ (snd r) (pressureSwitchIdx I) = at_ pv1 (pressureSwitchIdx I)).
Proof.
  intros static_ problem idx eps pv Hg Hw Heps Hdgiw Hsw Hdg Vc Hsg. cbv zeta. intros Hs.
  unfold adaptPrimaryVariables. cbn [snd].
  pose proof (read_sg_Sg pv Hg) as Esg.
  rewrite adaptBody_gas_switch; auto.
  2: { rewrite Hg; discriminate. }
  2: { rewrite Esg. replace (Qgtb (at_ pv (compositionSwitchIdx I)) eps) with false
         by (symmetry; apply Qgtb_false; lra).
       rewrite andb_false_r. reflexivity. }
  2: { rewrite Hdgiw. apply andb_false_r. }
  rewrite Esg.
  destruct (adaptBrine_frame I P M eps pv) as (Fw & Fg & Fp & _ & Fl).
  set (pv1 := fst (adaptBrine_ I P M eps pv)) in *.
  assert (Hv : forall i, validIdx pv i -> validIdx pv1 i).
  { intros i. unfold validIdx, FieldVector.valid. rewrite Fl. tauto. }
  unfold adaptGas_. rewrite Fg, Hg. cbv zeta.
  apply Qltb_true in Hsg. apply Qgtb_true in Hs. rewrite Hsg, Hs, Hdg.
  cbn [andb]. cbv beta iota.
  replace (Qgtb (at_ pv (compositionSwitchIdx I)) 0) with false
    by (symmetry; apply Qgtb_false; apply Qltb_true in Hsg; lra).
  rewrite andb_false_r. cbn [andb fst snd].
  repeat split; auto.
  - apply at_assign_eq. apply validIdx_setGas, Hv, Vc.
  - intros Npc. rewrite at_assign_ne by exact Npc. reflexivity.
Qed.


(** X7.  Oil phase disappearance into the gas (lines 1274-1304): with the gas
    variable the saturation, a positive gas saturation, vaporized oil enabled
    and an oil saturation [1 - sw - ssol - sg] below [-eps], the call returns
    [true], the gas meaning becomes [Rv], the pressure becomes the gas
    pressure [po + (pC[gas] - pC[oil])] and the composition slot holds the
    smaller of the maximal oil vaporization factor and the saturated one at
    that gas pressure. *)
Theorem adaptPrimaryVariables_oil_vaporizes :
  forall static_ (problem : Problem) idx eps pv,
    primaryVarsMeaningGas pv = GasMeaning.Sg ->
    primaryVarsMeaningWater pv = WaterMeaning.Sw
    \/ primaryVarsMeaningWater pv = WaterMeaning.Disabled ->
    0 <= eps ->
    read_sw I pv < thresholdWaterFilledCell static_ eps
    \/ enableDissolvedGasInWater FS = true ->
    - eps <= read_sw I pv \/ enableVaporizedWater FS = false ->
    enableVaporizedOil FS = true ->
    validIdx pv (compositionSwitchIdx I) ->
    validIdx pv (pressureSwitchIdx I) ->
    pressureSwitchIdx I <> compositionSwitchIdx I ->
    (enableExtbo P = true -> zFractionIdx I <> pressureSwitchIdx I) ->
    let pv1 := fst (adaptBrine_ I P M eps pv) in
    let sw := read_sw I pv in
    let sg := at_ pv (compositionSwitchIdx I) in
    0 < sg ->
    1 - sw - solventSaturation_ I P pv1 - sg < - eps ->
    let pC := capPress 0 (sg + solventSaturation_ I P pv1) sw
                (materialLawParams _ problem idx) in
    let pg := at_ pv1 (pressureSwitchIdx I) + (pC gasPhaseIdx - pC oilPhaseIdx) in
    let rvSat := rvSat_ I P FS M (temperature_ I P FS pv) pg
                   (maxOilSaturation _ problem idx) pv1 in
    let r := snd (adapt static_ problem idx eps pv) in
    fst r = true
    /\ primaryVarsMeaningGas (snd r) = GasMeaning.Rv
    /\ at_ (snd r) (compositionSwitchIdx I)
       = std_min (maxOilVaporizationFactor _ problem 0%nat idx) rvSat
    /\ primaryVarsMeaningPressure (snd r) = PressureMeaning.Pg
    /\ at_ (snd r) (pressureSwitchIdx I) = pg
    /\ primaryVarsMeaningWater (snd r) = primaryVarsMeaningWater pv.
Proof.
  intros static_ problem idx eps pv Hg Hw Heps Hsw Hvw Hvo Vc Vp Npc Nzp.
  cbv zeta. intros Hsg Hso.
  unfold adaptPrimaryVariables. cbn [snd].
  pose proof (read_sg_Sg pv Hg) as Esg.
  rewrite adaptBody_gas_switch; auto.
  2: { rewrite Hg; discriminate. }
  2: { destruct Hvw as [Hvw | Hvw].
       - apply Qltb_false in Hvw. rewrite Hvw. reflexivity.
       - rewrite Hvw. apply andb_false_r. }
  2: { rewrite Esg. replace (Qltb (at_ pv (compositionSwitchIdx I)) (- eps)) with false
         by (symmetry; apply Qltb_false; lra).
       reflexivity. }
  rewrite Esg.
  destruct (adaptBrine_frame I P M eps pv) as (Fw & Fg & Fp & _ & Fl).
  set (pv1 := fst (adaptBrine_ I P M eps pv)) in *.
  assert (Hv : forall i, validIdx pv i -> validIdx pv1 i).
  { intros i. unfold validIdx, FieldVector.valid. rewrite Fl. tauto. }
  unfold adaptGas_. rewrite Fg, Hg. cbv zeta.
  replace (Qltb (at_ pv (compositionSwitchIdx I)) (- eps)) with false
    by (symmetry; apply Qltb_false; lra).
  cbn [andb]. cbv beta iota.
  apply Qltb_true in Hso. apply Qgtb_true in Hsg. rewrite Hso, Hsg, Hvo.
  cbn [andb fst snd].
  repeat split; auto.
  - rewrite at_assign_eq
      by (apply validIdx_setGas, validIdx_assign, validIdx_setPressure, Hv, Vc).
    f_equal. unfold rvSat_, zFraction_.
    destruct (enableExtbo P) eqn:Ex; [|reflexivity].
    cbn [pvtRegionIndex pvtRegionIdx_ assign setPrimaryVarsMeaningPressure].
    rewrite at_assign_ne by (apply Nzp; reflexivity). reflexivity.
  - rewrite at_assign_ne by exact Npc. rewrite at_setGas.
    apply at_assign_eq. apply validIdx_setPressure, Hv, Vp.
Qed.


(** The body of the call outside of the all-water branch. *)
Lemma adaptBody_switches t (problem : Problem) idx eps pv :
  primaryVarsMeaningWater pv <> WaterMeaning.Disabled ->
  read_sw I pv < t \/ enableDissolvedGasInWater FS = true ->
  adaptBody t problem idx eps pv
  = let pv1 := fst (adaptBrine_ I P M eps pv) in
    let salt := snd (adaptBrine_ I P M eps pv) in
    let w := adaptWater problem idx eps (read_sw I pv) (read_sg I pv) salt
               (temperature_ I P FS pv) pv1 in
    adaptGas problem idx eps (read_sw I pv) (read_sg I pv) (temperature_ I P FS pv)
      (fst w) (snd w).
Proof.
  intros Hw Hsw. unfold adaptPrimaryVariablesBody_.
  assert (Ed : WaterMeaning.eqb (primaryVarsMeaningWater pv) WaterMeaning.Disabled
               && GasMeaning.eqb (primaryVarsMeaningGas pv) GasMeaning.Disabled = false).
  { destruct (primaryVarsMeaningWater pv); try reflexivity; congruence. }
  rewrite Ed.
  assert (Es : Qgeb (read_sw I pv) t && negb (enableDissolvedGasInWater FS) = false).
  { destruct Hsw as [Hsw | Hsw].
    - apply Qgeb_false in Hsw. rewrite Hsw. reflexivity.
    - rewrite Hsw. apply andb_false_r. }
  destruct (adaptBrine_ I P M eps pv) as [pv1 salt]. cbn [fst snd]. cbv zeta.
  rewrite Es.
  destruct (adaptWater problem idx eps (read_sw I pv) (read_sg I pv) salt
              (temperature_ I P FS pv) pv1) as [changed pv2].
  reflexivity.
Qed.

Lemma read_sw_not_Sw pv :
  primaryVarsMeaningWater pv <> WaterMeaning.Sw -> read_sw I pv = 0.
Proof.
  unfold read_sw. destruct (primaryVarsMeaningWater pv); cbn; congruence.
Qed.

(** X4.  Water phase appearance (lines 1187-1209): when the water variable is
    the vaporized-water ratio [Rvw] and the stored ratio exceeds
    [rvwSat * (1 + eps)], with [rvwSat] taken at the gas pressure of the cell,
    the call returns [true], the water meaning becomes the saturation and the
    water slot holds [0].  (The cell is not handled as all-water: the
    threshold is positive, or gas dissolves in water.) *)
Theorem adaptPrimaryVariables_water_appears :
  forall static_ (problem : Problem) idx eps pv,
    primaryVarsMeaningWater pv = WaterMeaning.Rvw ->
    0 < thresholdWaterFilledCell static_ eps \/ enableDissolvedGasInWater FS = true ->
    validIdx pv (waterSwitchIdx I) ->
    waterSwitchIdx I <> pressureSwitchIdx I ->
    waterSwitchIdx I <> compositionSwitchIdx I ->
    let pv1 := fst (adaptBrine_ I P M eps pv) in
    let saltConcentration := snd (adaptBrine_ I P M eps pv) in
    let p := gasPressureForRvw_ I P MaterialLawParams MaterialLaw_capillaryPressures
               problem idx (read_sg I pv) pv1 in
    let rvwSat := gasPvt_saturatedWaterVaporizationFactor FS (pvtRegionIdx_ pv)
                    (temperature_ I P FS pv) p saltConcentration in
    rvwSat * (1 + eps) < at_ pv1 (waterSwitchIdx I) ->
    let r := snd (adapt static_ problem idx eps pv) in
    fst r = true
    /\ primaryVarsMeaningWater (snd r) = WaterMeaning.Sw
    /\ at_ (snd r) (waterSwitchIdx I) = 0.
Proof.
  intros static_ problem idx eps pv Hw Hsw Vw Nwp Nwc. cbv zeta. intros Hrvw.
  unfold adaptPrimaryVariables. cbn [snd].
  assert (E0 : read_sw I pv = 0) by (apply read_sw_not_Sw; rewrite Hw; discriminate).
  rewrite adaptBody_switches.
  2: { rewrite Hw; discriminate. }
  2: { rewrite E0. exact Hsw. }
  cbv zeta.
  destruct (adaptBrine_frame I P M eps pv) as (Fw & Fg & Fp & Fr & Fl).
  set (pv1 := fst (adaptBrine_ I P M eps pv)) in *.
  set (salt := snd (adaptBrine_ I P M eps pv)) in *.
  assert (Hv : forall i, validIdx pv i -> validIdx pv1 i).
  { intros i. unfold validIdx, FieldVector.valid. rewrite Fl. tauto. }
  assert (W : adaptWater problem idx eps (read_sw I pv) (read_sg I pv) salt
                (temperature_ I P FS pv) pv1
              = (true, assign (waterSwitchIdx I) 0
                         (setPrimaryVarsMeaningWater WaterMeaning.Sw pv1))).
  { unfold adaptWater_. rewrite Fw, Hw. cbv zeta. rewrite Fr.
    apply Qgtb_true in Hrvw. rewrite Hrvw. reflexivity. }
  rewrite W. cbn [fst snd].
  rewrite adaptGas_reports, adaptGas_water_meaning.
  destruct (adaptGas_keeps problem idx eps (read_sw I pv) (read_sg I pv)
              (temperature_ I P FS pv) true
              (assign (waterSwitchIdx I) 0 (setPrimaryVarsMeaningWater WaterMeaning.Sw pv1)))
    as (_ & _ & K).
  rewrite K by (cbn; intros [E|[E|[]]]; congruence).
  repeat split.
  apply at_assign_eq. apply validIdx_setWater, Hv, Vw.
Qed.

(** X5.  Gas phase appearance out of the water (lines 1210-1236): when the
    water variable is the dissolved-gas ratio [Rsw] and the stored ratio
    exceeds the saturated one at the stored water pressure, the call returns
    [true], the water meaning becomes the saturation and the water slot holds
    [1].  The pressure becomes the gas pressure, the water pressure plus the
    capillary pressure difference between gas and water at [sw = 1]; this is
    what the call returns when the gas variable is disabled or is [Rs]. *)
Theorem adaptPrimaryVariables_gas_appears_from_water :
  forall static_ (problem : Problem) idx eps pv,
    primaryVarsMeaningWater pv = WaterMeaning.Rsw ->
    0 < thresholdWaterFilledCell static_ eps \/ enableDissolvedGasInWater FS = true ->
    validIdx pv (waterSwitchIdx I) ->
    validIdx pv (pressureSwitchIdx I) ->
    waterSwitchIdx I <> pressureSwitchIdx I ->
    waterSwitchIdx I <> compositionSwitchIdx I ->
    pressureSwitchIdx I <> compositionSwitchIdx I ->
    let pv1 := fst (adaptBrine_ I P M eps pv) in
    let saltConcentration := snd (adaptBrine_ I P M eps pv) in
    let pw := at_ pv1 (pressureSwitchIdx I) in
    let rswSat := waterPvt_saturatedGasDissolutionFactor FS (pvtRegionIdx_ pv)
                    (temperature_ I P FS pv) pw saltConcentration in
    rswSat < at_ pv1 (waterSwitchIdx I) ->
    let pC := capPress 0 0 1 (materialLawParams _ problem idx) in
    let r := snd (adapt static_ problem idx eps pv) in
    fst r = true
    /\ primaryVarsMeaningWater (snd r) = WaterMeaning.Sw
    /\ at_ (snd r) (waterSwitchIdx I) = 1
    /\ (primaryVarsMeaningGas pv = GasMeaning.Disabled
        \/ primaryVarsMeaningGas pv = GasMeaning.Rs ->
        primaryVarsMeaningPressure (snd r) = PressureMeaning.Pg
        /\ at_ (snd r) (pressureSwitchIdx I) = pw + (pC gasPhaseIdx - pC waterPhaseIdx)).
Proof.
  intros static_ problem idx eps pv Hw Hsw Vw Vp Nwp Nwc Npc. cbv zeta. intros Hrsw.
  unfold adaptPrimaryVariables. cbn [snd].
  assert (E0 : read_sw I pv = 0) by (apply read_sw_not_Sw; rewrite Hw; discriminate).
  rewrite adaptBody_switches.
  2: { rewrite Hw; discriminate. }
  2: { rewrite E0. exact Hsw. }
  cbv zeta.
  destruct (adaptBrine_frame I P M eps pv) as (Fw & Fg & Fp & Fr & Fl).
  set (pv1 := fst (adaptBrine_ I P M eps pv)) in *.
  set (salt := snd (adaptBrine_ I P M eps pv)) in *.
  assert (Hv : forall i, validIdx pv i -> validIdx pv1 i).
  { intros i. unfold validIdx, FieldVector.valid. rewrite Fl. tauto. }
  set (pC := capPress 0 0 1 (materialLawParams _ problem idx)).
  set (pvW := assign (pressureSwitchIdx I)
                (at_ pv1 (pressureSwitchIdx I) + (pC gasPhaseIdx - pC waterPhaseIdx))
                (setPrimaryVarsMeaningPressure PressureMeaning.Pg
                   (assign (waterSwitchIdx I) 1
                      (setPrimaryVarsMeaningWater WaterMeaning.Sw pv1)))).
  assert (W : adaptWater problem idx eps (read_sw I pv) (read_sg I pv) salt
                (temperature_ I P FS pv) pv1 = (true, pvW)).
  { unfold adaptWater_. rewrite Fw, Hw. cbv zeta. rewrite Fr.
    apply Qgtb_true in Hrsw. rewrite Hrsw. subst pvW pC.
    rewrite at_setPressure, (at_assign_ne _ (pressureSwitchIdx I) (waterSwitchIdx I))
      by congruence.
    reflexivity. }
  rewrite W. cbn [fst snd].
  rewrite adaptGas_reports, adaptGas_water_meaning.
  destruct (adaptGas_keeps problem idx eps (read_sw I pv) (read_sg I pv)
              (temperature_ I P FS pv) true pvW) as (_ & _ & K).
  rewrite K by (cbn; intros [E|[E|[]]]; congruence).
  assert (Aw : at_ pvW (waterSwitchIdx I) = 1).
  { subst pvW. rewrite at_assign_ne by exact Nwp. rewrite at_setPressure.
    apply at_assign_eq. apply validIdx_setWater, Hv, Vw. }
  assert (Ap : at_ pvW (pressureSwitchIdx I)
               = at_ pv1 (pressureSwitchIdx I) + (pC gasPhaseIdx - pC waterPhaseIdx)).
  { subst pvW. apply at_assign_eq.
    apply validIdx_setPressure, validIdx_assign, validIdx_setWater, Hv, Vp. }
  split; [reflexivity|]. split; [reflexivity|]. split; [exact Aw|].
  intros Hg.
  assert (Gg : primaryVarsMeaningGas pvW = primaryVarsMeaningGas pv) by (rewrite <- Fg; reflexivity).
  unfold adaptGas_. rewrite Gg.
  destruct Hg as [Hg | Hg]; rewrite Hg; cbv zeta.
  - cbn [snd]. split; [reflexivity | exact Ap].
  - destruct (Qgtb _ _); cbn [snd].
    + split; [reflexivity|]. rewrite at_assign_ne by exact Npc. rewrite at_setGas. exact Ap.
    + split; [reflexivity | exact Ap].
Qed.


(** *** The brine switch settles *)

(** What the rest of the call, after the brine switch, leaves alone. *)
Lemma adaptBody_after_brine t (problem : Problem) idx eps pv :
  let pv1 := fst (adaptBrine_ I P M eps pv) in
  let pv' := snd (adaptBody t problem idx eps pv) in
  WaterMeaning.eqb (primaryVarsMeaningWater pv) WaterMeaning.Disabled
    && GasMeaning.eqb (primaryVarsMeaningGas pv) GasMeaning.Disabled = false ->
  primaryVarsMeaningBrine pv' = primaryVarsMeaningBrine pv1
  /\ keeps [waterSwitchIdx I; pressureSwitchIdx I; compositionSwitchIdx I] pv1 pv'.
Proof.
  cbv zeta. intros Hd. unfold adaptPrimaryVariablesBody_. rewrite Hd.
  destruct (adaptBrine_ I P M eps pv) as [pv1 salt]. cbn [fst].
  destruct (Qgeb _ _ && negb _).
  - split; [apply waterFilledCell_brine|].
    eapply keeps_weaken; [|apply waterFilledCell_keeps]. cbn; tauto.
  - pose proof (adaptWater_keeps problem idx eps (read_sw I pv) (read_sg I pv)
                  salt (temperature_ I P FS pv) pv1) as Kw.
    pose proof (adaptWater_brine I P FS MaterialLawParams MaterialLaw_capillaryPressures
                  problem idx eps (read_sw I pv) (read_sg I pv)
                  salt (temperature_ I P FS pv) pv1) as Bw.
    destruct (adaptWater problem idx eps (read_sw I pv) (read_sg I pv)
                salt (temperature_ I P FS pv) pv1) as [changed pv2].
    cbn [snd] in Kw, Bw.
    rewrite (adaptGas_brine I P FS M MaterialLawParams MaterialLaw_capillaryPressures), Bw.
    split; [reflexivity|].
    eapply keeps_trans.
    + eapply keeps_weaken; [|exact Kw]. cbn; tauto.
    + eapply keeps_weaken; [|apply adaptGas_keeps]. cbn; tauto.
Qed.

(** After the brine switch, the brine switch has nothing to do. *)
Lemma adaptBrine_settled eps pv pv' :
  0 <= eps ->
  validIdx pv (saltConcentrationIdx I) ->
  let pv1 := fst (adaptBrine_ I P M eps pv) in
  primaryVarsMeaningBrine pv' = primaryVarsMeaningBrine pv1 ->
  at_ pv' (saltConcentrationIdx I) = at_ pv1 (saltConcentrationIdx I) ->
  pvtRegionIdx_ pv' = pvtRegionIdx_ pv ->
  fst (adaptBrine_ I P M eps pv') = pv'.
Proof.
  intros Heps Vs. cbv zeta. unfold adaptBrine_, pvtRegionIndex.
  destruct (enableSaltPrecipitation P); [|reflexivity].
  intros Mb As Rg. rewrite Rg.
  set (sol := BrineModule_saltSol M (pvtRegionIdx_ pv)) in *.
  destruct (primaryVarsMeaningBrine pv) eqn:Eb; cbv zeta in Mb, As.
  - (* Cs *)
    destruct (Qgtb (at_ pv (saltConcentrationIdx I)) (sol + eps)) eqn:E;
      cbn [fst] in Mb, As.
    + rewrite at_assign_eq in As by exact Vs.
      assert (Mb' : primaryVarsMeaningBrine pv' = BrineMeaning.Sp) by exact Mb.
      rewrite Mb', As.
      replace (Qltb 0 (- eps)) with false by (symmetry; apply Qltb_false; lra).
      reflexivity.
    + rewrite Mb, Eb, As, E. reflexivity.
  - (* Sp *)
    destruct (Qltb (at_ pv (saltConcentrationIdx I)) (- eps)) eqn:E;
      cbn [fst] in Mb, As.
    + rewrite at_assign_eq in As by exact Vs.
      assert (Mb' : primaryVarsMeaningBrine pv' = BrineMeaning.Cs) by exact Mb.
      rewrite Mb', As.
      replace (Qgtb sol (sol + eps)) with false by (symmetry; apply Qgtb_false; lra).
      reflexivity.
    + rewrite Mb, Eb, As, E. reflexivity.
  - cbn [fst] in Mb. rewrite Mb, Eb. reflexivity.
Qed.

(** X3.  The brine switch of [adaptPrimaryVariables] (lines 1092-1112)
    settles in one call: for a tolerance [eps >= 0] and a salt slot that is
    valid and distinct from the three switch slots, a second call on the
    result of a first one changes neither the brine meaning nor the salt
    slot. *)
Theorem adaptPrimaryVariables_brine_settles :
  forall static_ (problem : Problem) idx eps pv,
    0 <= eps ->
    validIdx pv (saltConcentrationIdx I) ->
    saltConcentrationIdx I <> waterSwitchIdx I ->
    saltConcentrationIdx I <> pressureSwitchIdx I ->
    saltConcentrationIdx I <> compositionSwitchIdx I ->
    let r1 := adapt static_ problem idx eps pv in
    let r2 := adapt (fst r1) problem idx eps (snd (snd r1)) in
    primaryVarsMeaningBrine (snd (snd r2)) = primaryVarsMeaningBrine (snd (snd r1))
    /\ at_ (snd (snd r2)) (saltConcentrationIdx I)
       = at_ (snd (snd r1)) (saltConcentrationIdx I).
Proof.
  intros static_ problem idx eps pv Heps Vs Nw Np Nc. cbv zeta.
  unfold adaptPrimaryVariables. cbn [fst snd thresholdWaterFilledCell].
  set (t := thresholdWaterFilledCell static_ eps). clearbody t.
  assert (Hout : forall i, In i [waterSwitchIdx I; pressureSwitchIdx I; compositionSwitchIdx I]
                           -> i <> saltConcentrationIdx I).
  { cbn. intros i [E|[E|[E|[]]]]; congruence. }
  destruct (WaterMeaning.eqb (primaryVarsMeaningWater pv) WaterMeaning.Disabled
            && GasMeaning.eqb (primaryVarsMeaningGas pv) GasMeaning.Disabled) eqn:Hd.
  { assert (E : adaptBody t problem idx eps pv = (false, pv)).
    { unfold adaptPrimaryVariablesBody_. rewrite Hd. reflexivity. }
    rewrite E. cbn [snd]. rewrite E. split; reflexivity. }
  destruct (adaptBody_after_brine t problem idx eps pv Hd) as (B1 & (R1 & L1 & K1)).
  destruct (adaptBrine_keeps eps pv) as (Rb & Lb & _).
  set (pv1 := fst (adaptBrine_ I P M eps pv)) in *.
  set (pv' := snd (adaptBody t problem idx eps pv)) in *.
  assert (A1 : at_ pv' (saltConcentrationIdx I) = at_ pv1 (saltConcentrationIdx I)).
  { apply K1. intros Hin. exact (Hout _ Hin eq_refl). }
  destruct (WaterMeaning.eqb (primaryVarsMeaningWater pv') WaterMeaning.Disabled
            && GasMeaning.eqb (primaryVarsMeaningGas pv') GasMeaning.Disabled) eqn:Hd'.
  { assert (E : adaptBody t problem idx eps pv' = (false, pv')).
    { unfold adaptPrimaryVariablesBody_. rewrite Hd'. reflexivity. }
    rewrite E. split; reflexivity. }
  destruct (adaptBody_after_brine t problem idx eps pv' Hd') as (B2 & (_ & _ & K2)).
  assert (S : fst (adaptBrine_ I P M eps pv') = pv').
  { apply (adaptBrine_settled eps pv pv' Heps Vs); [exact B1 | exact A1 | congruence]. }
  rewrite S in B2, K2. split; [exact B2|].
  apply K2. intros Hin. exact (Hout _ Hin eq_refl).
Qed.

End PrimaryVariablesFrame.

(* ===================================================================== *)
(** ** Normalising the saturations twice *)
(* ===================================================================== *)

Section Saturations.

Import BlackOilPrimaryVariables.

Variable I : Indices.
Variable P : Properties.






(** X10.  [chopAndNormalizeSaturations] (lines 1383-1417) can overwrite a
    saturation and still return [false]: with the water variable the
    saturation, a stored water saturation of at least [1] and no positive
    other saturation, the water slot is set to [1] and the call returns
    [false], because the flag compares the sum of the clamped saturations
    with [1]. *)
Theorem chopAndNormalizeSaturations_silent_clamp :
  forall pv,
    primaryVarsMeaningWater pv = WaterMeaning.Sw ->
    saturationSlotsOk I P pv ->
    let '(sw, so, sg, ssol) := readSaturations_ I P pv in
    1 <= sw -> so <= 0 -> sg <= 0 -> ssol <= 0 ->
    let r := chopAndNormalizeSaturations I P pv in
    fst r = false /\ at_ (snd r) (waterSwitchIdx I) == 1.
Proof.
  intros pv Hw Hok.
  assert (Hd : WaterMeaning.eqb (primaryVarsMeaningWater pv) WaterMeaning.Disabled
               && GasMeaning.eqb (primaryVarsMeaningGas pv) GasMeaning.Disabled = false).
  { rewrite Hw. reflexivity. }
  pose proof (chopAndNormalizeSaturations_reads I P pv Hd Hok) as R.
  destruct (readSaturations_ I P pv) as [[[sw so] sg] ssol].
  intros H1 H2 H3 H4. cbv zeta in R |- *.
  unfold readSaturations_ in R at 1.
  cbv zeta in R.
  destruct R as (F & Ew & _ & _ & _ & Mw & _).
  rewrite Mw, Hw in Ew. cbn [WaterMeaning.eqb] in Ew.
  assert (Cw : chop sw == 1).
  { destruct (chop_cases sw) as [[? ->]|[[? ->]|[? ->]]]; lra. }
  assert (Co : chop so == 0).
  { destruct (chop_cases so) as [[? ->]|[[? ->]|[? ->]]]; lra. }
  assert (Cg : chop sg == 0).
  { destruct (chop_cases sg) as [[? ->]|[[? ->]|[? ->]]]; lra. }
  assert (Cs : chop ssol == 0).
  { destruct (chop_cases ssol) as [[? ->]|[[? ->]|[? ->]]]; lra. }
  assert (St : chop sw + chop so + chop sg + chop ssol == 1) by lra.
  split.
  - rewrite F. apply negb_false_iff, Qeq_bool_iff, St.
  - rewrite Ew, St, Cw. reflexivity.
Qed.

End Saturations.

(* ===================================================================== *)
(** ** Assigning the primary variables from a fluid state *)
(* ===================================================================== *)

Section Assign.

Import BlackOilPrimaryVariables BlackOilPrimaryVariablesAssign.

Variable I : Indices.
Variable P : Properties.
Variable FS : FluidSystem.
Variable numActivePhases : nat.
Context {A : Type} `{Decay A Scalar}.
Variable getSaltSaturation_ : FluidState A -> nat -> Scalar.
Variable EnergyModule_assignPrimaryVars : t -> FluidState A -> t.

Local Abbreviation assignNaive' :=
  (assignNaive I P FS numActivePhases getSaltSaturation_ EnergyModule_assignPrimaryVars).

(** The meanings that [assignNaive] selects, read off the result. *)
Lemma assignNaive_meanings fs pv :
  let present ph :=
    if phaseIsActive FS ph then Qgtb (decay (saturation fs ph)) 0 else false in
  let pv' := assignNaive' fs pv in
  primaryVarsMeaningPressure pv'
  = (if present gasPhaseIdx && enableVaporizedOil FS && negb (present oilPhaseIdx)
     then PressureMeaning.Pg
     else if phaseIsActive FS oilPhaseIdx then PressureMeaning.Po
     else if present waterPhaseIdx && enableDissolvedGasInWater FS
             && negb (present gasPhaseIdx)
          then PressureMeaning.Pw
     else if phaseIsActive FS gasPhaseIdx then PressureMeaning.Pg
     else PressureMeaning.Pw)
  /\ primaryVarsMeaningWater pv'
     = (if present waterPhaseIdx && present gasPhaseIdx then WaterMeaning.Sw
        else if present gasPhaseIdx && enableVaporizedWater FS then WaterMeaning.Rvw
        else if present waterPhaseIdx && enableDissolvedGasInWater FS then WaterMeaning.Rsw
        else if phaseIsActive FS waterPhaseIdx && negb (Nat.eqb numActivePhases 1)
             then WaterMeaning.Sw
        else WaterMeaning.Disabled)
  /\ primaryVarsMeaningGas pv'
     = (if present gasPhaseIdx && present oilPhaseIdx then GasMeaning.Sg
        else if present oilPhaseIdx && enableDissolvedGas FS then GasMeaning.Rs
        else if present gasPhaseIdx && enableVaporizedOil FS then GasMeaning.Rv
        else if phaseIsActive FS gasPhaseIdx && phaseIsActive FS oilPhaseIdx
             then GasMeaning.Sg
        else GasMeaning.Disabled)
  /\ primaryVarsMeaningBrine pv'
     = (if enableSaltPrecipitation P then
          if Qgtb (getSaltSaturation_ fs (pvtRegionIdx_ pv)) 0
          then BrineMeaning.Sp else BrineMeaning.Cs
        else BrineMeaning.Disabled).
Proof.
  cbv zeta. unfold assignNaive. cbv zeta.
  set (pw := if phaseIsActive FS waterPhaseIdx then _ else false).
  set (po := if phaseIsActive FS oilPhaseIdx then _ else false).
  set (pg := if phaseIsActive FS gasPhaseIdx then _ else false).
  set (mp := if pg && enableVaporizedOil FS && negb po then _ else _).
  set (mw := if pw && pg then _ else _).
  set (mg := if pg && po then _ else _).
  set (mb := if enableSaltPrecipitation P then _ else _).
  assert (Eb : mb = (if enableSaltPrecipitation P then
                       if Qgtb (getSaltSaturation_ fs (pvtRegionIdx_ pv)) 0
                       then BrineMeaning.Sp else BrineMeaning.Cs
                     else BrineMeaning.Disabled)).
  { subst mb. destruct (enableSaltPrecipitation P); reflexivity. }
  rewrite <- Eb. clearbody mp mw mg mb.
  unfold primaryVarsMeaningWater, primaryVarsMeaningGas, primaryVarsMeaningPressure,
    primaryVarsMeaningBrine.
  cbn [primaryVarsMeaningWater_ primaryVarsMeaningGas_ primaryVarsMeaningPressure_
       primaryVarsMeaningBrine_ setPrimaryVarsMeaningWater setPrimaryVarsMeaningGas
       setPrimaryVarsMeaningPressure setPrimaryVarsMeaningBrine assign].
  destruct mw, mg; cbn; repeat split; reflexivity.
Qed.

(** X12.  The meanings that [assignNaive] (lines 911-1050) selects are
    supported by the fluid system: [Sg] needs the gas and the oil phase, [Rs]
    dissolved gas and the oil phase, [Rv] vaporized oil and the gas phase,
    [Sw] the water phase, [Rvw] vaporized water and the gas phase, [Rsw] gas
    dissolved in water and the water phase; the brine variable is disabled
    exactly when salt precipitation is; and the pressure is that of an active
    phase whenever a phase is active. *)
Theorem assignNaive_meanings_supported :
  forall fs pv,
    let pv' := assignNaive' fs pv in
    (primaryVarsMeaningGas pv' = GasMeaning.Sg ->
     phaseIsActive FS gasPhaseIdx = true /\ phaseIsActive FS oilPhaseIdx = true)
    /\ (primaryVarsMeaningGas pv' = GasMeaning.Rs ->
        enableDissolvedGas FS = true /\ phaseIsActive FS oilPhaseIdx = true)
    /\ (primaryVarsMeaningGas pv' = GasMeaning.Rv ->
        enableVaporizedOil FS = true /\ phaseIsActive FS gasPhaseIdx = true)
    /\ (primaryVarsMeaningWater pv' = WaterMeaning.Sw ->
        phaseIsActive FS waterPhaseIdx = true)
    /\ (primaryVarsMeaningWater pv' = WaterMeaning.Rvw ->
        enableVaporizedWater FS = true /\ phaseIsActive FS gasPhaseIdx = true)
    /\ (primaryVarsMeaningWater pv' = WaterMeaning.Rsw ->
        enableDissolvedGasInWater FS = true /\ phaseIsActive FS waterPhaseIdx = true)
    /\ (primaryVarsMeaningBrine pv' = BrineMeaning.Disabled
        <-> enableSaltPrecipitation P = false)
    /\ ((exists ph, phaseIsActive FS ph = true) ->
        phaseIsActive FS (pressurePhase (primaryVarsMeaningPressure pv')) = true).
Proof.
  intros fs pv. cbv zeta.
  destruct (assignNaive_meanings fs pv) as (Mp & Mw & Mg & Mb).
  rewrite Mp, Mw, Mg, Mb. clear Mp Mw Mg Mb.
  destruct (phaseIsActive FS waterPhaseIdx) eqn:Aw,
           (phaseIsActive FS oilPhaseIdx) eqn:Ao,
           (phaseIsActive FS gasPhaseIdx) eqn:Ag;
    destruct (enableDissolvedGas FS), (enableDissolvedGasInWater FS),
             (enableVaporizedOil FS), (enableVaporizedWater FS),
             (enableSaltPrecipitation P);
    repeat match goal with
    | |- context [Qgtb ?x ?y] => destruct (Qgtb x y)
    | |- context [Nat.eqb ?x ?y] => destruct (Nat.eqb x y)
    end;
    cbn; repeat split; intros; try discriminate; try reflexivity; try assumption;
    try match goal with
    | H : exists ph, _ |- _ => destruct H as [[| |] H]; congruence
    end.
Qed.


(** The primary variables that the value assignments of [assignNaive]
    start from: those the energy module returns, with the selected
    meanings. *)
Lemma assignNaive_values fs pv :
  let pv0 := EnergyModule_assignPrimaryVars pv fs in
  let pv' := assignNaive' fs pv in
  let vp := decay (pressure fs (pressurePhase (primaryVarsMeaningPressure pv'))) in
  let v1 := FieldVector.set (values pv0) (pressureSwitchIdx I) vp in
  let v2 := match primaryVarsMeaningWater pv' with
            | WaterMeaning.Sw =>
                FieldVector.set v1 (waterSwitchIdx I) (decay (saturation fs waterPhaseIdx))
            | WaterMeaning.Rvw =>
                FieldVector.set v1 (waterSwitchIdx I) (getRvw_ fs (pvtRegionIdx_ pv0))
            | WaterMeaning.Rsw =>
                FieldVector.set v1 (waterSwitchIdx I) (getRsw_ fs (pvtRegionIdx_ pv0))
            | WaterMeaning.Disabled => v1
            end in
  values pv'
  = match primaryVarsMeaningGas pv' with
    | GasMeaning.Sg =>
        FieldVector.set v2 (compositionSwitchIdx I) (decay (saturation fs gasPhaseIdx))
    | GasMeaning.Rs =>
        FieldVector.set v2 (compositionSwitchIdx I) (getRs_ fs (pvtRegionIdx_ pv0))
    | GasMeaning.Rv =>
        FieldVector.set v2 (compositionSwitchIdx I) (getRv_ fs (pvtRegionIdx_ pv0))
    | GasMeaning.Disabled => v2
    end
  /\ pvtRegionIdx_ pv' = pvtRegionIdx_ pv0.
Proof.
  cbv zeta. unfold assignNaive. cbv zeta.
  set (mp := if _ && enableVaporizedOil FS && negb _ then _ else _).
  set (mw := if _ && _ then WaterMeaning.Sw else _).
  set (mg := if _ && _ then GasMeaning.Sg else _).
  set (mb := if enableSaltPrecipitation P then _ else _).
  clearbody mp mw mg mb.
  unfold primaryVarsMeaningWater, primaryVarsMeaningGas, primaryVarsMeaningPressure.
  destruct mw, mg; cbn; split; reflexivity.
Qed.

(** X13.  What [assignNaive] stores (lines 985-1048): the pressure slot holds
    the pressure of the phase named by the pressure meaning, the water slot
    the water saturation, [Rvw] or [Rsw] according to the water meaning, the
    composition slot the gas saturation, [Rs] or [Rv] according to the gas
    meaning; the slot of a disabled variable is the one left by the energy
    module.  The three slots are distinct and every slot written is valid. *)
Theorem assignNaive_stores :
  forall fs pv,
    let pv0 := EnergyModule_assignPrimaryVars pv fs in
    let pv' := assignNaive' fs pv in
    waterSwitchIdx I <> pressureSwitchIdx I ->
    waterSwitchIdx I <> compositionSwitchIdx I ->
    pressureSwitchIdx I <> compositionSwitchIdx I ->
    validIdx pv0 (pressureSwitchIdx I) ->
    (primaryVarsMeaningWater pv' <> WaterMeaning.Disabled -> validIdx pv0 (waterSwitchIdx I)) ->
    (primaryVarsMeaningGas pv' <> GasMeaning.Disabled ->
     validIdx pv0 (compositionSwitchIdx I)) ->
    at_ pv' (pressureSwitchIdx I)
    = decay (pressure fs (pressurePhase (primaryVarsMeaningPressure pv')))
    /\ at_ pv' (waterSwitchIdx I)
       = match primaryVarsMeaningWater pv' with
         | WaterMeaning.Sw => decay (saturation fs waterPhaseIdx)
         | WaterMeaning.Rvw => decay (Rvw fs)
         | WaterMeaning.Rsw => decay (Rsw fs)
         | WaterMeaning.Disabled => at_ pv0 (waterSwitchIdx I)
         end
    /\ at_ pv' (compositionSwitchIdx I)
       = match primaryVarsMeaningGas pv' with
         | GasMeaning.Sg => decay (saturation fs gasPhaseIdx)
         | GasMeaning.Rs => decay (Rs fs)
         | GasMeaning.Rv => decay (Rv fs)
         | GasMeaning.Disabled => at_ pv0 (compositionSwitchIdx I)
         end.
Proof.
  intros fs pv. cbv zeta. intros Nwp Nwc Npc Vp Vw Vc.
  destruct (assignNaive_values fs pv) as [E _]. cbv zeta in E.
  unfold at_. rewrite E. clear E.
  unfold validIdx in *.
  set (v0 := values (EnergyModule_assignPrimaryVars pv fs)) in *.
  destruct (primaryVarsMeaningWater _) eqn:Ew; destruct (primaryVarsMeaningGas _) eqn:Eg;
    repeat split;
    repeat first
      [ rewrite FieldVector_get_set_eq
          by (rewrite ?FieldVector_valid_set; first [exact Vp | apply Vw | apply Vc];
              discriminate)
      | rewrite FieldVector_get_set_ne by congruence ];
    reflexivity.
Qed.

(** X14.  [assignNaive] keeps the PVT region and the size of the vector, and
    writes no slot other than the three switch slots after the energy
    module has run. *)
Theorem assignNaive_frame :
  forall fs pv,
    let pv0 := EnergyModule_assignPrimaryVars pv fs in
    let pv' := assignNaive' fs pv in
    pvtRegionIdx_ pv' = pvtRegionIdx_ pv0
    /\ length (values pv') = length (values pv0)
    /\ (forall i, i <> pressureSwitchIdx I -> i <> waterSwitchIdx I ->
                  i <> compositionSwitchIdx I -> at_ pv' i = at_ pv0 i).
Proof.
  intros fs pv. cbv zeta.
  destruct (assignNaive_values fs pv) as [E R]. cbv zeta in E.
  split; [exact R|].
  unfold at_. rewrite E. clear E R.
  destruct (primaryVarsMeaningWater _), (primaryVarsMeaningGas _);
    (split; [rewrite ?FieldVector_length_set; reflexivity|]);
    intros i N1 N2 N3; rewrite ?FieldVector_get_set_ne by assumption; reflexivity.
Qed.



Section Stability.

Variable M : ModuleOracles.
Variable MaterialLawParams : Type.
Variable MaterialLaw_capillaryPressures :
  MaterialLawParams -> SatOnlyFluidState -> Phase -> Scalar.

(** X16.  Single-phase systems: when at most one phase is active,
    [numActivePhases] is [1] and nothing dissolves or vaporizes, [assignNaive]
    disables the water and the gas variable, and both
    [adaptPrimaryVariables] and [chopAndNormalizeSaturations] return [false]
    on the result and leave it unchanged. *)
Theorem assignNaive_single_phase_is_stable :
  forall fs pv,
    let pv' := assignNaive' fs pv in
    (forall ph ph', phaseIsActive FS ph = true -> phaseIsActive FS ph' = true -> ph = ph') ->
    numActivePhases = 1%nat ->
    enableDissolvedGas FS = false ->
    enableDissolvedGasInWater FS = false ->
    enableVaporizedOil FS = false ->
    enableVaporizedWater FS = false ->
    primaryVarsMeaningWater pv' = WaterMeaning.Disabled
    /\ primaryVarsMeaningGas pv' = GasMeaning.Disabled
    /\ (forall static_ (problem : Problem MaterialLawParams) idx eps,
          snd (adaptPrimaryVariables I P FS M MaterialLawParams
                 MaterialLaw_capillaryPressures static_ problem idx eps pv')
          = (false, pv'))
    /\ chopAndNormalizeSaturations I P pv' = (false, pv').
Proof.
  intros fs pv. cbv zeta. intros Hone Hn Hdg Hdgiw Hvo Hvw.
  destruct (assignNaive_meanings fs pv) as (_ & Mw & Mg & _). cbv zeta in Mw, Mg.
  set (pv' := assignNaive' fs pv) in *.
  assert (Ew : primaryVarsMeaningWater pv' = WaterMeaning.Disabled
               /\ primaryVarsMeaningGas pv' = GasMeaning.Disabled).
  { rewrite Mw, Mg, Hn, Hdg, Hdgiw, Hvo, Hvw. cbn [Nat.eqb negb]. rewrite !andb_false_r.
    destruct (phaseIsActive FS waterPhaseIdx) eqn:Aw,
             (phaseIsActive FS oilPhaseIdx) eqn:Ao,
             (phaseIsActive FS gasPhaseIdx) eqn:Ag;
      cbn [andb]; rewrite ?andb_false_r; try (split; reflexivity);
      exfalso;
      first [ specialize (Hone waterPhaseIdx oilPhaseIdx Aw Ao)
            | specialize (Hone waterPhaseIdx gasPhaseIdx Aw Ag)
            | specialize (Hone oilPhaseIdx gasPhaseIdx Ao Ag) ];
      discriminate Hone. }
  destruct Ew as [Ew Eg].
  split; [exact Ew|]. split; [exact Eg|]. split.
  - intros static_ problem idx eps. unfold adaptPrimaryVariables. cbn [snd].
    unfold adaptPrimaryVariablesBody_. rewrite Ew, Eg. reflexivity.
  - unfold chopAndNormalizeSaturations. rewrite Ew, Eg. reflexivity.
Qed.

End Stability.

(** X17.  [setPvtRegionIndex] (lines 767-768) stores the region in an
    [unsigned short]: [pvtRegionIndex] reads back the value that was set
    exactly when the value is below [2^16]; the vector and the meanings are
    untouched. *)
Theorem setPvtRegionIndex_round_trip :
  forall value pv,
    (pvtRegionIndex (setPvtRegionIndex value pv) = value <-> (value < 2 ^ 16)%nat)
    /\ values (setPvtRegionIndex value pv) = values pv
    /\ primaryVarsMeaningWater (setPvtRegionIndex value pv) = primaryVarsMeaningWater pv
    /\ primaryVarsMeaningGas (setPvtRegionIndex value pv) = primaryVarsMeaningGas pv
    /\ primaryVarsMeaningPressure (setPvtRegionIndex value pv)
       = primaryVarsMeaningPressure pv
    /\ primaryVarsMeaningBrine (setPvtRegionIndex value pv) = primaryVarsMeaningBrine pv.
Proof.
  intros value pv. split; [|repeat split].
  unfold pvtRegionIndex, setPvtRegionIndex. cbn [pvtRegionIdx_].
  split.
  - intros E. rewrite <- E. apply Nat.mod_upper_bound. discriminate.
  - intros Hlt. apply Nat.mod_small. exact Hlt.
Qed.

End Assign.

(* ===================================================================== *)
(** ** The flux over a face, entry by entry *)
(* ===================================================================== *)

Section FluxValues.

Import BlackOilLocalResidualTPFA.

Variable I : Indices.
Variable P : Properties.
Variable FS : FluidSystem.
Variable calculatePhasePressureDiff_ :
  IntensiveQuantities -> IntensiveQuantities -> Phase -> Z -> Z ->
  Scalar -> Scalar -> nat -> nat -> Scalar -> Scalar -> PhasePressureDiff.

Local Abbreviation computeFlux' := (computeFlux I P FS calculatePhasePressureDiff_).

Local Abbreviation pressureDiffOf := (facePressureDiff calculatePhasePressureDiff_).

(** X18.  The value of every entry of the flux of [computeFlux] (lines
    206-255, 328-435) in closed form: the sum, over the active phases, of the
    value of the pressure difference of the phase times the coefficient of
    the upwind cell (which does not depend on the pressure difference). *)
Theorem computeFlux_flux_values :
  forall (problem : Problem) gIn gEx iqIn iqEx trans faceArea facedir,
    let r := pressureDiffOf problem gIn gEx iqIn iqEx in
    let result := computeFlux' problem gIn gEx iqIn iqEx trans faceArea facedir in
    length (fst result) = numEq I
    /\ forall i, (i < numEq I)%nat ->
         let term ph :=
           if phaseIsActive FS ph
           then value (pressureDifference (r ph))
                * upwindCoefficient I P FS (upwind_ iqIn iqEx (r ph)) ph
                    trans faceArea facedir i
           else 0 in
         value (EqVector.get (fst result) i)
         == term waterPhaseIdx + term oilPhaseIdx + term gasPhaseIdx.
Proof.
  intros problem gIn gEx iqIn iqEx trans faceArea facedir. cbv zeta.
  unfold computeFlux, calculateFluxes_. cbv zeta. unfold allPhases. cbn [foldl].
  set (zero := replicate (numEq I) (Eval.const 0)).
  set (step := fluxPhase_ I P FS calculatePhasePressureDiff_ iqIn iqEx _ _ gIn gEx _ _
                 trans faceArea facedir).
  assert (L : forall a ph, length (fst (step a ph)) = length (fst a)).
  { intros [f d] ph. apply fluxPhase_length. }
  assert (L0 : length zero = numEq I) by apply length_replicate.
  split; [rewrite !L; exact L0|].
  intros i Hi.
  assert (V : forall a ph, (i < length (fst a))%nat ->
             value (EqVector.get (fst (step a ph)) i)
             == value (EqVector.get (fst a) i)
                + (if phaseIsActive FS ph
                   then value (pressureDifference (pressureDiffOf problem gIn gEx iqIn iqEx ph))
                        * upwindCoefficient I P FS
                            (upwind_ iqIn iqEx (pressureDiffOf problem gIn gEx iqIn iqEx ph))
                            ph trans faceArea facedir i
                   else 0)).
  { intros [f d] ph Hl. cbn [fst] in Hl |- *. subst step. unfold facePressureDiff.
    apply (fluxPhase_value I P FS calculatePhasePressureDiff_). exact Hl. }
  rewrite !V by (rewrite ?L; cbn [fst]; rewrite L0; exact Hi).
  cbn [fst]. subst zero. rewrite EqVector_get_replicate by exact Hi.
  cbn [value Eval.const]. ring.
Qed.


(** *** No flow without a pressure difference *)

Lemma allZero_add_at (v : RateVector) i x :
  Eval.equiv x (Eval.const 0) -> allZero v -> allZero (EqVector.add_at Eval.add i x v).
Proof.
  intros Hx Hv. unfold allZero, EqVector.add_at. apply Forall_alter; [exact Hv|].
  intros e _ He. rewrite He, Hx. split; cbn; [ring | intros; ring].
Qed.

Lemma allZero_set (v : RateVector) i x :
  Eval.equiv x (Eval.const 0) -> allZero v -> allZero (EqVector.set i x v).
Proof.
  intros Hx Hv. unfold allZero, EqVector.set. apply Forall_insert; assumption.
Qed.

Lemma muls_zero x c : Eval.equiv x (Eval.const 0) -> Eval.equiv (Eval.muls x c) (Eval.const 0).
Proof. intros ->. split; cbn; [ring | intros; ring]. Qed.

Lemma mul_zero_r a x : Eval.equiv x (Eval.const 0) -> Eval.equiv (Eval.mul a x) (Eval.const 0).
Proof. intros ->. split; cbn; [ring | intros; ring]. Qed.

Lemma smul_zero_r a x : Eval.equiv x (Eval.const 0) -> Eval.equiv (Eval.smul a x) (Eval.const 0).
Proof. intros ->. split; cbn; [ring | intros; ring]. Qed.

Ltac zero_flux :=
  unfold evalPhaseFluxes_; cbv zeta;
  match goal with |- context [match ?ph with waterPhaseIdx => _ | _ => _ end] =>
    destruct ph end;
  repeat match goal with |- context [if ?b then _ else _] => destruct b end;
  repeat first
    [ assumption
    | apply allZero_add_at
    | apply muls_zero
    | apply mul_zero_r
    | apply smul_zero_r ].

Lemma evalPhaseFluxes_allZero_Evaluation (flux : RateVector) ph region svf
    (upFs : FluidState Evaluation) :
  Eval.equiv svf (Eval.const 0) -> allZero flux ->
  allZero (evalPhaseFluxes_ I P FS (U := Evaluation) flux ph region svf upFs).
Proof. intros Hs Hf. cbn [up_mul UpEval_Evaluation]. zero_flux. Qed.

Lemma evalPhaseFluxes_allZero_Scalar (flux : RateVector) ph region svf
    (upFs : FluidState Evaluation) :
  Eval.equiv svf (Eval.const 0) -> allZero flux ->
  allZero (evalPhaseFluxes_ I P FS (U := Scalar) flux ph region svf upFs).
Proof. intros Hs Hf. cbn [up_mul UpEval_Scalar]. zero_flux. Qed.

(** X19.  No pressure difference, no flow: when the value of the pressure
    difference of every active phase is zero, every entry of the flux and of
    the Darcy vector of [computeFlux] is zero. *)
Theorem computeFlux_no_flow :
  forall (problem : Problem) gIn gEx iqIn iqEx trans faceArea facedir,
    (forall ph, phaseIsActive FS ph = true ->
       value (pressureDifference (pressureDiffOf problem gIn gEx iqIn iqEx ph)) == 0) ->
    let result := computeFlux' problem gIn gEx iqIn iqEx trans faceArea facedir in
    allZero (fst result) /\ allZero (snd result).
Proof.
  intros problem gIn gEx iqIn iqEx trans faceArea facedir Hpd. cbv zeta.
  unfold computeFlux, calculateFluxes_. cbv zeta. unfold allPhases. cbn [foldl].
  set (zero := replicate (numEq I) (Eval.const 0)).
  assert (Z0 : allZero zero) by (apply Forall_replicate; reflexivity).
  set (step := fluxPhase_ I P FS calculatePhasePressureDiff_ iqIn iqEx _ _ gIn gEx _ _
                 trans faceArea facedir).
  assert (Hstep : forall a ph, allZero (fst a) -> allZero (snd a) ->
             allZero (fst (step a ph)) /\ allZero (snd (step a ph))).
  { intros [f d] ph Zf Zd. cbn [fst snd] in Zf, Zd. subst step.
    unfold fluxPhase_. cbv zeta.
    destruct (phaseIsActive FS ph) eqn:Ea; cbn [negb]; [|split; assumption].
    specialize (Hpd ph Ea). unfold facePressureDiff in Hpd.
    set (r := calculatePhasePressureDiff_ iqIn iqEx ph interiorDofIdx exteriorDofIdx
                _ _ gIn gEx _ _) in *.
    assert (D : forall up gUp,
               darcyFlux_ (pressureDifference r) up gUp gIn ph trans faceArea facedir
               = Eval.const 0).
    { intros up gUp. unfold darcyFlux_, Eval.eqs. cbv zeta.
      apply Qeq_bool_iff in Hpd. rewrite Hpd. reflexivity. }
    rewrite !D.
    assert (Zd' : allZero (EqVector.set (eqIdx I (solventComponentIndex ph))
                             (Eval.const (value (Eval.const 0) * faceArea)) d)).
    { apply allZero_set; [|exact Zd]. split; cbn; [ring | intros; reflexivity]. }
    destruct (Nat.eqb _ gIn); cbn [fst snd]; (split; [|exact Zd']).
    - apply evalPhaseFluxes_allZero_Evaluation; [|exact Zf].
      apply mul_zero_r. reflexivity.
    - apply evalPhaseFluxes_allZero_Scalar; [|exact Zf].
      apply smul_zero_r. reflexivity. }
  destruct (Hstep (zero, zero) waterPhaseIdx Z0 Z0) as [A1 B1].
  destruct (Hstep _ oilPhaseIdx A1 B1) as [A2 B2].
  exact (Hstep _ gasPhaseIdx A2 B2).
Qed.


(** *** The entries that are written *)

Lemma evalPhaseFluxes_other {U A : Type} `{UpEval U} `{Decay A U}
    (flux : RateVector) ph region svf (upFs : FluidState A) i :
  (forall c, i <> eqIdx I c) ->
  EqVector.get (evalPhaseFluxes_ I P FS flux ph region svf upFs) i = EqVector.get flux i.
Proof.
  intros Hi. unfold evalPhaseFluxes_. cbv zeta.
  destruct ph;
    repeat match goal with |- context [if ?b then _ else _] => destruct b end;
    rewrite ?EqVector_get_add_at_ne by apply Hi; reflexivity.
Qed.

Lemma get_zero_vector n i : EqVector.get (replicate n (Eval.const 0)) i = Eval.const 0.
Proof.
  destruct (Nat.lt_ge_cases i n) as [Hi|Hi].
  - apply EqVector_get_replicate, Hi.
  - rewrite EqVector_get_beyond by (rewrite length_replicate; exact Hi). reflexivity.
Qed.

(** X20.  [computeFlux] writes the equations of the three components only:
    the flux and the Darcy vector have [numEq] entries, an entry of the flux
    that is the equation of no component is the constant [0], and so is an
    entry of the Darcy vector that is the equation of the solvent component
    of no active phase. *)
Theorem computeFlux_frame :
  forall (problem : Problem) gIn gEx iqIn iqEx trans faceArea facedir,
    let result := computeFlux' problem gIn gEx iqIn iqEx trans faceArea facedir in
    length (fst result) = numEq I
    /\ length (snd result) = numEq I
    /\ (forall i, (i < numEq I)%nat -> (forall c, i <> eqIdx I c) ->
                  EqVector.get (fst result) i = Eval.const 0)
    /\ (forall i, (i < numEq I)%nat ->
                  (forall ph, phaseIsActive FS ph = true ->
                              i <> eqIdx I (solventComponentIndex ph)) ->
                  EqVector.get (snd result) i = Eval.const 0).
Proof.
  intros problem gIn gEx iqIn iqEx trans faceArea facedir. cbv zeta.
  unfold computeFlux, calculateFluxes_. cbv zeta. unfold allPhases. cbn [foldl].
  set (zero := replicate (numEq I) (Eval.const 0)).
  set (step := fluxPhase_ I P FS calculatePhasePressureDiff_ iqIn iqEx _ _ gIn gEx _ _
                 trans faceArea facedir).
  assert (L : forall a ph, length (fst (step a ph)) = length (fst a)
                           /\ length (snd (step a ph)) = length (snd a)).
  { intros [f d] ph. apply fluxPhase_length. }
  assert (L0 : length zero = numEq I) by apply length_replicate.
  split; [rewrite !(proj1 (L _ _)); exact L0|].
  split; [rewrite !(proj2 (L _ _)); exact L0|].
  split.
  - intros i _ Hi.
    assert (F : forall a ph, EqVector.get (fst (step a ph)) i = EqVector.get (fst a) i).
    { intros [f d] ph. subst step. unfold fluxPhase_. cbv zeta.
      destruct (phaseIsActive FS ph); cbn [negb fst]; [|reflexivity].
      destruct (Nat.eqb _ gIn); cbn [fst]; apply evalPhaseFluxes_other; exact Hi. }
    rewrite !F. cbn [fst]. apply get_zero_vector.
  - intros i _ Hi.
    assert (F : forall a ph, EqVector.get (snd (step a ph)) i = EqVector.get (snd a) i).
    { intros [f d] ph. subst step.
      destruct (phaseIsActive FS ph) eqn:Ea.
      - rewrite fluxPhase_darcy by exact Ea. cbn [snd].
        apply EqVector_get_set_ne. apply Hi, Ea.
      - unfold fluxPhase_. rewrite Ea. reflexivity. }
    rewrite !F. cbn [snd]. apply get_zero_vector.
Qed.

(** X21.  The Darcy entry of [computeFlux] (line 385): when the
    equations of the three components are distinct, the entry of an active
    phase is a constant, the volumetric rate
    [-trans * mobility * transMult * pressureDifference] with the mobility
    and the multiplier of the upwind cell; the face area cancels. *)
Theorem computeFlux_darcy_rate :
  forall (problem : Problem) gIn gEx iqIn iqEx trans faceArea facedir ph,
    componentEquationsOk I ->
    phaseIsActive FS ph = true ->
    ~ faceArea == 0 ->
    let r := pressureDiffOf problem gIn gEx iqIn iqEx ph in
    let up := upwind_ iqIn iqEx r in
    let result := computeFlux' problem gIn gEx iqIn iqEx trans faceArea facedir in
    exists rate,
      EqVector.get (snd result) (eqIdx I (solventComponentIndex ph)) = Eval.const rate
      /\ rate == - trans * value (mobility up ph facedir)
                 * value (rockCompTransMultiplier up) * value (pressureDifference r).
Proof.
  intros problem gIn gEx iqIn iqEx trans faceArea facedir ph [Hlt Hinj] Ha Hf. cbv zeta.
  unfold computeFlux, calculateFluxes_. cbv zeta. unfold allPhases. cbn [foldl].
  set (zero := replicate (numEq I) (Eval.const 0)).
  set (step := fluxPhase_ I P FS calculatePhasePressureDiff_ iqIn iqEx _ _ gIn gEx _ _
                 trans faceArea facedir).
  set (i := eqIdx I (solventComponentIndex ph)).
  assert (L : forall a ph, length (snd (step a ph)) = length (snd a)).
  { intros [f d] ph'. apply fluxPhase_length. }
  assert (L0 : length zero = numEq I) by apply length_replicate.
  set (rate := value (phaseDarcyFlux_ calculatePhasePressureDiff_ iqIn iqEx
                        (dofTotalVolume problem gIn) (dofTotalVolume problem gEx) gIn gEx
                        ((dofCenterDepth problem gIn - dofCenterDepth problem gEx)
                         * gravity problem)
                        (thresholdPressure problem gIn gEx) trans faceArea facedir ph)
                * faceArea).
  assert (Same : forall a, length (snd a) = numEq I ->
             EqVector.get (snd (step a ph)) i = Eval.const rate).
  { intros [f d] Hl. cbn [snd] in Hl. subst step.
    rewrite fluxPhase_darcy by exact Ha.
    apply EqVector_get_set_eq. rewrite Hl. apply Hlt. }
  assert (Other : forall a ph', ph' <> ph ->
             EqVector.get (snd (step a ph')) i = EqVector.get (snd a) i).
  { intros [f d] ph' Hne. subst step.
    destruct (phaseIsActive FS ph') eqn:Ea'.
    - rewrite fluxPhase_darcy by exact Ea'. cbn [snd].
      apply EqVector_get_set_ne. subst i. intros E. apply Hinj in E.
      apply Hne. destruct ph, ph'; try reflexivity; discriminate E.
    - unfold fluxPhase_. rewrite Ea'. reflexivity. }
  exists rate. split.
  - destruct ph.
    + rewrite !Other by discriminate. apply Same. cbn [snd]. exact L0.
    + rewrite Other by discriminate. apply Same. rewrite L. cbn [snd]. exact L0.
    + apply Same. rewrite !L. cbn [snd]. exact L0.
  - subst rate. rewrite phaseDarcyFlux_value. unfold facePressureDiff. field. exact Hf.
Qed.

End FluxValues.

(* ===================================================================== *)
(** ** Mass against surface volume *)
(* ===================================================================== *)

Section Conservation.

Import BlackOilLocalResidualTPFA.

Variable I : Indices.
Variable FS : FluidSystem.

(** Two configurations that differ in the conserved quantity only:
    [Pv] conserves surface volumes, [Pm] conserves masses. *)
Variable Pv Pm : Properties.
Hypothesis conserveVolume : blackoilConserveSurfaceVolume Pv = true.
Hypothesis conserveMass : blackoilConserveSurfaceVolume Pm = false.

Hypothesis Hok : componentEquationsOk I.







Section ConservationFlux.

Variable calculatePhasePressureDiff_ :
  IntensiveQuantities -> IntensiveQuantities -> Phase -> Z -> Z ->
  Scalar -> Scalar -> nat -> nat -> Scalar -> Scalar -> PhasePressureDiff.



End ConservationFlux.





Section ConservationBoundary.

Variable calculateBoundaryGradients_ :
  Problem -> nat -> IntensiveQuantities -> nat -> Scalar -> Scalar ->
  FluidState Scalar -> BoundaryGradients.




End ConservationBoundary.

End Conservation.

(* ===================================================================== *)
(** ** The convergence criterion *)
(* ===================================================================== *)

Section Criterion.

Import WeightedResidReductionCriterion.

Variable comm_max : Scalar -> Scalar.
Variable dimension : nat.

Local Abbreviation setInitial' := (setInitial comm_max dimension).
Local Abbreviation update' := (update comm_max dimension).
Local Abbreviation iterate' := (iterate comm_max dimension).

Lemma std_max_floor e : 1 # 10 ^ 20 <= std_max e (1 # 10 ^ 20).
Proof. apply std_max_spec. Qed.

Lemma setInitial_floor curSol curResid c :
  let c' := setInitial' curSol curResid c in
  1 # 10 ^ 20 <= initialError_ c' /\ error_ c' = initialError_ c'
  /\ tolerance_ c' = tolerance_ c /\ weightVec_ c' = weightVec_ c.
Proof. cbv zeta. unfold setInitial. cbn. repeat split. apply std_max_floor. Qed.

Lemma Qdiv_le_iff a b c : 0 < b -> (a / b <= c <-> a <= c * b).
Proof.
  intros Hb. split; intros H.
  - assert (E : a == a / b * b) by (field; lra).
    rewrite E. apply Qmult_le_compat_r; [exact H | lra].
  - apply Qle_shift_div_r; assumption.
Qed.

(** X24.  [WeightedResidReductionCriterion::setInitial] (lines 859-867): the
    initial error is at least [1e-20] and equals the error, so the accuracy is
    [1] and the criterion is converged right away exactly when the tolerance
    is at least [1]. *)
Theorem setInitial_accuracy_is_one :
  forall curSol curResid c,
    let c' := setInitial' curSol curResid c in
    1 # 10 ^ 20 <= initialError_ c'
    /\ error_ c' = initialError_ c'
    /\ accuracy c' == 1
    /\ (converged c' = true <-> 1 <= tolerance c).
Proof.
  intros curSol curResid c. cbv zeta.
  destruct (setInitial_floor curSol curResid c) as (F & E & T & _). cbv zeta in F, E, T.
  set (c' := setInitial' curSol curResid c) in *.
  assert (Hpos : 0 < initialError_ c').
  { eapply Qlt_le_trans; [|exact F]. reflexivity. }
  split; [exact F|]. split; [exact E|].
  unfold converged, accuracy, tolerance. rewrite E, T.
  assert (E1 : initialError_ c' / initialError_ c' == 1) by (field; lra).
  split; [exact E1|].
  rewrite Qle_bool_iff, E1. reflexivity.
Qed.

Lemma iterate_keeps c steps :
  initialError_ (iterate' c steps) = initialError_ c
  /\ tolerance_ (iterate' c steps) = tolerance_ c
  /\ weightVec_ (iterate' c steps) = weightVec_ c.
Proof.
  revert c. induction steps as [|s steps IH]; intros c; [repeat split|].
  cbn [iterate foldl]. destruct (IH (update' (fst s) (snd s) c)) as (A & B & C).
  unfold iterate in *. rewrite A, B, C. repeat split.
Qed.

(** X25.  After [setInitial] and any number of [update]s the initial error
    is the one of [setInitial], hence positive, and [converged] (lines
    881-884) holds exactly when the error is at most the tolerance times the
    initial error: the division of [accuracy] is never a division by zero. *)
Theorem converged_iff_error_reduced :
  forall curSol curResid c steps,
    let c0 := setInitial' curSol curResid c in
    let c' := iterate' c0 steps in
    initialError_ c' = initialError_ c0
    /\ 1 # 10 ^ 20 <= initialError_ c'
    /\ (converged c' = true <-> error_ c' <= tolerance c * initialError_ c0).
Proof.
  intros curSol curResid c steps. cbv zeta.
  destruct (iterate_keeps (setInitial' curSol curResid c) steps) as (A & B & _).
  destruct (setInitial_floor curSol curResid c) as (F & _ & T0 & _).
  cbv zeta in F, T0.
  set (c0 := setInitial' curSol curResid c) in *.
  set (c' := iterate' c0 steps) in *.
  split; [exact A|]. split; [rewrite A; exact F|].
  unfold converged, accuracy, tolerance. rewrite A, B, T0.
  assert (Hpos : 0 < initialError_ c0).
  { eapply Qlt_le_trans; [|exact F]. reflexivity. }
  rewrite Qle_bool_iff. apply Qdiv_le_iff. exact Hpos.
Qed.


(** A running maximum from [e0] over the values of [f] on a list: it
    stays at [e0] or moves to a strictly larger value of [f]. *)
Lemma foldl_std_max {X : Type} (f : X -> Scalar) (l : list X) e0 :
  let r := foldl (fun e x => std_max e (f x)) e0 l in
  e0 <= r /\ (forall x, In x l -> f x <= r)
  /\ (r = e0 \/ (e0 < r /\ exists x, In x l /\ r = f x)).
Proof.
  cbv zeta. revert e0. induction l as [|y l IH]; intros e0; cbn [foldl].
  - split; [lra|]. split; [intros x []|]. left; reflexivity.
  - destruct (IH (std_max e0 (f y))) as (A & B & C).
    assert (M : (std_max e0 (f y) = e0 /\ f y <= e0)
                \/ (std_max e0 (f y) = f y /\ e0 < f y)).
    { unfold std_max. destruct (Qltb e0 (f y)) eqn:E.
      - right. apply Qltb_true in E. split; [reflexivity | exact E].
      - left. apply Qltb_false in E. split; [reflexivity | exact E]. }
    destruct M as [[M1 M2] | [M1 M2]]; rewrite M1 in *.
    + split; [exact A|]. split.
      * intros x [<- | Hx]; [lra | apply B, Hx].
      * destruct C as [C | (L & x & Hx & C)]; [left; exact C|].
        right. split; [exact L|]. exists x. split; [right; exact Hx | exact C].
    + split; [lra|]. split.
      * intros x [<- | Hx]; [lra | apply B, Hx].
      * right. destruct C as [C | (L & x & Hx & C)].
        -- rewrite C. split; [exact M2|]. exists y. split; [left; reflexivity | reflexivity].
        -- split; [lra|]. exists x. split; [right; exact Hx | exact C].
Qed.

(** The same over the entries of a vector of blocks. *)
Lemma foldl_std_max_blocks (g : nat -> nat -> Scalar) (n d : nat) e0 :
  let r := foldl (fun e i => foldl (fun e j => std_max e (g i j)) e (seq 0 d)) e0 (seq 0 n) in
  e0 <= r
  /\ (forall i j, (i < n)%nat -> (j < d)%nat -> g i j <= r)
  /\ (r = e0 \/ (e0 < r /\ exists i j, (i < n)%nat /\ (j < d)%nat /\ r = g i j)).
Proof.
  cbv zeta.
  assert (G : forall l e0,
             let r := foldl (fun e i => foldl (fun e j => std_max e (g i j)) e (seq 0 d))
                        e0 l in
             e0 <= r
             /\ (forall i j, In i l -> (j < d)%nat -> g i j <= r)
             /\ (r = e0 \/ (e0 < r /\ exists i j, In i l /\ (j < d)%nat /\ r = g i j))).
  { induction l as [|i l IH]; intros e; cbv zeta; cbn [foldl].
    - split; [lra|]. split; [intros i j []|]. left; reflexivity.
    - destruct (foldl_std_max (g i) (seq 0 d) e) as (A & B & C). cbv zeta in A, B, C.
      set (e1 := foldl (fun e j => std_max e (g i j)) e (seq 0 d)) in *.
      destruct (IH e1) as (A' & B' & C'). cbv zeta in A', B', C'.
      split; [lra|]. split.
      + intros i' j [<- | Hi] Hj.
        * specialize (B j). rewrite in_seq in B. specialize (B ltac:(lia)). lra.
        * apply B'; assumption.
      + destruct C' as [C' | (L' & i' & j & Hi & Hj & C')].
        * rewrite C'. destruct C as [C | (L & j & Hj & C)]; [left; exact C|].
          right. split; [exact L|]. exists i, j. rewrite in_seq in Hj.
          split; [left; reflexivity|]. split; [lia | exact C].
        * right. split; [lra|]. exists i', j.
          split; [right; exact Hi|]. split; assumption. }
  destruct (G (seq 0 n) e0) as (A & B & C). cbv zeta in A, B, C.
  split; [exact A|]. split.
  - intros i j Hi Hj. apply B; [apply in_seq; lia | exact Hj].
  - destruct C as [C | (L & i & j & Hi & Hj & C)]; [left; exact C|].
    right. split; [exact L|]. exists i, j. rewrite in_seq in Hi.
    split; [lia|]. split; assumption.
Qed.

(** X26.  [updateError_] (lines 888-898) on one process: for a residual whose
    blocks have [dimension] entries and weights that are absent or have the
    shape of the residual, the error after [update] is not negative, is at
    least the weighted absolute value of every entry of the residual, and is
    [0] or attained at an entry. *)
Theorem update_error_is_weighted_maximum :
  forall curSol curResid c,
    (forall x, comm_max x = x) ->
    wellShaped dimension curResid c ->
    let e := error_ (update' curSol curResid c) in
    0 <= e
    /\ (forall i j, (i < length curResid)%nat -> (j < dimension)%nat ->
                    weight c i j * Qabs ((curResid !!! i) !!! j) <= e)
    /\ (e = 0 \/ exists i j, (i < length curResid)%nat /\ (j < dimension)%nat
                             /\ e = weight c i j * Qabs ((curResid !!! i) !!! j)).
Proof.
  intros curSol curResid c Hcomm _. cbv zeta.
  unfold update, updateError_. cbv zeta. cbn [error_]. rewrite Hcomm.
  destruct (foldl_std_max_blocks
              (fun i j => weight c i j * Qabs ((curResid !!! i) !!! j))
              (length curResid) dimension 0) as (A & B & C).
  cbv zeta in A, B, C.
  split; [exact A|]. split; [exact B|].
  destruct C as [C | (_ & C)]; [left; exact C | right; exact C].
Qed.

(** X27.  A residual that is zero everywhere: [setInitial] floors the error
    at [1e-20], so the criterion is converged only for a tolerance of at
    least [1]; one [update] with the same residual gives the error [0], and
    the criterion is converged for every tolerance that is not negative. *)
Theorem zero_initial_residual :
  forall curSol curResid c,
    (forall x, comm_max x = x) ->
    wellShaped dimension curResid c ->
    (forall i j, (i < length curResid)%nat -> (j < dimension)%nat ->
                 (curResid !!! i) !!! j == 0) ->
    let c0 := setInitial' curSol curResid c in
    let c1 := update' curSol curResid c0 in
    error_ c0 = 1 # 10 ^ 20
    /\ (converged c0 = true <-> 1 <= tolerance c)
    /\ error_ c1 = 0
    /\ (converged c1 = true <-> 0 <= tolerance c).
Proof.
  intros curSol curResid c Hcomm _ Hz. cbv zeta.
  assert (Z : forall c', error_ (updateError_ comm_max dimension curResid c') = 0).
  { intros c'. unfold updateError_. cbv zeta. cbn [error_]. rewrite Hcomm.
    destruct (foldl_std_max_blocks
                (fun i j => weight c' i j * Qabs ((curResid !!! i) !!! j))
                (length curResid) dimension 0) as (_ & _ & C).
    cbv zeta in C. destruct C as [C | (L & i & j & Hi & Hj & C)]; [exact C|].
    exfalso. rewrite C in L. rewrite (Hz i j Hi Hj) in L.
    change (Qabs 0) with 0 in L. lra. }
  assert (E0 : error_ (setInitial' curSol curResid c) = 1 # 10 ^ 20).
  { unfold setInitial. cbv zeta. cbn [error_]. rewrite Z. reflexivity. }
  destruct (setInitial_floor curSol curResid c) as (F & E & T & _). cbv zeta in F, E, T.
  set (c0 := setInitial' curSol curResid c) in *.
  split; [exact E0|]. split.
  { unfold converged, accuracy, tolerance. rewrite <- E, E0, T.
    rewrite Qle_bool_iff.
    assert (E1 : (1 # 10 ^ 20) / (1 # 10 ^ 20) == 1) by reflexivity.
    rewrite E1. reflexivity. }
  unfold update. split; [apply Z|].
  unfold converged, accuracy, tolerance. rewrite Z.
  cbn [updateError_ initialError_ tolerance_]. rewrite T.
  rewrite Qle_bool_iff.
  assert (E1 : 0 / initialError_ c0 == 0) by (unfold Qdiv; ring).
  rewrite E1. reflexivity.
Qed.

End Criterion.

(* ===================================================================== *)
(** ** Further concrete instances *)
(* ===================================================================== *)

Section FurtherPrimaryVariablesExamples.

Import BlackOilPrimaryVariables Examples FurtherExamples.

Local Abbreviation adapt3 FS :=
  (adaptPrimaryVariables threePhaseIndices (plainProperties true) FS moduleOracles
     Q (fun scale => capillaryPressures scale)).

Ltac slot_ok := unfold validIdx, FieldVector.valid; cbn; lia.

Lemma adaptPrimaryVariables_false_keeps_meanings_witness :
  let r := snd (adapt3 fluidSystemNoGasInWater None problem 0%nat 0 allWater) in
  fst r = false
  /\ primaryVarsMeaningWater (snd r) = WaterMeaning.Sw
  /\ primaryVarsMeaningPressure (snd r) = PressureMeaning.Po
  /\ primaryVarsMeaningGas (snd r) = GasMeaning.Sg.
Proof.
  cbv zeta. split; [reflexivity|].
  exact (adaptPrimaryVariables_false_keeps_meanings
           threePhaseIndices (plainProperties true) fluidSystemNoGasInWater moduleOracles
           Q (fun scale => capillaryPressures scale) None problem 0%nat 0 allWater
           eq_refl).
Defined.

Lemma adaptPrimaryVariables_brine_settles_witness :
  let adaptSalt :=
    adaptPrimaryVariables saltIndices saltProperties fluidSystemAll moduleOracles
      Q (fun scale => capillaryPressures scale) in
  let r1 := adaptSalt None problem 0%nat 0 saltDissolves in
  let r2 := adaptSalt (fst r1) problem 0%nat 0 (snd (snd r1)) in
  primaryVarsMeaningBrine (snd (snd r1)) = BrineMeaning.Cs
  /\ primaryVarsMeaningBrine (snd (snd r2)) = primaryVarsMeaningBrine (snd (snd r1))
  /\ at_ (snd (snd r2)) (saltConcentrationIdx saltIndices)
     = at_ (snd (snd r1)) (saltConcentrationIdx saltIndices).
Proof.
  cbv zeta. split; [reflexivity|].
  apply (adaptPrimaryVariables_brine_settles
           saltIndices saltProperties fluidSystemAll moduleOracles
           Q (fun scale => capillaryPressures scale) None problem 0%nat 0 saltDissolves).
  - discriminate.
  - slot_ok.
  - discriminate.
  - discriminate.
  - discriminate.
Defined.

Lemma adaptPrimaryVariables_water_appears_witness :
  let r := snd (adapt3 fluidSystemAll None problem 0%nat 0 waterAppears) in
  fst r = true
  /\ primaryVarsMeaningWater (snd r) = WaterMeaning.Sw
  /\ at_ (snd r) (waterSwitchIdx threePhaseIndices) = 0.
Proof.
  apply (adaptPrimaryVariables_water_appears
           threePhaseIndices (plainProperties true) fluidSystemAll moduleOracles
           Q (fun scale => capillaryPressures scale) None problem 0%nat 0 waterAppears).
  - reflexivity.
  - left. reflexivity.
  - slot_ok.
  - discriminate.
  - discriminate.
  - reflexivity.
Defined.

Lemma adaptPrimaryVariables_gas_appears_from_water_witness :
  let r := snd (adapt3 fluidSystemAll None problem 0%nat 0 gasAppearsFromWater) in
  fst r = true
  /\ primaryVarsMeaningWater (snd r) = WaterMeaning.Sw
  /\ at_ (snd r) (waterSwitchIdx threePhaseIndices) = 1
  /\ primaryVarsMeaningPressure (snd r) = PressureMeaning.Pg
  /\ at_ (snd r) (pressureSwitchIdx threePhaseIndices) == 102.
Proof.
  pose proof (adaptPrimaryVariables_gas_appears_from_water
                threePhaseIndices (plainProperties true) fluidSystemAll moduleOracles
                Q (fun scale => capillaryPressures scale) None problem 0%nat 0
                gasAppearsFromWater) as T.
  cbv zeta in T |- *.
  destruct T as (T1 & T2 & T3 & T4);
    [ reflexivity | left; reflexivity | slot_ok | slot_ok
    | discriminate | discriminate | discriminate | reflexivity | ].
  destruct T4 as (T4 & T5); [left; reflexivity|].
  split; [exact T1|]. split; [exact T2|]. split; [exact T3|]. split; [exact T4|].
  rewrite T5. reflexivity.
Defined.

Lemma adaptPrimaryVariables_gas_dissolves_in_oil_witness :
  let r := snd (adapt3 fluidSystemNoGasInWater None problem 0%nat 0 gasDissolves) in
  fst r = true
  /\ primaryVarsMeaningGas (snd r) = GasMeaning.Rs
  /\ at_ (snd r) (compositionSwitchIdx threePhaseIndices) == 50
  /\ primaryVarsMeaningPressure (snd r) = PressureMeaning.Po.
Proof.
  pose proof (adaptPrimaryVariables_gas_dissolves_in_oil
                threePhaseIndices (plainProperties true) fluidSystemNoGasInWater
                moduleOracles Q (fun scale => capillaryPressures scale) None problem 0%nat 0
                gasDissolves) as T.
  cbv zeta in T |- *.
  destruct T as (T1 & T2 & T3 & T4 & _);
    [ reflexivity | left; reflexivity | discriminate | reflexivity | reflexivity
    | reflexivity | slot_ok | reflexivity | reflexivity | ].
  split; [exact T1|]. split; [exact T2|]. split; [rewrite T3; reflexivity | exact T4].
Defined.

Lemma adaptPrimaryVariables_oil_vaporizes_witness :
  let r := snd (adapt3 fluidSystemNoGasInWater None problem 0%nat 0 oilVaporizes) in
  fst r = true
  /\ primaryVarsMeaningGas (snd r) = GasMeaning.Rv
  /\ at_ (snd r) (compositionSwitchIdx threePhaseIndices) == 201 # 1024
  /\ primaryVarsMeaningPressure (snd r) = PressureMeaning.Pg
  /\ at_ (snd r) (pressureSwitchIdx threePhaseIndices) == 201 # 2.
Proof.
  pose proof (adaptPrimaryVariables_oil_vaporizes
                threePhaseIndices (plainProperties true) fluidSystemNoGasInWater
                moduleOracles Q (fun scale => capillaryPressures scale) None problem 0%nat 0
                oilVaporizes) as T.
  cbv zeta in T |- *.
  destruct T as (T1 & T2 & T3 & T4 & T5 & _);
    [ reflexivity | left; reflexivity | discriminate | left; reflexivity
    | left; discriminate | reflexivity | slot_ok | slot_ok | discriminate
    | discriminate | reflexivity | reflexivity | ].
  split; [exact T1|]. split; [exact T2|]. split; [rewrite T3; reflexivity|].
  split; [exact T4 | rewrite T5; reflexivity].
Defined.

Lemma adaptPrimaryVariables_gas_appears_from_oil_witness :
  let r := snd (adapt3 fluidSystemNoGasInWater None problem 0%nat 0 gasAppears) in
  fst r = true
  /\ primaryVarsMeaningGas (snd r) = GasMeaning.Sg
  /\ at_ (snd r) (compositionSwitchIdx threePhaseIndices) = 0.
Proof.
  pose proof (adaptPrimaryVariables_gas_appears_from_oil
                threePhaseIndices (plainProperties true) fluidSystemNoGasInWater
                moduleOracles Q (fun scale => capillaryPressures scale) None problem 0%nat 0
                gasAppears) as T.
  cbv zeta in T |- *.
  destruct T as (T1 & T2 & T3 & _);
    [ reflexivity | left; reflexivity | discriminate | left; reflexivity | slot_ok
    | reflexivity | ].
  split; [exact T1|]. split; [exact T2 | exact T3].
Defined.

Lemma adaptPrimaryVariables_oil_appears_witness :
  let r := snd (adapt3 fluidSystemNoGasInWater None problem 0%nat 0 oilAppears) in
  fst r = true
  /\ primaryVarsMeaningGas (snd r) = GasMeaning.Sg
  /\ at_ (snd r) (compositionSwitchIdx threePhaseIndices) == 3 # 4
  /\ primaryVarsMeaningPressure (snd r) = PressureMeaning.Po
  /\ at_ (snd r) (pressureSwitchIdx threePhaseIndices) == 199 # 2.
Proof.
  pose proof (adaptPrimaryVariables_oil_appears
                threePhaseIndices (plainProperties true) fluidSystemNoGasInWater
                moduleOracles Q (fun scale => capillaryPressures scale) None problem 0%nat 0
                oilAppears) as T.
  cbv zeta in T |- *.
  destruct T as (T1 & T2 & T3 & T4 & T5 & _);
    [ reflexivity | left; reflexivity | discriminate | left; reflexivity | slot_ok
    | slot_ok | discriminate | reflexivity | ].
  split; [exact T1|]. split; [exact T2|]. split; [rewrite T3; reflexivity|].
  split; [exact T4 | rewrite T5; reflexivity].
Defined.

End FurtherPrimaryVariablesExamples.

Section FurtherSaturationExamples.

Import BlackOilPrimaryVariables Examples FurtherExamples.

Ltac slot_ok := unfold validIdx, FieldVector.valid; cbn; lia.

Lemma threePhase_saturationSlotsOk pv :
  length (values pv) = 3%nat ->
  saturationSlotsOk threePhaseIndices (plainProperties true) pv.
Proof.
  intros Hl. unfold saturationSlotsOk, validIdx, FieldVector.valid. rewrite Hl. cbn.
  repeat split; try discriminate; intros; lia.
Qed.

Lemma chopAndNormalizeSaturations_silent_clamp_witness :
  let r := chopAndNormalizeSaturations threePhaseIndices (plainProperties true)
             waterOvershoot in
  at_ waterOvershoot (waterSwitchIdx threePhaseIndices) = 2
  /\ fst r = false
  /\ at_ (snd r) (waterSwitchIdx threePhaseIndices) == 1.
Proof.
  cbv zeta. split; [reflexivity|].
  pose proof (chopAndNormalizeSaturations_silent_clamp
                threePhaseIndices (plainProperties true) waterOvershoot eq_refl
                (threePhase_saturationSlotsOk waterOvershoot eq_refl)) as T.
  change (readSaturations_ threePhaseIndices (plainProperties true) waterOvershoot)
    with (2, 1 - 2 - - (1 # 2) - 0, - (1 # 2), 0) in T.
  cbv beta iota zeta in T.
  apply T; discriminate.
Defined.


End FurtherSaturationExamples.

Section FurtherAssignExamples.

Import BlackOilPrimaryVariables BlackOilPrimaryVariablesAssign Examples FurtherExamples.

Ltac slot_ok := unfold validIdx, FieldVector.valid; cbn; lia.

Local Abbreviation assign3 FS n :=
  (assignNaive threePhaseIndices (plainProperties true) FS n
     getSaltSaturation_ EnergyModule_assignPrimaryVars).

Lemma assignNaive_stores_witness :
  let pv' := assign3 fluidSystemAll 3%nat (fluidState cellA) allWater in
  primaryVarsMeaningPressure pv' = PressureMeaning.Po
  /\ at_ pv' (pressureSwitchIdx threePhaseIndices) = 110
  /\ primaryVarsMeaningWater pv' = WaterMeaning.Sw
  /\ at_ pv' (waterSwitchIdx threePhaseIndices) = 1 # 2
  /\ primaryVarsMeaningGas pv' = GasMeaning.Sg
  /\ at_ pv' (compositionSwitchIdx threePhaseIndices) = 1 # 4.
Proof.
  pose proof (assignNaive_stores threePhaseIndices (plainProperties true) fluidSystemAll
                3%nat getSaltSaturation_ EnergyModule_assignPrimaryVars
                (fluidState cellA) allWater) as T.
  cbv zeta in T |- *.
  destruct T as (T1 & T2 & T3);
    [ discriminate | discriminate | discriminate | slot_ok
    | intros _; slot_ok | intros _; slot_ok | ].
  split; [reflexivity|]. split; [rewrite T1; reflexivity|].
  split; [reflexivity|]. split; [rewrite T2; reflexivity|].
  split; [reflexivity|]. rewrite T3; reflexivity.
Defined.


Lemma assignNaive_single_phase_is_stable_witness :
  let pv' := assign3 fluidSystemWaterOnly 1%nat (fluidState cellA) allWater in
  primaryVarsMeaningWater pv' = WaterMeaning.Disabled
  /\ primaryVarsMeaningGas pv' = GasMeaning.Disabled
  /\ snd (adaptPrimaryVariables threePhaseIndices (plainProperties true)
            fluidSystemWaterOnly moduleOracles Q (fun scale => capillaryPressures scale)
            None problem 0%nat 0 pv') = (false, pv')
  /\ chopAndNormalizeSaturations threePhaseIndices (plainProperties true) pv'
     = (false, pv').
Proof.
  pose proof (assignNaive_single_phase_is_stable threePhaseIndices (plainProperties true)
                fluidSystemWaterOnly 1%nat getSaltSaturation_
                EnergyModule_assignPrimaryVars moduleOracles Q
                (fun scale => capillaryPressures scale) (fluidState cellA) allWater) as T.
  cbv zeta in T |- *.
  destruct T as (T1 & T2 & T3 & T4); try reflexivity.
  { intros ph ph'. destruct ph, ph'; cbn; intros E E'; try reflexivity; discriminate. }
  split; [exact T1|]. split; [exact T2|]. split; [apply T3 | exact T4].
Defined.

End FurtherAssignExamples.

Section FurtherCriterionExamples.

Import WeightedResidReductionCriterion Examples FurtherExamples.

Lemma residual_wellShaped c :
  weightVec_ c = weights -> wellShaped 2 residual c.
Proof.
  intros E. split; [repeat constructor|]. right. rewrite E. split; [reflexivity|].
  repeat constructor.
Qed.

Lemma update_error_is_weighted_maximum_witness :
  let e := error_ (update comm_max 2 [] residual criterion) in
  weight criterion 1 0 * Qabs ((residual !!! 1%nat) !!! 0%nat) == 4
  /\ 0 <= e
  /\ weight criterion 1 0 * Qabs ((residual !!! 1%nat) !!! 0%nat) <= e
  /\ weight criterion 0 1 * Qabs ((residual !!! 0%nat) !!! 1%nat) <= e.
Proof.
  pose proof (update_error_is_weighted_maximum comm_max 2 [] residual criterion
                (fun x => eq_refl) (residual_wellShaped criterion eq_refl)) as T.
  cbv zeta in T |- *. destruct T as (T1 & T2 & _).
  split; [reflexivity|]. split; [exact T1|].
  split; [apply T2; cbn; lia | apply T2; cbn; lia].
Defined.

Lemma zeroResidual_wellShaped c :
  weightVec_ c = weights -> wellShaped 2 zeroResidual c.
Proof.
  intros E. split; [repeat constructor|]. right. rewrite E. split; [reflexivity|].
  repeat constructor.
Qed.

Lemma zero_initial_residual_witness :
  let c0 := setInitial comm_max 2 [] zeroResidual criterion in
  let c1 := update comm_max 2 [] zeroResidual c0 in
  converged c0 = false /\ error_ c1 = 0 /\ converged c1 = true.
Proof.
  pose proof (zero_initial_residual comm_max 2 [] zeroResidual criterion
                (fun x => eq_refl) (zeroResidual_wellShaped criterion eq_refl)) as T.
  cbv zeta in T |- *.
  destruct T as (_ & T2 & T3 & T4).
  { intros i j Hi Hj. cbn in Hi.
    destruct i as [|[|i]]; [| |lia]; (destruct j as [|[|j]]; [| |lia]); reflexivity. }
  split; [reflexivity|]. split; [exact T3|]. apply T4. discriminate.
Defined.

End FurtherCriterionExamples.

Section FurtherResidualExamples.

Import BlackOilLocalResidualTPFA Examples FurtherExamples.

Lemma threePhase_componentEquationsOk : componentEquationsOk threePhaseIndices.
Proof.
  split.
  - intros c. destruct c; cbn; lia.
  - intros c c'. destruct c, c'; cbn; intros E; try reflexivity; discriminate E.
Qed.

Lemma computeFlux_no_flow_witness :
  let result := computeFlux threePhaseIndices (plainProperties true) fluidSystemOilOnly
                  pressureDiff residualProblem 0 1 cellA cellB 3 2 Unknown in
  value (pressureDifference
           (facePressureDiff pressureDiff residualProblem 0 1 cellA cellB oilPhaseIdx)) == 0
  /\ allZero (fst result) /\ allZero (snd result).
Proof.
  cbv zeta. split; [reflexivity|].
  apply (computeFlux_no_flow threePhaseIndices (plainProperties true) fluidSystemOilOnly
           pressureDiff residualProblem 0%nat 1%nat cellA cellB 3 2 Unknown).
  intros ph. destruct ph; cbn; intros E; try discriminate E. reflexivity.
Defined.

Lemma computeFlux_darcy_rate_witness :
  let result := computeFlux threePhaseIndices (plainProperties true) fluidSystemAll
                  pressureDiff residualProblem 0 1 cellA cellB 3 2 Unknown in
  exists rate,
    EqVector.get (snd result) 1 = Eval.const rate /\ rate == 60.
Proof.
  pose proof (computeFlux_darcy_rate threePhaseIndices (plainProperties true) fluidSystemAll
                pressureDiff residualProblem 0%nat 1%nat cellA cellB 3 2 Unknown
                waterPhaseIdx threePhase_componentEquationsOk eq_refl) as T.
  cbv zeta in T |- *.
  destruct T as (rate & T1 & T2); [discriminate|].
  exists rate. split; [exact T1|]. rewrite T2. reflexivity.
Defined.



End FurtherResidualExamples.
